(** * A shallow embedding of the CHIP-8 interpreter core (Chip8.h, Chip8.cpp)

    The class [Chip8] becomes a record of its data members, each opcode
    handler a function on that record.  Fixed-width unsigned integers are
    integers in [Z] with their wrap-around written out; the C arrays are lists
    read and updated by index.  A handler whose array index depends on run-time
    data returns an [outcome]: either the next state, or the first access the
    source performs outside an array (undefined behaviour in C++; the program
    itself signals nothing). *)

From Stdlib Require Import ZArith List Lia Bool.
From Stdlib Require Import Strings.Byte.
From stdpp Require Import base numbers list.

Local Open Scope Z_scope.

(** ** Machine integers *)

Definition u8 (z : Z) : Z := z mod 256.
Definition u16 (z : Z) : Z := z mod 65536.

(** ** Outcome of a handler *)

Inductive array : Set := Memory | Stack | Video.

Inductive outcome (A : Type) : Type :=
| Ok (a : A)
| OutOfBounds (arr : array) (i : Z).

Arguments Ok {A} a.
Arguments OutOfBounds {A} arr i.

Definition bind {A B : Type} (m : outcome A) (k : A -> outcome B) : outcome B :=
  match m with
  | Ok a => k a
  | OutOfBounds arr i => OutOfBounds arr i
  end.

Notation "'do' x <- m ; k" := (bind m (fun x => k))
  (at level 10, x name, m at level 100, k at level 200).

(** ** The machine state (data members of class Chip8, Chip8.h) *)

Record Chip8 : Type := mkChip8 {
  registers : list Z;   (* uint8_t registers[16] *)
  memory : list Z;      (* uint8_t memory[4096] *)
  index : Z;            (* uint16_t *)
  pc : Z;               (* uint16_t *)
  stack : list Z;       (* uint16_t stack[16] *)
  sp : Z;               (* uint8_t *)
  delayTimer : Z;       (* uint8_t *)
  soundTimer : Z;       (* uint8_t *)
  keypad : list Z;      (* uint8_t keypad[16] *)
  video : list Z;       (* uint32_t video[64*32] *)
  opcode : Z            (* uint16_t *)
}.

Definition START_ADDRESS : Z := 0x200.
Definition FONTSET_START_ADDRESS : Z := 0x50.

(** Modelled from the spec: the constants VIDEO_WIDTH and VIDEO_HEIGHT are
    used by OP_Dxyn but declared nowhere in the source (the header sizes the
    buffer as [64*32]); the spec gives the display as a 64x32 grid. *)
Definition VIDEO_WIDTH : Z := 64.
Definition VIDEO_HEIGHT : Z := 32.

Definition set_registers (s : Chip8) (r : list Z) : Chip8 :=
  mkChip8 r (memory s) (index s) (pc s) (stack s) (sp s)
          (delayTimer s) (soundTimer s) (keypad s) (video s) (opcode s).

Definition set_memory (s : Chip8) (m : list Z) : Chip8 :=
  mkChip8 (registers s) m (index s) (pc s) (stack s) (sp s)
          (delayTimer s) (soundTimer s) (keypad s) (video s) (opcode s).

Definition set_pc (s : Chip8) (p : Z) : Chip8 :=
  mkChip8 (registers s) (memory s) (index s) p (stack s) (sp s)
          (delayTimer s) (soundTimer s) (keypad s) (video s) (opcode s).

Definition set_stack (s : Chip8) (st : list Z) : Chip8 :=
  mkChip8 (registers s) (memory s) (index s) (pc s) st (sp s)
          (delayTimer s) (soundTimer s) (keypad s) (video s) (opcode s).

Definition set_sp (s : Chip8) (p : Z) : Chip8 :=
  mkChip8 (registers s) (memory s) (index s) (pc s) (stack s) p
          (delayTimer s) (soundTimer s) (keypad s) (video s) (opcode s).

Definition set_video (s : Chip8) (v : list Z) : Chip8 :=
  mkChip8 (registers s) (memory s) (index s) (pc s) (stack s) (sp s)
          (delayTimer s) (soundTimer s) (keypad s) v (opcode s).

Definition set_index (s : Chip8) (i : Z) : Chip8 :=
  mkChip8 (registers s) (memory s) i (pc s) (stack s) (sp s)
          (delayTimer s) (soundTimer s) (keypad s) (video s) (opcode s).

Definition set_keypad (s : Chip8) (k : list Z) : Chip8 :=
  mkChip8 (registers s) (memory s) (index s) (pc s) (stack s) (sp s)
          (delayTimer s) (soundTimer s) k (video s) (opcode s).

Definition set_opcode (s : Chip8) (o : Z) : Chip8 :=
  mkChip8 (registers s) (memory s) (index s) (pc s) (stack s) (sp s)
          (delayTimer s) (soundTimer s) (keypad s) (video s) o.

(** ** Array accesses *)

Definition in_bounds (l : list Z) (i : Z) : bool :=
  (0 <=? i) && (i <? Z.of_nat (length l)).

(** [registers[i]] and [keypad[i]] with [i] a nibble of the instruction word
    or a literal below 16: always inside the 16-entry arrays. *)
Definition reg (s : Chip8) (i : Z) : Z := registers s !!! Z.to_nat i.

Definition set_reg (s : Chip8) (i v : Z) : Chip8 :=
  set_registers s (<[Z.to_nat i := v]> (registers s)).

Definition key (s : Chip8) (i : Z) : Z := keypad s !!! Z.to_nat i.

(** Accesses whose index comes from run-time data. *)
Definition read (arr : array) (l : list Z) (i : Z) : outcome Z :=
  if in_bounds l i then Ok (l !!! Z.to_nat i) else OutOfBounds arr i.

Definition write_memory (s : Chip8) (i v : Z) : outcome Chip8 :=
  if in_bounds (memory s) i
  then Ok (set_memory s (<[Z.to_nat i := v]> (memory s)))
  else OutOfBounds Memory i.

Definition write_stack (s : Chip8) (i v : Z) : outcome Chip8 :=
  if in_bounds (stack s) i
  then Ok (set_stack s (<[Z.to_nat i := v]> (stack s)))
  else OutOfBounds Stack i.

Definition write_video (s : Chip8) (i v : Z) : outcome Chip8 :=
  if in_bounds (video s) i
  then Ok (set_video s (<[Z.to_nat i := v]> (video s)))
  else OutOfBounds Video i.

(** ** Well-formed states: array sizes and integer widths of the header *)

Definition all_below (bound : Z) (l : list Z) : bool :=
  forallb (fun v => (0 <=? v) && (v <? bound)) l.

Definition wfb (s : Chip8) : bool :=
  (length (registers s) =? 16)%nat && all_below 256 (registers s) &&
  (length (memory s) =? 4096)%nat && all_below 256 (memory s) &&
  (length (stack s) =? 16)%nat && all_below 65536 (stack s) &&
  (length (keypad s) =? 16)%nat && all_below 256 (keypad s) &&
  (length (video s) =? 2048)%nat && all_below 4294967296 (video s) &&
  all_below 65536 [index s; pc s; opcode s] &&
  all_below 256 [sp s; delayTimer s; soundTimer s].

Definition wf (s : Chip8) : Prop := wfb s = true.

(** ** Operand fields of the instruction word *)

Definition opVx (s : Chip8) : Z := Z.shiftr (Z.land (opcode s) 0x0F00) 8.
Definition opVy (s : Chip8) : Z := Z.shiftr (Z.land (opcode s) 0x00F0) 4.
Definition opAddress (s : Chip8) : Z := Z.land (opcode s) 0x0FFF.

(** ** Opcode handlers (Chip8.cpp) *)

(** OP_00EE: [--sp; pc = stack[sp];] *)
Definition OP_00EE (s : Chip8) : outcome Chip8 :=
  let s1 := set_sp s (u8 (sp s - 1)) in
  do v <- read Stack (stack s1) (sp s1);
  Ok (set_pc s1 v).

(** OP_2nnn: [stack[sp] = pc; ++sp; pc = address;] *)
Definition OP_2nnn (s : Chip8) : outcome Chip8 :=
  let address := opAddress s in
  do s1 <- write_stack s (sp s) (pc s);
  let s2 := set_sp s1 (u8 (sp s1 + 1)) in
  Ok (set_pc s2 address).

(** OP_3xkk: [byte = opcode & 0x00FFu; if (registers[Vx] == byte) pc += 2;] *)
Definition OP_3xkk (s : Chip8) : Chip8 :=
  let Vx := opVx s in
  let byte := u8 (Z.land (opcode s) 0x00FF) in
  if reg s Vx =? byte then set_pc s (u16 (pc s + 2)) else s.

(** OP_4xkk: [byte = opcode & 0x00Fu; if (registers[Vx] != byte) pc += 2;] *)
Definition OP_4xkk (s : Chip8) : Chip8 :=
  let Vx := opVx s in
  let byte := u8 (Z.land (opcode s) 0x00F) in
  if negb (reg s Vx =? byte) then set_pc s (u16 (pc s + 2)) else s.

(** OP_8xy4.  Line 188 of Chip8.cpp reads
    [uint16_t sum - registers[Vx] + registers[Vy];], which is not a
    declaration; it is read as the initialisation [sum = ...] that the
    following lines rely on. *)
Definition OP_8xy4 (s : Chip8) : Chip8 :=
  let Vx := opVx s in
  let Vy := opVy s in
  let sum := u16 (reg s Vx + reg s Vy) in
  let s1 := if 255 <? sum then set_reg s 0xF 1 else set_reg s 0xF 0 in
  set_reg s1 Vx (u8 (Z.land sum 0xFF)).

(** OP_8xy5: the flag is stored first, then [registers[Vx] -= registers[Vy]]
    reads both operands from the updated register file. *)
Definition OP_8xy5 (s : Chip8) : Chip8 :=
  let Vx := opVx s in
  let Vy := opVy s in
  let s1 := if reg s Vy <? reg s Vx then set_reg s 0xF 1 else set_reg s 0xF 0 in
  set_reg s1 Vx (u8 (reg s1 Vx - reg s1 Vy)).

(** A counted [for] loop: [for (i = start; ...; ++i) body] run [count] times. *)
Fixpoint for_range {St : Type} (i : Z) (count : nat)
    (body : Z -> St -> outcome St) (s : St) : outcome St :=
  match count with
  | O => Ok s
  | S n => do s1 <- body i s; for_range (i + 1) n body s1
  end.

(** One iteration of the inner loop of OP_Dxyn.  Line 324 of Chip8.cpp writes
    [xPod + col]; no such name is declared and it is read as [xPos].  The
    address of the cell is formed for every bit; the cell is read and written
    for an on bit only. *)
Definition draw_pixel (spriteByte xPos yPos row col : Z) (s : Chip8)
    : outcome Chip8 :=
  let spritePixel := u8 (Z.land spriteByte (Z.shiftr 0x80 col)) in
  let cell := (yPos + row) * VIDEO_WIDTH + (xPos + col) in
  if spritePixel =? 0 then Ok s
  else
    do px <- read Video (video s) cell;
    let s1 := if px =? 0xFFFFFFFF then set_reg s 0xF 1 else s in
    write_video s1 cell (Z.lxor px 0xFFFFFFFF).

Definition draw_row (xPos yPos row : Z) (s : Chip8) : outcome Chip8 :=
  do spriteByte <- read Memory (memory s) (index s + row);
  for_range 0 8 (draw_pixel spriteByte xPos yPos row) s.

(** OP_Dxyn *)
Definition OP_Dxyn (s : Chip8) : outcome Chip8 :=
  let Vx := opVx s in
  let Vy := opVy s in
  let height := u8 (Z.land (opcode s) 0x000F) in
  let xPos := u8 (reg s Vx mod VIDEO_WIDTH) in
  let yPos := u8 (reg s Vy mod VIDEO_HEIGHT) in
  let s0 := set_reg s 0xF 0 in
  for_range 0 (Z.to_nat height) (draw_row xPos yPos) s0.

(** The test [if (keypad[k])]. *)
Definition pressed (s : Chip8) (k : Z) : bool := negb (key s k =? 0).

(** OP_Fx0A: the chain [if (keypad[0]) ... else if (keypad[15]) ... else pc -= 2]. *)
Definition OP_Fx0A (s : Chip8) : Chip8 :=
  let Vx := opVx s in
  if pressed s 0 then set_reg s Vx 0
  else if pressed s 1 then set_reg s Vx 1
  else if pressed s 2 then set_reg s Vx 2
  else if pressed s 3 then set_reg s Vx 3
  else if pressed s 4 then set_reg s Vx 4
  else if pressed s 5 then set_reg s Vx 5
  else if pressed s 6 then set_reg s Vx 6
  else if pressed s 7 then set_reg s Vx 7
  else if pressed s 8 then set_reg s Vx 8
  else if pressed s 9 then set_reg s Vx 9
  else if pressed s 10 then set_reg s Vx 10
  else if pressed s 11 then set_reg s Vx 11
  else if pressed s 12 then set_reg s Vx 12
  else if pressed s 13 then set_reg s Vx 13
  else if pressed s 14 then set_reg s Vx 14
  else if pressed s 15 then set_reg s Vx 15
  else set_pc s (u16 (pc s - 2)).

(** OP_Fx33 *)
Definition OP_Fx33 (s : Chip8) : outcome Chip8 :=
  let Vx := opVx s in
  let value := reg s Vx in
  do s1 <- write_memory s (index s + 2) (u8 (value mod 10));
  let value1 := u8 (value / 10) in
  do s2 <- write_memory s1 (index s1 + 1) (u8 (value1 mod 10));
  let value2 := u8 (value1 / 10) in
  write_memory s2 (index s2) (u8 (value2 mod 10)).

(** OP_Fx55: [for (uint8_t i = 0; i <= Vx; ++i) memory[index + i] = registers[i];] *)
Definition OP_Fx55 (s : Chip8) : outcome Chip8 :=
  let Vx := opVx s in
  for_range 0 (Z.to_nat (Vx + 1))
    (fun i s1 => write_memory s1 (index s1 + i) (reg s1 i)) s.

(** OP_Fx65: [for (uint8_t i = 0; i <= Vx; ++i) registers[i] = memory[index + i];] *)
Definition OP_Fx65 (s : Chip8) : outcome Chip8 :=
  let Vx := opVx s in
  for_range 0 (Z.to_nat (Vx + 1))
    (fun i s1 => do v <- read Memory (memory s1) (index s1 + i);
                 Ok (set_reg s1 i v)) s.

(** A [char] of the file buffer, stored as the [uint8_t] with the same bits. *)
Definition byte_value (b : byte) : Z := Z.of_N (Byte.to_N b).

(** LoadROM.  The file is [None] when it cannot be opened (the body of the
    [if (file.is_open())] is skipped) and [Some buffer] with its contents
    otherwise. *)
Definition LoadROM (file : option (list byte)) (s : Chip8) : outcome Chip8 :=
  match file with
  | Some buffer =>
      for_range 0 (length buffer)
        (fun i s1 =>
           write_memory s1 (START_ADDRESS + i)
                        (byte_value (nth (Z.to_nat i) buffer "000"%byte))) s
  | None => Ok s
  end.

(** ** The constructor (Chip8.cpp): members zero-initialised by the header,
    [pc = START_ADDRESS], and the glyph table copied to 0x50.

    [opcode] is the one member without an initialiser ([uint16_t opcode;],
    Chip8.h line 132) and the constructor does not assign it: its value after
    construction is indeterminate.  [Chip8_new] takes 0 for it;
    [Chip8_power_on] is the constructed state for any other value.  Every
    handler is run on a state whose [opcode] has been set to the instruction
    word, which overwrites that value. *)
Definition fontset : list Z :=
  [ 0xF0; 0x90; 0x90; 0x90; 0xF0;
    0x20; 0x60; 0x20; 0x20; 0x70;
    0xF0; 0x10; 0xF0; 0x80; 0xF0;
    0xF0; 0x10; 0xF0; 0x10; 0xF0;
    0x90; 0x90; 0xF0; 0x10; 0x10;
    0xF0; 0x80; 0xF0; 0x10; 0xF0;
    0xF0; 0x80; 0xF0; 0x90; 0xF0;
    0xF0; 0x10; 0x20; 0x40; 0x40;
    0xF0; 0x90; 0xF0; 0x90; 0xF0;
    0xF0; 0x90; 0xF0; 0x10; 0xF0;
    0xF0; 0x90; 0xF0; 0x90; 0x90;
    0xE0; 0x90; 0xE0; 0x90; 0xE0;
    0xF0; 0x80; 0x80; 0x80; 0xF0;
    0xE0; 0x90; 0x90; 0x90; 0xE0;
    0xF0; 0x80; 0xF0; 0x80; 0xF0;
    0xF0; 0x80; 0xF0; 0x80; 0x80 ].

Definition FONTSET_SIZE : nat := 80.

Definition zeros (n : nat) : list Z := replicate n 0.

Definition Chip8_new : Chip8 :=
  let s := mkChip8 (zeros 16) (zeros 4096) 0 START_ADDRESS (zeros 16) 0 0 0
                   (zeros 16) (zeros 2048) 0 in
  fold_left
    (fun s1 i =>
       set_memory s1 (<[(Z.to_nat FONTSET_START_ADDRESS + i)%nat := fontset !!! i]>
                        (memory s1)))
    (seq 0 FONTSET_SIZE) s.

Definition Chip8_power_on (opcode0 : Z) : Chip8 := set_opcode Chip8_new opcode0.

(** ** The other opcode handlers (Chip8.cpp) *)

Definition set_delayTimer (s : Chip8) (v : Z) : Chip8 :=
  mkChip8 (registers s) (memory s) (index s) (pc s) (stack s) (sp s)
          v (soundTimer s) (keypad s) (video s) (opcode s).

Definition set_soundTimer (s : Chip8) (v : Z) : Chip8 :=
  mkChip8 (registers s) (memory s) (index s) (pc s) (stack s) (sp s)
          (delayTimer s) v (keypad s) (video s) (opcode s).

(** [uint8_t byte = opcode & 0x00FFu;] *)
Definition opByte (s : Chip8) : Z := u8 (Z.land (opcode s) 0x00FF).

(** OP_00E0: [memset(video, 0, sizeof(video));] every cell becomes 0. *)
Definition OP_00E0 (s : Chip8) : Chip8 :=
  set_video s (replicate (length (video s)) 0).

(** OP_1nnn: [pc = opcode & 0x0FFFu;] *)
Definition OP_1nnn (s : Chip8) : Chip8 := set_pc s (opAddress s).

(** OP_5xy0: [if (registers[Vx] == registers[Vy]) pc += 2;] *)
Definition OP_5xy0 (s : Chip8) : Chip8 :=
  if reg s (opVx s) =? reg s (opVy s) then set_pc s (u16 (pc s + 2)) else s.

(** OP_6xkk: [registers[Vx] = byte;] *)
Definition OP_6xkk (s : Chip8) : Chip8 := set_reg s (opVx s) (opByte s).

(** OP_7xkk: [registers[Vx] += byte;] *)
Definition OP_7xkk (s : Chip8) : Chip8 :=
  set_reg s (opVx s) (u8 (reg s (opVx s) + opByte s)).

(** OP_8xy0: [registers[Vx] = registers[Vy];] *)
Definition OP_8xy0 (s : Chip8) : Chip8 := set_reg s (opVx s) (reg s (opVy s)).

(** OP_8xy1: [registers[Vx] |= registers[Vy];] *)
Definition OP_8xy1 (s : Chip8) : Chip8 :=
  set_reg s (opVx s) (u8 (Z.lor (reg s (opVx s)) (reg s (opVy s)))).

(** OP_8xy2: [registers[Vx] &= registers[Vy];] *)
Definition OP_8xy2 (s : Chip8) : Chip8 :=
  set_reg s (opVx s) (u8 (Z.land (reg s (opVx s)) (reg s (opVy s)))).

(** OP_8xy3: [registers[Vx] ^= registers[Vy];] *)
Definition OP_8xy3 (s : Chip8) : Chip8 :=
  set_reg s (opVx s) (u8 (Z.lxor (reg s (opVx s)) (reg s (opVy s)))).

(** OP_8xy6: [registers[0xF] = (registers[Vx] & 0x1u); registers[Vx] >>= 1;] *)
Definition OP_8xy6 (s : Chip8) : Chip8 :=
  let Vx := opVx s in
  let s1 := set_reg s 0xF (u8 (Z.land (reg s Vx) 0x1)) in
  set_reg s1 Vx (u8 (Z.shiftr (reg s1 Vx) 1)).

(** OP_8xy7: the flag is stored first, then
    [registers[Vx] = registers[Vy] - registers[Vx];]. *)
Definition OP_8xy7 (s : Chip8) : Chip8 :=
  let Vx := opVx s in
  let Vy := opVy s in
  let s1 := if reg s Vx <? reg s Vy then set_reg s 0xF 1 else set_reg s 0xF 0 in
  set_reg s1 Vx (u8 (reg s1 Vy - reg s1 Vx)).

(** OP_8xyE: [registers[0xF] = (registers[Vx] & 0x80u) >> 7u;
    registers[Vx] <<= 1;] *)
Definition OP_8xyE (s : Chip8) : Chip8 :=
  let Vx := opVx s in
  let s1 := set_reg s 0xF (u8 (Z.shiftr (Z.land (reg s Vx) 0x80) 7)) in
  set_reg s1 Vx (u8 (Z.shiftl (reg s1 Vx) 1)).

(** OP_9xy0: [if (registers[Vx] != registers[Vy]) pc += 2;] *)
Definition OP_9xy0 (s : Chip8) : Chip8 :=
  if negb (reg s (opVx s) =? reg s (opVy s)) then set_pc s (u16 (pc s + 2)) else s.

(** OP_Annn: [index = opcode & 0x0FFFu;] *)
Definition OP_Annn (s : Chip8) : Chip8 := set_index s (opAddress s).

(** OP_Bnnn: [pc = registers[0] + address;] *)
Definition OP_Bnnn (s : Chip8) : Chip8 := set_pc s (u16 (reg s 0 + opAddress s)).

(** OP_Cxkk: [registers[Vx] = randByte(randGen) & byte;].  The byte drawn from
    the generator is the argument [random]; the generator itself (seeded from
    the clock) is not modelled. *)
Definition OP_Cxkk (random : Z) (s : Chip8) : Chip8 :=
  set_reg s (opVx s) (u8 (Z.land random (opByte s))).

(** [keypad[key]] with [key] a register value: [None] when [key] lies outside
    the 16-entry array, where the source reads past it. *)
Definition read_key (s : Chip8) (k : Z) : option Z :=
  if in_bounds (keypad s) k then Some (keypad s !!! Z.to_nat k) else None.

(** OP_Ex9E: [key = registers[Vx]; if (keypad[key]) pc += 2;] *)
Definition OP_Ex9E (s : Chip8) : option Chip8 :=
  match read_key s (reg s (opVx s)) with
  | Some v => Some (if negb (v =? 0) then set_pc s (u16 (pc s + 2)) else s)
  | None => None
  end.

(** OP_ExA1 (spelt OP_Exa1 in Chip8.cpp):
    [key = registers[Vx]; if (!keypad[key]) pc += 2;] *)
Definition OP_ExA1 (s : Chip8) : option Chip8 :=
  match read_key s (reg s (opVx s)) with
  | Some v => Some (if v =? 0 then set_pc s (u16 (pc s + 2)) else s)
  | None => None
  end.

(** OP_Fx07: [registers[Vx] = delayTimer;] *)
Definition OP_Fx07 (s : Chip8) : Chip8 := set_reg s (opVx s) (delayTimer s).

(** OP_Fx15: [delayTimer = registers[Vx];] *)
Definition OP_Fx15 (s : Chip8) : Chip8 := set_delayTimer s (reg s (opVx s)).

(** OP_Fx18: [soundTimer = registers[Vx];] *)
Definition OP_Fx18 (s : Chip8) : Chip8 := set_soundTimer s (reg s (opVx s)).

(** OP_Fx1E (spelt OP_FX1E in Chip8.cpp): [index += registers[Vx];] *)
Definition OP_Fx1E (s : Chip8) : Chip8 :=
  set_index s (u16 (index s + reg s (opVx s))).

(** OP_Fx29: [digit = registers[Vx]; index = FONTSET_START_ADDRESS + (5 * digit);] *)
Definition OP_Fx29 (s : Chip8) : Chip8 :=
  let digit := reg s (opVx s) in
  set_index s (u16 (FONTSET_START_ADDRESS + 5 * digit)).

(** * Notions used to state the properties *)

(** The chain of tests of OP_Fx0A, as a scan of keys [k], [k+1], ... *)
Fixpoint scan_keys (s : Chip8) (k : Z) (n : nat) : option Z :=
  match n with
  | O => None
  | S n' => if pressed s k then Some k else scan_keys s (k + 1) n'
  end.

(** The operands OP_Dxyn reads before its loops. *)
Definition draw_height (s : Chip8) : Z := u8 (Z.land (opcode s) 0x000F).
Definition draw_xPos (s : Chip8) : Z := u8 (reg s (opVx s) mod VIDEO_WIDTH).
Definition draw_yPos (s : Chip8) : Z := u8 (reg s (opVy s) mod VIDEO_HEIGHT).

(** The display cells of the sprite's on bits, in the order the loops visit
    them: bit [col] of row [row] addresses cell
    [(yPos + row) * VIDEO_WIDTH + (xPos + col)]. *)
Definition sprite_bit (spriteByte col : Z) : bool :=
  negb (u8 (Z.land spriteByte (Z.shiftr 0x80 col)) =? 0).

Definition cell_of (xPos yPos row col : Z) : Z :=
  (yPos + row) * VIDEO_WIDTH + (xPos + col).

Fixpoint cols_cells (spriteByte xPos yPos row col : Z) (n : nat) : list Z :=
  match n with
  | O => []
  | S n' =>
      (if sprite_bit spriteByte col then [cell_of xPos yPos row col] else [])
        ++ cols_cells spriteByte xPos yPos row (col + 1) n'
  end.

Fixpoint rows_cells (mem : list Z) (idx xPos yPos row : Z) (n : nat) : list Z :=
  match n with
  | O => []
  | S n' =>
      cols_cells (mem !!! Z.to_nat (idx + row)) xPos yPos row 0 8
        ++ rows_cells mem idx xPos yPos (row + 1) n'
  end.

Definition sprite_cells (s : Chip8) : list Z :=
  rows_cells (memory s) (index s) (draw_xPos s) (draw_yPos s) 0
             (Z.to_nat (draw_height s)).

(** What OP_Dxyn does at the cell of one on bit, and at a list of cells. *)
Definition toggle (cell : Z) (s : Chip8) : outcome Chip8 :=
  do px <- read Video (video s) cell;
  let s1 := if px =? 0xFFFFFFFF then set_reg s 0xF 1 else s in
  write_video s1 cell (Z.lxor px 0xFFFFFFFF).

Fixpoint toggle_all (cells : list Z) (s : Chip8) : outcome Chip8 :=
  match cells with
  | [] => Ok s
  | c :: rest => do s1 <- toggle c s; toggle_all rest s1
  end.

(** What a draw leaves alone. *)
Definition draw_frame (s s' : Chip8) : Prop :=
  memory s' = memory s /\ index s' = index s /\ opcode s' = opcode s /\
  pc s' = pc s /\
  length (registers s') = length (registers s) /\
  length (video s') = length (video s) /\
  forall i, 0 <= i -> i <> 0xF -> reg s' i = reg s i.

(** Every cell of the sprite's on bits lies inside the display buffer. *)
Definition fits_video (s : Chip8) : bool :=
  forallb (in_bounds (video s)) (sprite_cells s).

(** * Concrete machine states and program images

    Each state is the power-on state with an instruction word in [opcode] and
    the registers, memory or keys the instruction looks at. *)

(** 8F04 (VF += V0) with VF = 255, V0 = 1. *)
Definition state_8F04 : Chip8 :=
  set_reg (set_reg (set_opcode Chip8_new 0x8F04) 0xF 255) 0 1.

(** 8014 (V0 += V1) with V0 = 200, V1 = 100. *)
Definition state_8014 : Chip8 :=
  set_reg (set_reg (set_opcode Chip8_new 0x8014) 0 200) 1 100.

(** 4010 (skip if V0 != 0x10) with V0 = 0x10. *)
Definition state_4010 : Chip8 := set_reg (set_opcode Chip8_new 0x4010) 0 0x10.





(** 2300 (call 0x300) at power-on: sp = 0, pc = 0x200. *)
Definition state_2300 : Chip8 := set_opcode Chip8_new 0x2300.

(** 2ABC (call 0xABC) one level deep: sp = 1, stack[0] = 0x345. *)
Definition state_call_depth_1 : Chip8 :=
  set_sp (set_stack (set_opcode Chip8_new 0x2ABC) (<[0%nat := 0x345]> (zeros 16))) 1.

(** F50A (wait for a key into V5) fetched from 0x200, so with pc = 0x202:
    once with no key down, once with keys 3 and 7 down. *)
Definition state_F50A_idle : Chip8 :=
  set_opcode (set_pc Chip8_new 0x202) 0xF50A.

Definition state_F50A_keys : Chip8 :=
  set_keypad (set_opcode (set_pc Chip8_new 0x202) 0xF50A)
             (<[3%nat := 1]> (<[7%nat := 1]> (zeros 16))).

(** F233 (BCD of V2) with V2 = 255 and I = 0x300. *)
Definition state_F233 : Chip8 :=
  set_index (set_reg (set_opcode Chip8_new 0xF233) 2 255) 0x300.

(** Fx55 / Fx65 with x = 3 and I = 0x400. *)
Definition state_F355 : Chip8 := set_index (set_opcode Chip8_new 0xF355) 0x400.

(** Program images of 4096 - 0x200 bytes and of one byte more. *)
Definition image_3584 : list byte := repeat xff 3584.

Definition image_3585 : list byte := repeat xff 3585.

(** D012 at power-on: I = 0, and memory[0..1] is zero, a sprite with no bit on. *)
Definition state_D012_blank : Chip8 := set_opcode Chip8_new 0xD012.

(** D015 with I at the first glyph (0x50) and (V0, V1) = (10, 5). *)
Definition state_D015_glyph : Chip8 :=
  set_index (set_reg (set_reg (set_opcode Chip8_new 0xD015) 0 10) 1 5)
            FONTSET_START_ADDRESS.

(** A state with the given sprite rows at 0x300 and I pointing at them. *)
Definition sprite_at_0x300 (rows : list Z) (s : Chip8) : Chip8 :=
  set_index
    (set_memory s (take 0x300 (memory s) ++ rows
                     ++ drop (0x300 + length rows) (memory s)))
    0x300.

(** D012 with (V0, V1) = (0, 31) and a two-row sprite whose leftmost bit is
    set in both rows. *)
Definition state_D012_bottom : Chip8 :=
  sprite_at_0x300 [0x80; 0x80] (set_reg (set_opcode Chip8_new 0xD012) 1 31).

(** D011 with (V0, V1) = (63, 0) and a one-row sprite whose two leftmost bits
    are set. *)
Definition state_D011_right : Chip8 :=
  sprite_at_0x300 [0xC0] (set_reg (set_opcode Chip8_new 0xD011) 0 63).

(** ** States for the further properties *)

(** 8123 (V1 ^= V2, and 8121, 8122 on the same operands) with
    (V1, V2) = (0x5A, 0x3C). *)
Definition state_8123 : Chip8 :=
  set_reg (set_reg (set_opcode Chip8_new 0x8123) 1 0x5A) 2 0x3C.

(** 8106 (V1 >>= 1) with V1 = 51, and 8F06 (VF >>= 1) with VF = 255. *)
Definition state_8106 : Chip8 := set_reg (set_opcode Chip8_new 0x8106) 1 51.

Definition state_8F06 : Chip8 := set_reg (set_opcode Chip8_new 0x8F06) 0xF 255.

(** 8017 (V0 := V1 - V0) with (V0, V1) = (50, 100). *)
Definition state_8017 : Chip8 :=
  set_reg (set_reg (set_opcode Chip8_new 0x8017) 0 50) 1 100.

(** 70C8 (V0 += 200) with V0 = 100. *)
Definition state_70C8 : Chip8 := set_reg (set_opcode Chip8_new 0x70C8) 0 100.

(** 6A42 (VA := 0x42) at power-on. *)
Definition state_6A42 : Chip8 := set_opcode Chip8_new 0x6A42.

(** E29E (skip if key V2 is down) with V2 = 7 and key 7 down, and with
    V2 = 16. *)
Definition state_E29E_key7 : Chip8 :=
  set_keypad (set_reg (set_opcode Chip8_new 0xE29E) 2 7) (<[7%nat := 1]> (zeros 16)).

Definition state_E29E_outside : Chip8 :=
  set_reg (set_opcode Chip8_new 0xE29E) 2 16.

(** BFFF (jump to V0 + 0xFFF) with V0 = 255. *)
Definition state_BFFF : Chip8 := set_reg (set_opcode Chip8_new 0xBFFF) 0 255.

(** F01E (I += V0) with V0 = 2 and I = 0xFFFF. *)
Definition state_F01E_top : Chip8 :=
  set_index (set_reg (set_opcode Chip8_new 0xF01E) 0 2) 0xFFFF.

(** F315 (delay timer := V3) with V3 = 60. *)
Definition state_F315 : Chip8 := set_reg (set_opcode Chip8_new 0xF315) 3 60.

(** C10F (V1 := random & 0x0F) at power-on. *)
Definition state_C10F : Chip8 := set_opcode Chip8_new 0xC10F.

(** 8ABE (VA <<= 1) with VA = 0xFF. *)
Definition state_8ABE : Chip8 :=
  set_reg (set_opcode Chip8_new 0x8ABE) 0xA 0xFF.

(** F233 (BCD of V2) with V2 = 199 and I = 0xFFD, the last address at which
    the three bytes fit. *)
Definition state_F233_twin : Chip8 :=
  set_index (set_reg (set_opcode Chip8_new 0xF233) 2 199) 0xFFD.

(** 2ABC (call 0xABC) at power-on. *)
Definition state_2ABC_fresh : Chip8 := set_opcode Chip8_new 0x2ABC.

(** Two program images, the second shorter than the first. *)
Definition image_long : list byte := [x11; x22; x33; x44].

Definition image_short : list byte := [xa2; xf0].

(** FA29 (I := glyph of VA) with VA = 0xA. *)
Definition state_FA29 : Chip8 := set_reg (set_opcode Chip8_new 0xFA29) 0xA 0xA.

(** 00E0 with display cell 0 on and I at the first glyph. *)
Definition state_00E0_lit : Chip8 :=
  set_index
    (set_video (set_opcode Chip8_new 0x00E0) (<[0%nat := 0xFFFFFFFF]> (zeros 2048)))
    FONTSET_START_ADDRESS.

(** The state a call to 0xABC from [state_call_depth_1] leaves. *)
Definition state_call_depth_2 : Chip8 :=
  set_pc
    (set_sp (set_stack state_call_depth_1
                       (<[1%nat := 0x200]> (stack state_call_depth_1))) 2)
    0xABC.

(** F155 (dump V0..V1) with (V0, V1, V2) = (11, 22, 33) and I = 0x400. *)
Definition state_F155 : Chip8 :=
  set_index
    (set_reg (set_reg (set_reg (set_opcode Chip8_new 0xF155) 0 11) 1 22) 2 33)
    0x400.

(** F733 (BCD of V7) with V7 = 199 and I = 0x300. *)
Definition state_F733 : Chip8 :=
  set_index (set_reg (set_opcode Chip8_new 0xF733) 7 199) 0x300.

(** D011 with (V0, V1) = (2, 3) and the one-row sprite 0xA0. *)
Definition state_D011_A0 : Chip8 :=
  sprite_at_0x300 [0xA0]
    (set_reg (set_reg (set_opcode Chip8_new 0xD011) 0 2) 1 3).

(** D015 with I at the first glyph, (V0, V1) = (10, 5), and the cell under
    the glyph's top-left bit, 5 * 64 + 10, already on. *)
Definition state_D015_lit : Chip8 :=
  set_video state_D015_glyph (<[330%nat := 0xFFFFFFFF]> (zeros 2048)).

(** F255 (dump V0..V2) with I = 0xFFE: V0 and V1 fit, V2 does not. *)
Definition state_F255_end : Chip8 :=
  set_index (set_opcode Chip8_new 0xF255) 0xFFE.

(** * Properties *)

(** ** Well-formedness, operand fields, register file *)

Lemma all_below_lookup bound (l : list Z) (i : nat) :
  all_below bound l = true -> (i < length l)%nat -> 0 <= l !!! i < bound.
Proof.
  unfold all_below. revert i. induction l as [|v l IH]; intros i H Hi; simpl in *.
  - lia.
  - apply andb_prop in H as [Hv Hl]. destruct i as [|i]; simpl.
    + lia.
    + apply IH; [assumption | lia].
Qed.

Lemma wf_inv s :
  wf s ->
  length (registers s) = 16%nat /\ all_below 256 (registers s) = true /\
  length (memory s) = 4096%nat /\ all_below 256 (memory s) = true /\
  length (stack s) = 16%nat /\ all_below 65536 (stack s) = true /\
  length (keypad s) = 16%nat /\
  length (video s) = 2048%nat /\
  0 <= index s < 65536 /\ 0 <= pc s < 65536 /\ 0 <= opcode s < 65536 /\
  0 <= sp s < 256.
Proof.
  unfold wf, wfb. intros H.
  repeat (apply andb_prop in H as [H ?]).
  repeat match goal with
         | E : (_ =? _)%nat = true |- _ => apply Nat.eqb_eq in E
         end.
  unfold all_below in *. simpl in *.
  repeat match goal with
         | E : _ && _ = true |- _ => apply andb_prop in E as [? ?]
         end.
  repeat split; try assumption; lia.
Qed.

Lemma nibble_range (o : Z) (k : Z) :
  0 <= k -> 0 <= Z.shiftr (Z.land o (Z.shiftl 0xF k)) k < 16.
Proof.
  intros Hk.
  rewrite Z.shiftr_land, Z.shiftr_shiftl_l, Z.sub_diag by lia.
  change (Z.shiftl 15 0) with (Z.ones 4).
  rewrite Z.land_ones by lia.
  apply Z.mod_pos_bound. reflexivity.
Qed.

Lemma opVx_range s : 0 <= opVx s < 16.
Proof. exact (nibble_range (opcode s) 8 ltac:(lia)). Qed.

Lemma opVy_range s : 0 <= opVy s < 16.
Proof. exact (nibble_range (opcode s) 4 ltac:(lia)). Qed.

Lemma reg_range s i : wf s -> 0 <= i < 16 -> 0 <= reg s i < 256.
Proof.
  intros Hwf Hi. apply wf_inv in Hwf as (Hlen & Hall & _).
  apply all_below_lookup; [assumption | lia].
Qed.

Lemma reg_set_reg_eq s i v :
  length (registers s) = 16%nat -> 0 <= i < 16 -> reg (set_reg s i v) i = v.
Proof.
  intros Hlen Hi. unfold reg, set_reg. simpl.
  apply list_lookup_total_insert_eq. lia.
Qed.

Lemma reg_set_reg_ne s i j v :
  0 <= i -> 0 <= j -> i <> j -> reg (set_reg s i v) j = reg s j.
Proof.
  intros Hi Hj Hne. unfold reg, set_reg. simpl.
  apply list_lookup_total_insert_ne. lia.
Qed.

Lemma length_set_reg s i v :
  length (registers (set_reg s i v)) = length (registers s).
Proof. unfold set_reg. simpl. apply length_insert. Qed.

Lemma in_bounds_true (l : list Z) (i : Z) :
  0 <= i < Z.of_nat (length l) -> in_bounds l i = true.
Proof. intros H. unfold in_bounds. apply andb_true_intro. split; lia. Qed.

Lemma land_0xFF (z : Z) : Z.land z 0xFF = z mod 256.
Proof. change 0xFF with (Z.ones 8). now rewrite Z.land_ones by lia. Qed.

(** ** Add registers (8xy4) *)

(** C2, counterexample: instruction 8F04 with VF = 255 and V0 = 1, so x is
    0xF itself.  The sum is 256 > 255, so the flag is due to be 1; the handler
    does store 1 in V15, but then stores the sum (255 + 1) mod 256 = 0 in Vx,
    the same register, and V15 ends as 0. *)
Lemma OP_8xy4_flag_overwritten_by_sum :
  wf state_8F04 /\
  opVx state_8F04 = 0xF /\
  reg state_8F04 (opVx state_8F04) = 255 /\
  reg state_8F04 (opVy state_8F04) = 1 /\
  reg state_8F04 (opVx state_8F04) + reg state_8F04 (opVy state_8F04) > 255 /\
  reg (OP_8xy4 state_8F04) 0xF = 0.
Proof. vm_compute. repeat split; reflexivity. Qed.

(** C2, amended: for all 8-bit values a in Vx and b in Vy, the handler stores
    the carry in V15 (1 if a + b > 255, else 0) and then stores
    (a + b) mod 256 in Vx.  Afterwards Vx equals (a + b) mod 256 for every x
    and y; V15 is 1 if and only if a + b > 255, and 0 otherwise, whenever x is
    not 0xF; with x = 0xF the sum, written last, is what V15 holds. *)
Theorem OP_8xy4_sum_and_carry (s : Chip8) :
  wf s ->
  let x := opVx s in
  let a := reg s x in
  let b := reg s (opVy s) in
  OP_8xy4 s
  = set_reg (set_reg s 0xF (if 255 <? a + b then 1 else 0)) x ((a + b) mod 256) /\
  reg (OP_8xy4 s) x = (a + b) mod 256 /\
  (x <> 0xF ->
   (reg (OP_8xy4 s) 0xF = 1 <-> a + b > 255) /\
   (reg (OP_8xy4 s) 0xF = 0 <-> a + b <= 255)) /\
  (x = 0xF -> reg (OP_8xy4 s) 0xF = (a + b) mod 256).
Proof.
  intros Hwf x a b.
  pose proof (opVx_range s) as Hx. pose proof (opVy_range s) as Hy.
  pose proof (reg_range s _ Hwf Hx) as Ha. pose proof (reg_range s _ Hwf Hy) as Hb.
  pose proof (wf_inv s Hwf) as (Hlen & _).
  fold x in Hx, Ha. fold a in Ha. fold b in Hb.
  assert (Hsum : u16 (a + b) = a + b) by (unfold u16; apply Z.mod_small; lia).
  assert (Hres : u8 (Z.land (a + b) 0xFF) = (a + b) mod 256).
  { unfold u8. rewrite land_0xFF. apply Z.mod_mod. lia. }
  assert (Heq : OP_8xy4 s
                = set_reg (set_reg s 0xF (if 255 <? a + b then 1 else 0)) x
                          ((a + b) mod 256)).
  { unfold OP_8xy4. fold x. fold a. fold b. rewrite Hsum, Hres.
    destruct (255 <? a + b); reflexivity. }
  assert (Hvx : reg (OP_8xy4 s) x = (a + b) mod 256).
  { rewrite Heq. apply reg_set_reg_eq; [| assumption].
    now rewrite length_set_reg. }
  split; [exact Heq |]. split; [exact Hvx |]. split.
  - intros Hne.
    assert (Hf : reg (OP_8xy4 s) 0xF = if 255 <? a + b then 1 else 0).
    { rewrite Heq, reg_set_reg_ne by lia.
      apply reg_set_reg_eq; [assumption | lia]. }
    rewrite Hf. destruct (255 <? a + b) eqn:E.
    + apply Z.ltb_lt in E. split; split; intros; (lia || reflexivity).
    + apply Z.ltb_ge in E. split; split; intros; (lia || reflexivity).
  - intros Heqx. rewrite <- Heqx. exact Hvx.
Qed.

(** At 8014 with V0 = 200 and V1 = 100, V0 ends as 44 and V15 as 1.  At 8F04
    with VF = 255 and V0 = 1 the register written last is V15 itself: it ends
    as (255 + 1) mod 256 = 0. *)
Lemma OP_8xy4_sum_and_carry_witness :
  (reg (OP_8xy4 state_8014) 0 = 44 /\ reg (OP_8xy4 state_8014) 0xF = 1) /\
  reg (OP_8xy4 state_8F04) 0xF = 0.
Proof.
  assert (Hwf : wf state_8014) by (vm_compute; reflexivity).
  assert (Hwf' : wf state_8F04) by (vm_compute; reflexivity).
  destruct (OP_8xy4_sum_and_carry state_8014 Hwf) as (_ & Hsum & Hflag & _).
  destruct (OP_8xy4_sum_and_carry state_8F04 Hwf') as (_ & _ & _ & Hsum').
  split; [split |].
  - exact Hsum.
  - destruct Hflag as (H1 & _); [vm_compute; discriminate |].
    apply H1. vm_compute. reflexivity.
  - apply Hsum'. reflexivity.
Defined.

(** ** Skip if Vx != kk (4xkk) *)

(** C4, at the failing input: instruction 4010 with V0 = 0x10.  The register
    equals the immediate byte (bits 7-0 of the word), so no skip is due, but
    the handler masks the word with 0x00F, compares V0 with 0 and skips.  The
    sibling OP_3xkk masks with 0x00FF and does see the two as equal. *)
Lemma OP_4xkk_compares_low_nibble :
  wf state_4010 /\
  reg state_4010 (opVx state_4010) = Z.land (opcode state_4010) 0x00FF /\
  pc (OP_4xkk state_4010) = pc state_4010 + 2 /\
  pc (OP_3xkk state_4010) = pc state_4010 + 2.
Proof. vm_compute. repeat split; reflexivity. Qed.

(** What the handler does compare: the register against bits 3-0 of the word. *)
Lemma OP_4xkk_spec (s : Chip8) :
  pc (OP_4xkk s) =
    if reg s (opVx s) =? opcode s mod 16 then pc s else (pc s + 2) mod 65536.
Proof.
  unfold OP_4xkk, u8, u16.
  change 0x00F with (Z.ones 4). rewrite Z.land_ones by lia.
  change (2 ^ 4) with 16.
  rewrite (Z.mod_small (opcode s mod 16) 256)
    by (pose proof (Z.mod_pos_bound (opcode s) 16); lia).
  destruct (reg s (opVx s) =? opcode s mod 16); reflexivity.
Qed.

(** ** Subtract (8xy5) *)




(** ** Call and return (2nnn, 00EE) *)

(** C3, counterexample: a call from the power-on state (sp = 0, pc = 0x200)
    stores the return address at stack[0], the slot sp named before the
    increment; the slot at the incremented pointer, stack[1], is untouched. *)
Lemma OP_2nnn_stores_before_increment :
  exists s' : Chip8,
    OP_2nnn state_2300 = Ok s' /\
    sp state_2300 = 0 /\ sp s' = 1 /\
    stack s' !!! Z.to_nat (sp state_2300) = pc state_2300 /\
    stack s' !!! Z.to_nat (sp s') <> pc state_2300.
Proof.
  eexists. vm_compute. repeat split; (reflexivity || discriminate).
Qed.

(** C3, amended: with room on the stack (sp < 16) the call handler stores the
    return address at stack[sp] and then increments sp, and sets pc to nnn;
    with a non-empty stack (1 <= sp <= 16) the return handler first decrements
    sp and then loads stack[sp] into pc. *)
Theorem call_stores_then_increments_return_decrements_then_loads (s : Chip8) :
  wf s ->
  (sp s < 16 ->
   exists s' : Chip8,
     OP_2nnn s = Ok s' /\
     stack s' = <[Z.to_nat (sp s) := pc s]> (stack s) /\
     sp s' = sp s + 1 /\
     pc s' = opAddress s) /\
  (1 <= sp s <= 16 ->
   exists s' : Chip8,
     OP_00EE s = Ok s' /\
     sp s' = sp s - 1 /\
     pc s' = stack s !!! Z.to_nat (sp s') /\
     stack s' = stack s).
Proof.
  intros Hwf.
  pose proof (wf_inv s Hwf) as (_ & _ & _ & _ & Hlen & _ & _ & _ & _ & _ & _ & Hsp).
  split; intros H.
  - unfold OP_2nnn, write_stack.
    rewrite in_bounds_true by lia. simpl.
    eexists. split; [reflexivity |]. simpl.
    repeat split. unfold u8. apply Z.mod_small. lia.
  - unfold OP_00EE, read. simpl.
    assert (E : u8 (sp s - 1) = sp s - 1) by (unfold u8; apply Z.mod_small; lia).
    rewrite E, in_bounds_true by lia. simpl.
    eexists. split; [reflexivity |]. simpl. repeat split.
Qed.

(** One level deep (sp = 1, stack[0] = 0x345): a call fills stack[1] and
    leaves sp = 2; a return leaves sp = 0 and pc = 0x345. *)
Lemma call_stores_then_increments_return_decrements_then_loads_witness :
  (exists s' : Chip8,
     OP_2nnn state_call_depth_1 = Ok s' /\
     stack s' = <[1%nat := 0x200]> (stack state_call_depth_1) /\
     sp s' = 2 /\ pc s' = 0xABC) /\
  (exists s' : Chip8,
     OP_00EE state_call_depth_1 = Ok s' /\
     sp s' = 0 /\ pc s' = 0x345 /\ stack s' = stack state_call_depth_1).
Proof.
  assert (Hwf : wf state_call_depth_1) by (vm_compute; reflexivity).
  destruct (call_stores_then_increments_return_decrements_then_loads
              state_call_depth_1 Hwf) as [Hcall Hret].
  split.
  - destruct Hcall as (s' & E & Hst & Hsp & Hpc); [vm_compute; reflexivity |].
    exists s'. repeat split; assumption.
  - destruct Hret as (s' & E & Hsp & Hpc & Hst); [vm_compute; split; discriminate |].
    exists s'. repeat split; try assumption.
    rewrite Hpc, Hsp. reflexivity.
Defined.

(** A call followed by a return resumes at the saved address with the stack
    pointer restored. *)
Lemma call_then_return (s : Chip8) :
  wf s -> sp s < 16 ->
  exists s1 s2 : Chip8,
    OP_2nnn s = Ok s1 /\ OP_00EE s1 = Ok s2 /\ pc s2 = pc s /\ sp s2 = sp s.
Proof.
  intros Hwf H.
  pose proof (wf_inv s Hwf) as (_ & _ & _ & _ & Hlen & _ & _ & _ & _ & _ & _ & Hsp).
  unfold OP_2nnn, write_stack. rewrite in_bounds_true by lia. simpl.
  eexists. eexists. split; [reflexivity |].
  unfold OP_00EE, read. simpl.
  assert (E : u8 (u8 (sp s + 1) - 1) = sp s).
  { unfold u8. rewrite (Z.mod_small (sp s + 1)) by lia.
    replace (sp s + 1 - 1) with (sp s) by lia. apply Z.mod_small. lia. }
  rewrite E, in_bounds_true by (rewrite length_insert; lia). simpl.
  split; [reflexivity |]. simpl. split; [| reflexivity].
  apply list_lookup_total_insert_eq. lia.
Qed.

(** ** Block for key (Fx0A) *)

Lemma OP_Fx0A_scan (s : Chip8) :
  OP_Fx0A s =
    match scan_keys s 0 16 with
    | Some k => set_reg s (opVx s) k
    | None => set_pc s (u16 (pc s - 2))
    end.
Proof.
  unfold OP_Fx0A. cbv [scan_keys].
  repeat match goal with
         | |- context [?a + 1] =>
             let v := eval vm_compute in (a + 1) in change (a + 1) with v
         end.
  repeat match goal with
         | |- context [pressed s ?k] => destruct (pressed s k); [reflexivity |]
         end.
  reflexivity.
Qed.

Lemma scan_keys_none (s : Chip8) (n : nat) :
  forall k : Z,
    (forall i, k <= i < k + Z.of_nat n -> pressed s i = false) ->
    scan_keys s k n = None.
Proof.
  induction n as [|n IH]; intros k H; simpl.
  - reflexivity.
  - rewrite (H k) by lia. apply IH. intros i Hi. apply H. lia.
Qed.

Lemma scan_keys_lowest (s : Chip8) (n : nat) :
  forall k j : Z,
    k <= j < k + Z.of_nat n ->
    pressed s j = true ->
    (forall i, k <= i < j -> pressed s i = false) ->
    scan_keys s k n = Some j.
Proof.
  induction n as [|n IH]; intros k j Hj Hp Hlow; simpl.
  - lia.
  - destruct (Z.eq_dec k j) as [->|Hne].
    + now rewrite Hp.
    + rewrite (Hlow k) by lia. apply IH; [lia | assumption |].
      intros i Hi. apply Hlow. lia.
Qed.

Lemma pressed_false (s : Chip8) (k : Z) : key s k = 0 -> pressed s k = false.
Proof. intros H. unfold pressed. now rewrite H. Qed.

Lemma pressed_true (s : Chip8) (k : Z) : key s k <> 0 -> pressed s k = true.
Proof. intros H. unfold pressed. apply negb_true_iff. now apply Z.eqb_neq. Qed.

(** C7: with no key pressed the handler sets pc to pc - 2 (16-bit) and leaves
    every register as it is; since the cycle advanced pc by 2 before the
    handler ran ("we did pc += 2 in Cycle()"), pc is back at the address the
    instruction was fetched from.  With a key pressed, Vx receives the index
    of the lowest pressed key, the other registers keep their values and pc
    is not changed. *)
Theorem OP_Fx0A_rewinds_or_stores_lowest_key (s : Chip8) :
  wf s ->
  ((forall k, 0 <= k < 16 -> key s k = 0) ->
   pc (OP_Fx0A s) = (pc s - 2) mod 65536 /\
   registers (OP_Fx0A s) = registers s /\
   (forall p, 0 <= p < 65536 -> pc s = (p + 2) mod 65536 ->
              pc (OP_Fx0A s) = p)) /\
  (forall k, 0 <= k < 16 -> key s k <> 0 ->
   (forall j, 0 <= j < k -> key s j = 0) ->
   reg (OP_Fx0A s) (opVx s) = k /\
   (forall i, 0 <= i < 16 -> i <> opVx s -> reg (OP_Fx0A s) i = reg s i) /\
   pc (OP_Fx0A s) = pc s).
Proof.
  intros Hwf.
  pose proof (wf_inv s Hwf) as (Hlen & _ & _ & _ & _ & _ & _ & _ & _ & Hpc & _).
  split.
  - intros Hnone.
    assert (Hscan : scan_keys s 0 16 = None).
    { apply scan_keys_none. intros i Hi.
      apply pressed_false, Hnone. lia. }
    rewrite OP_Fx0A_scan, Hscan. simpl.
    split; [reflexivity |]. split; [reflexivity |].
    intros p Hp Hadv. rewrite Hadv. unfold u16.
    rewrite Zminus_mod_idemp_l.
    replace (p + 2 - 2) with p by lia. apply Z.mod_small. lia.
  - intros k Hk Hp Hlow.
    rewrite OP_Fx0A_scan, (scan_keys_lowest s 16 0 k).
    + pose proof (opVx_range s) as Hx.
      split; [apply reg_set_reg_eq; assumption |].
      split; [| reflexivity].
      intros i Hi Hne. apply reg_set_reg_ne; lia.
    + lia.
    + now apply pressed_true.
    + intros i Hi. apply pressed_false. apply Hlow. lia.
Qed.

Ltac nibble_cases k :=
  assert (k = 0 \/ k = 1 \/ k = 2 \/ k = 3 \/ k = 4 \/ k = 5 \/ k = 6 \/ k = 7 \/
          k = 8 \/ k = 9 \/ k = 10 \/ k = 11 \/ k = 12 \/ k = 13 \/ k = 14 \/
          k = 15) as Hcases by lia;
  repeat (destruct Hcases as [-> | Hcases]); [.. | subst k].

(** F50A fetched from 0x200 with no key down ends with pc = 0x200 again;
    with keys 3 and 7 down it stores 3 in V5 and keeps pc = 0x202. *)
Lemma OP_Fx0A_rewinds_or_stores_lowest_key_witness :
  pc (OP_Fx0A state_F50A_idle) = 0x200 /\
  reg (OP_Fx0A state_F50A_keys) 5 = 3 /\
  pc (OP_Fx0A state_F50A_keys) = 0x202.
Proof.
  split.
  - assert (Hwf : wf state_F50A_idle) by (vm_compute; reflexivity).
    destruct (OP_Fx0A_rewinds_or_stores_lowest_key state_F50A_idle Hwf)
      as [Hidle _].
    destruct Hidle as (_ & _ & Hnet).
    + intros k Hk. nibble_cases k; reflexivity.
    + apply Hnet; [lia | reflexivity].
  - assert (Hwf : wf state_F50A_keys) by (vm_compute; reflexivity).
    destruct (OP_Fx0A_rewinds_or_stores_lowest_key state_F50A_keys Hwf)
      as [_ Hkeys].
    destruct (Hkeys 3) as (Hreg & _ & Hpc).
    + lia.
    + vm_compute. discriminate.
    + intros j Hj. assert (j = 0 \/ j = 1 \/ j = 2) as [-> | [-> | ->]] by lia;
        reflexivity.
    + split; [exact Hreg | exact Hpc].
Defined.

(** ** Loops *)

Section ForRange.
Context {St : Type}.
Variable body : Z -> St -> outcome St.
Variable Inv : Z -> St -> Prop.

(** A loop whose body keeps an invariant and never leaves an array runs to
    completion, and the invariant holds at the exit index. *)
Lemma for_range_invariant (n : nat) :
  forall (i : Z) (s : St),
    Inv i s ->
    (forall j t, i <= j < i + Z.of_nat n -> Inv j t ->
                 exists t', body j t = Ok t' /\ Inv (j + 1) t') ->
    exists s', for_range i n body s = Ok s' /\ Inv (i + Z.of_nat n) s'.
Proof.
  induction n as [|n IH]; intros i s Hinv Hstep; simpl for_range.
  - exists s. split; [reflexivity |]. now replace (i + Z.of_nat 0) with i by lia.
  - destruct (Hstep i s ltac:(lia) Hinv) as (t & Ht & Hinv').
    rewrite Ht. simpl.
    destruct (IH (i + 1) t Hinv') as (s' & Hs' & Hfin).
    + intros j t' Hj. apply Hstep. lia.
    + exists s'. split; [assumption |].
      now replace (i + Z.of_nat (S n)) with (i + 1 + Z.of_nat n) by lia.
Qed.
End ForRange.

(** ** BCD store (Fx33) *)

(** C9: when the three bytes at index lie in memory, the handler completes
    and leaves the hundreds digit of Vx at memory[index], the tens digit at
    memory[index+1] and the ones digit at memory[index+2]. *)
Theorem OP_Fx33_stores_decimal_digits (s : Chip8) :
  wf s ->
  index s + 2 < 4096 ->
  let v := reg s (opVx s) in
  exists s' : Chip8,
    OP_Fx33 s = Ok s' /\
    memory s' !!! Z.to_nat (index s) = (v / 100) mod 10 /\
    memory s' !!! Z.to_nat (index s + 1) = (v / 10) mod 10 /\
    memory s' !!! Z.to_nat (index s + 2) = v mod 10.
Proof.
  intros Hwf Hidx v.
  pose proof (reg_range s _ Hwf (opVx_range s)) as Hv. fold v in Hv.
  pose proof (wf_inv s Hwf) as (_ & _ & Hlen & _ & _ & _ & _ & _ & Hi & _).
  assert (H0 : u8 (v mod 10) = v mod 10).
  { unfold u8. apply Z.mod_small. pose proof (Z.mod_pos_bound v 10). lia. }
  assert (H1 : u8 (v / 10) = v / 10).
  { unfold u8. apply Z.mod_small.
    pose proof (Z.div_pos v 10). pose proof (Z.div_le_upper_bound v 10 26). lia. }
  assert (H2 : u8 (v / 10 mod 10) = v / 10 mod 10).
  { unfold u8. apply Z.mod_small. pose proof (Z.mod_pos_bound (v / 10) 10). lia. }
  assert (H3 : u8 (v / 10 / 10) = v / 100).
  { rewrite Z.div_div by lia. change (10 * 10) with 100.
    unfold u8. apply Z.mod_small.
    pose proof (Z.div_pos v 100). pose proof (Z.div_le_upper_bound v 100 3). lia. }
  assert (H4 : u8 (v / 100 mod 10) = v / 100 mod 10).
  { unfold u8. apply Z.mod_small. pose proof (Z.mod_pos_bound (v / 100) 10). lia. }
  unfold OP_Fx33, write_memory. fold v.
  rewrite in_bounds_true by lia. simpl.
  rewrite in_bounds_true by (rewrite length_insert; lia). simpl.
  rewrite in_bounds_true by (rewrite !length_insert; lia).
  eexists. split; [reflexivity |]. simpl.
  rewrite H0, H1, H2, H3, H4.
  split; [| split].
  - apply list_lookup_total_insert_eq. rewrite !length_insert. lia.
  - rewrite list_lookup_total_insert_ne by lia.
    apply list_lookup_total_insert_eq. rewrite !length_insert. lia.
  - rewrite !list_lookup_total_insert_ne by lia.
    apply list_lookup_total_insert_eq. lia.
Qed.

(** The value 255 at index 0x300 gives 2, 5, 5. *)
Lemma OP_Fx33_stores_decimal_digits_witness :
  exists s' : Chip8,
    OP_Fx33 state_F233 = Ok s' /\
    memory s' !!! 0x300%nat = 2 /\
    memory s' !!! 0x301%nat = 5 /\
    memory s' !!! 0x302%nat = 5.
Proof.
  assert (Hwf : wf state_F233) by (vm_compute; reflexivity).
  assert (Hidx : index state_F233 + 2 < 4096) by (vm_compute; reflexivity).
  destruct (OP_Fx33_stores_decimal_digits state_F233 Hwf Hidx)
    as (s' & E & Hh & Ht & Ho).
  exists s'. repeat split; assumption.
Defined.

(** ** Register dump and load (Fx55, Fx65) *)

Lemma OP_Fx55_spec (s : Chip8) :
  wf s ->
  index s + opVx s < 4096 ->
  exists s' : Chip8,
    OP_Fx55 s = Ok s' /\
    index s' = index s /\
    registers s' = registers s /\
    forall k, 0 <= k <= opVx s ->
              memory s' !!! Z.to_nat (index s + k) = reg s k.
Proof.
  intros Hwf Hidx.
  pose proof (opVx_range s) as Hx.
  pose proof (wf_inv s Hwf) as (_ & _ & Hlen & _ & _ & _ & _ & _ & Hi & _).
  unfold OP_Fx55.
  destruct (for_range_invariant
              (fun i s1 => write_memory s1 (index s1 + i) (reg s1 i))
              (fun j t => index t = index s /\ registers t = registers s /\
                          length (memory t) = 4096%nat /\
                          forall k, 0 <= k < j ->
                                    memory t !!! Z.to_nat (index s + k) = reg s k)
              (Z.to_nat (opVx s + 1)) 0 s) as (s' & E & Hidx' & Hregs & _ & Hmem).
  - repeat split; try assumption. intros k Hk. lia.
  - intros j t Hj (Hti & Htr & Htl & Htm).
    unfold write_memory. rewrite Hti, in_bounds_true by lia.
    eexists. split; [reflexivity |]. simpl.
    repeat split; try assumption.
    + rewrite length_insert. assumption.
    + intros k Hk. destruct (Z.eq_dec k j) as [->|Hne].
      * rewrite list_lookup_total_insert_eq by lia.
        unfold reg. now rewrite Htr.
      * rewrite list_lookup_total_insert_ne by lia. apply Htm. lia.
  - exists s'. repeat split; try assumption.
    intros k Hk. apply Hmem. lia.
Qed.

Lemma OP_Fx65_spec (s : Chip8) :
  wf s ->
  index s + opVx s < 4096 ->
  exists s' : Chip8,
    OP_Fx65 s = Ok s' /\
    index s' = index s /\
    memory s' = memory s /\
    forall k, 0 <= k <= opVx s ->
              reg s' k = memory s !!! Z.to_nat (index s + k).
Proof.
  intros Hwf Hidx.
  pose proof (opVx_range s) as Hx.
  pose proof (wf_inv s Hwf) as (Hrl & _ & Hlen & _ & _ & _ & _ & _ & Hi & _).
  unfold OP_Fx65.
  destruct (for_range_invariant
              (fun i s1 => do v <- read Memory (memory s1) (index s1 + i);
                           Ok (set_reg s1 i v))
              (fun j t => index t = index s /\ memory t = memory s /\
                          length (registers t) = 16%nat /\
                          forall k, 0 <= k < j ->
                                    reg t k = memory s !!! Z.to_nat (index s + k))
              (Z.to_nat (opVx s + 1)) 0 s) as (s' & E & Hidx' & Hmem & _ & Hregs).
  - repeat split; try assumption. intros k Hk. lia.
  - intros j t Hj (Hti & Htm & Htl & Htr).
    unfold read. rewrite Hti, Htm, in_bounds_true by lia. simpl.
    eexists. split; [reflexivity |]. simpl.
    repeat split; try assumption.
    + rewrite length_insert. assumption.
    + intros k Hk. destruct (Z.eq_dec k j) as [->|Hne].
      * apply reg_set_reg_eq; [assumption | lia].
      * rewrite reg_set_reg_ne by lia. apply Htr. lia.
  - exists s'. repeat split; try assumption.
    intros k Hk. apply Hregs. lia.
Qed.

(** C10: when the x+1 bytes at index lie in memory, the register dump and the
    register load both complete and leave the index register as it was. *)
Theorem OP_Fx55_Fx65_leave_index_unchanged (s : Chip8) :
  wf s ->
  index s + opVx s < 4096 ->
  (exists s' : Chip8, OP_Fx55 s = Ok s' /\ index s' = index s) /\
  (exists s' : Chip8, OP_Fx65 s = Ok s' /\ index s' = index s).
Proof.
  intros Hwf Hidx. split.
  - destruct (OP_Fx55_spec s Hwf Hidx) as (s' & E & Hi & _). now exists s'.
  - destruct (OP_Fx65_spec s Hwf Hidx) as (s' & E & Hi & _). now exists s'.
Qed.

(** With x = 3 and index 0x400 both handlers end with index 0x400. *)
Lemma OP_Fx55_Fx65_leave_index_unchanged_witness :
  (exists s' : Chip8, OP_Fx55 state_F355 = Ok s' /\ index s' = 0x400) /\
  (exists s' : Chip8, OP_Fx65 state_F355 = Ok s' /\ index s' = 0x400).
Proof.
  apply (OP_Fx55_Fx65_leave_index_unchanged state_F355); vm_compute; reflexivity.
Defined.

(** ** Program load (LoadROM) *)

Lemma set_memory_set_memory s m m' : set_memory (set_memory s m) m' = set_memory s m'.
Proof. reflexivity. Qed.

Lemma set_memory_same s : set_memory s (memory s) = s.
Proof. now destruct s. Qed.

(** C1, at the failing input: given an image of 4096 - 0x200 + 1 bytes,
    LoadROM neither rejects nor truncates it: it has no length check, stores
    every byte that fits and goes on to the store
    [memory[4096] = buffer[3584]], one element past the end of the array,
    where the load is required to fail rather than write past the region. *)
Lemma LoadROM_oversize_not_rejected :
  Z.of_nat (length image_3585) = 4096 - START_ADDRESS + 1 /\
  LoadROM (Some image_3585) Chip8_new = OutOfBounds Memory 4096.
Proof. vm_compute. split; reflexivity. Qed.

(** Within the region the load is right: an image of at most 4096 - 0x200
    bytes (so also of exactly that many) is loaded completely, byte i of the
    image at address 0x200 + i for every i, with no other address and no other
    member changed. *)
Theorem LoadROM_places_image (buffer : list byte) (s : Chip8) :
  wf s ->
  Z.of_nat (length buffer) <= 4096 - START_ADDRESS ->
  exists s' : Chip8,
    LoadROM (Some buffer) s = Ok s' /\
    (forall (i : nat) (b : byte),
        buffer !! i = Some b ->
        memory s' !!! (Z.to_nat START_ADDRESS + i)%nat = byte_value b) /\
    (forall a : nat,
        (a < Z.to_nat START_ADDRESS \/
         Z.to_nat START_ADDRESS + length buffer <= a)%nat ->
        memory s' !!! a = memory s !!! a) /\
    set_memory s' (memory s) = s.
Proof.
  intros Hwf Hlen.
  pose proof (wf_inv s Hwf) as (_ & _ & Hml & _).
  unfold START_ADDRESS in *. unfold LoadROM.
  destruct (for_range_invariant
              (fun i s1 =>
                 write_memory s1 (512 + i)
                              (byte_value (nth (Z.to_nat i) buffer "000"%byte)))
              (fun j t =>
                 length (memory t) = 4096%nat /\
                 set_memory t (memory s) = s /\
                 (forall k : nat,
                     Z.of_nat k < j ->
                     memory t !!! (512 + k)%nat
                     = byte_value (nth k buffer "000"%byte)) /\
                 (forall a : nat,
                     (Z.of_nat a < 512 \/ 512 + j <= Z.of_nat a) ->
                     memory t !!! a = memory s !!! a))
              (length buffer) 0 s) as (s' & E & _ & Hrest & Himg & Hout).
  - split; [assumption |]. split; [apply set_memory_same |].
    split; [intros k Hk; lia | reflexivity].
  - intros j t Hj (Htl & Hts & Hti & Hto).
    unfold write_memory. rewrite in_bounds_true by lia.
    eexists. split; [reflexivity |]. simpl.
    split; [rewrite length_insert; assumption |].
    split; [rewrite set_memory_set_memory; assumption |].
    split.
    + intros k Hk. destruct (Z.eq_dec (Z.of_nat k) j) as [<-|Hne].
      * replace (Z.to_nat (512 + Z.of_nat k)) with (512 + k)%nat by lia.
        rewrite list_lookup_total_insert_eq by lia.
        now rewrite Nat2Z.id.
      * rewrite list_lookup_total_insert_ne by lia. apply Hti. lia.
    + intros a Ha. rewrite list_lookup_total_insert_ne by lia. apply Hto. lia.
  - exists s'. split; [exact E |].
    split; [| split; [| exact Hrest]].
    + intros i b Hb.
      replace (Z.to_nat 512 + i)%nat with (512 + i)%nat by lia.
      rewrite Himg by (apply lookup_lt_Some in Hb; lia).
      now rewrite nth_lookup, Hb.
    + intros a Ha. apply Hout. lia.
Qed.

(** An image of exactly 4096 - 0x200 bytes of 0xFF fills 0x200..0xFFF and
    leaves 0x1FF alone. *)
Lemma LoadROM_places_image_witness :
  Z.of_nat (length image_3584) = 4096 - 0x200 /\
  exists s' : Chip8,
    LoadROM (Some image_3584) Chip8_new = Ok s' /\
    memory s' !!! 0x200%nat = 255 /\
    memory s' !!! 0xFFF%nat = 255 /\
    memory s' !!! 0x1FF%nat = 0.
Proof.
  split; [vm_compute; reflexivity |].
  assert (Hwf : wf Chip8_new) by (vm_compute; reflexivity).
  assert (Hlen : Z.of_nat (length image_3584) <= 4096 - START_ADDRESS)
    by (vm_compute; discriminate).
  destruct (LoadROM_places_image image_3584 Chip8_new Hwf Hlen)
    as (s' & E & Himg & Hout & _).
  exists s'. split; [exact E |].
  split; [| split].
  - apply (Himg 0%nat xff). reflexivity.
  - apply (Himg 3583%nat xff). vm_compute. reflexivity.
  - rewrite (Hout 511%nat) by (left; vm_compute; lia). vm_compute. reflexivity.
Defined.

(** ** Draw sprite (Dxyn) *)

Lemma draw_frame_refl s : draw_frame s s.
Proof. repeat split. Qed.

Lemma draw_frame_trans s1 s2 s3 :
  draw_frame s1 s2 -> draw_frame s2 s3 -> draw_frame s1 s3.
Proof.
  intros (A1 & A2 & A3 & A4 & A5 & A6 & A7) (B1 & B2 & B3 & B4 & B5 & B6 & B7).
  repeat split; try congruence.
  intros i Hi Hne. rewrite B7, A7; auto.
Qed.

Lemma draw_frame_set_flag s v : draw_frame s (set_reg s 0xF v).
Proof.
  repeat split.
  - apply length_set_reg.
  - intros i Hi Hne. apply reg_set_reg_ne; lia.
Qed.

Lemma toggle_all_app (l1 l2 : list Z) :
  forall s, toggle_all (l1 ++ l2) s = (do s1 <- toggle_all l1 s; toggle_all l2 s1).
Proof.
  induction l1 as [|c l1 IH]; intros s; simpl.
  - reflexivity.
  - destruct (toggle c s) as [s1|arr i]; simpl; [apply IH | reflexivity].
Qed.

Lemma draw_pixel_toggle spriteByte xPos yPos row col s :
  draw_pixel spriteByte xPos yPos row col s
  = toggle_all (if sprite_bit spriteByte col
                then [cell_of xPos yPos row col] else []) s.
Proof.
  unfold draw_pixel, sprite_bit, cell_of.
  destruct (u8 (Z.land spriteByte (Z.shiftr 128 col)) =? 0); simpl.
  - reflexivity.
  - unfold toggle. destruct (read Video (video s) _) as [px|arr i]; simpl.
    + destruct (write_video _ _ _); reflexivity.
    + reflexivity.
Qed.

Lemma draw_cols_toggle_all spriteByte xPos yPos row (n : nat) :
  forall col s,
    for_range col n (draw_pixel spriteByte xPos yPos row) s
    = toggle_all (cols_cells spriteByte xPos yPos row col n) s.
Proof.
  induction n as [|n IH]; intros col s; simpl.
  - reflexivity.
  - rewrite toggle_all_app, draw_pixel_toggle.
    destruct (toggle_all _ s) as [s1|arr i]; simpl; [apply IH | reflexivity].
Qed.

Lemma toggle_spec (c : Z) (s : Chip8) :
  0 <= c < Z.of_nat (length (video s)) ->
  length (registers s) = 16%nat ->
  exists s' : Chip8,
    toggle c s = Ok s' /\
    video s' = <[Z.to_nat c := Z.lxor (video s !!! Z.to_nat c) 0xFFFFFFFF]> (video s) /\
    reg s' 0xF = (if video s !!! Z.to_nat c =? 0xFFFFFFFF then 1 else reg s 0xF) /\
    draw_frame s s'.
Proof.
  intros Hc Hlen. unfold toggle, read, write_video.
  rewrite in_bounds_true by assumption. simpl.
  set (px := video s !!! Z.to_nat c).
  destruct (px =? 4294967295).
  - simpl. rewrite in_bounds_true by assumption.
    eexists. split; [reflexivity |]. simpl.
    split; [reflexivity |]. split.
    + apply (reg_set_reg_eq s); [assumption | lia].
    + repeat split; simpl.
      * apply length_insert.
      * apply length_insert.
      * intros i Hi Hne. apply (reg_set_reg_ne s); lia.
  - rewrite in_bounds_true by assumption.
    eexists. split; [reflexivity |]. simpl.
    split; [reflexivity |]. split; [reflexivity |].
    repeat split; simpl. apply length_insert.
Qed.

Lemma existsb_agree (f g : Z -> bool) (l : list Z) :
  (forall c, c ∈ l -> f c = g c) -> existsb f l = existsb g l.
Proof.
  induction l as [|c l IH]; intros H; simpl.
  - reflexivity.
  - rewrite (H c) by apply list_elem_of_here.
    rewrite IH; [reflexivity |].
    intros c' Hc'. apply H. now apply list_elem_of_further.
Qed.

(** Toggling a duplicate-free list of cells inside the buffer: every listed
    cell is inverted once, and V15 becomes 1 exactly when a listed cell was
    fully on beforehand. *)
Lemma toggle_all_spec (cells : list Z) :
  forall s : Chip8,
    NoDup cells ->
    (forall c, c ∈ cells -> 0 <= c < Z.of_nat (length (video s))) ->
    length (registers s) = 16%nat ->
    exists s' : Chip8,
      toggle_all cells s = Ok s' /\
      (forall c, 0 <= c ->
         video s' !!! Z.to_nat c
         = if decide (c ∈ cells)
           then Z.lxor (video s !!! Z.to_nat c) 0xFFFFFFFF
           else video s !!! Z.to_nat c) /\
      reg s' 0xF
      = (if existsb (fun c => video s !!! Z.to_nat c =? 0xFFFFFFFF) cells
         then 1 else reg s 0xF) /\
      draw_frame s s'.
Proof.
  induction cells as [|c0 rest IH]; intros s Hnd Hin Hlen.
  - exists s. split; [reflexivity |]. split.
    + intros c Hc. destruct (decide (c ∈ [])) as [H|H]; [| reflexivity].
      now apply elem_of_nil in H.
    + split; [reflexivity | apply draw_frame_refl].
  - apply NoDup_cons in Hnd as [Hnotin Hnd].
    destruct (toggle_spec c0 s) as (s1 & E1 & Hv1 & Hf1 & Hfr1);
      [apply Hin, list_elem_of_here | assumption |].
    pose proof Hfr1 as (_ & _ & _ & _ & Hrl1 & Hvl1 & _).
    destruct (IH s1 Hnd) as (s' & E' & Hv' & Hf' & Hfr').
    { intros c Hc. rewrite Hvl1. apply Hin. now apply list_elem_of_further. }
    { congruence. }
    exists s'. split; [simpl; rewrite E1; exact E' |].
    split; [| split; [| eapply draw_frame_trans; eassumption]].
    + intros c Hc. rewrite (Hv' c Hc), Hv1.
      pose proof (Hin c0 (list_elem_of_here _ _)) as Hc0.
      destruct (Z.eq_dec c c0) as [->|Hne].
      * rewrite list_lookup_total_insert_eq by lia.
        destruct (decide (c0 ∈ rest)) as [H|_]; [contradiction |].
        destruct (decide (c0 ∈ c0 :: rest)) as [_|H]; [reflexivity |].
        exfalso. apply H, list_elem_of_here.
      * rewrite list_lookup_total_insert_ne by lia.
        destruct (decide (c ∈ rest)) as [H|H];
          destruct (decide (c ∈ c0 :: rest)) as [H0|H0]; try reflexivity.
        -- exfalso. apply H0. now apply list_elem_of_further.
        -- apply elem_of_cons in H0 as [?|?]; [contradiction | contradiction].
    + rewrite Hf', Hf1. simpl.
      rewrite (existsb_agree
                 (fun c => video s1 !!! Z.to_nat c =? 4294967295)
                 (fun c => video s !!! Z.to_nat c =? 4294967295)).
      * destruct (video s !!! Z.to_nat c0 =? 4294967295),
          (existsb (fun c => video s !!! Z.to_nat c =? 4294967295) rest);
          reflexivity.
      * intros c Hc. rewrite Hv1.
        rewrite list_lookup_total_insert_ne; [reflexivity |].
        assert (c <> c0) by (intros ->; contradiction).
        pose proof (Hin c0 (list_elem_of_here _ _)).
        pose proof (Hin c (list_elem_of_further _ _ _ Hc)). lia.
Qed.

Lemma toggle_memory (c : Z) (s s' : Chip8) :
  toggle c s = Ok s' -> memory s' = memory s /\ index s' = index s.
Proof.
  unfold toggle, read, write_video.
  destruct (in_bounds (video s) c); simpl; [| discriminate].
  destruct (_ =? 4294967295); simpl;
    (destruct (in_bounds _ c); [| discriminate]);
    intros [= <-]; split; reflexivity.
Qed.

Lemma toggle_all_memory (cells : list Z) :
  forall s s', toggle_all cells s = Ok s' ->
               memory s' = memory s /\ index s' = index s.
Proof.
  induction cells as [|c rest IH]; intros s s' H; simpl in H.
  - injection H as <-. split; reflexivity.
  - destruct (toggle c s) as [s1|arr i] eqn:E; simpl in H; [| discriminate].
    apply toggle_memory in E as [E1 E2].
    apply IH in H as [H1 H2]. split; congruence.
Qed.

Lemma draw_rows_toggle_all (mem : list Z) (idx xPos yPos : Z) (n : nat) :
  forall (row : Z) (s : Chip8),
    (forall r, row <= r < row + Z.of_nat n -> in_bounds mem (idx + r) = true) ->
    memory s = mem -> index s = idx ->
    for_range row n (draw_row xPos yPos) s
    = toggle_all (rows_cells mem idx xPos yPos row n) s.
Proof.
  induction n as [|n IH]; intros row s Hb Hm Hi; cbn [for_range rows_cells].
  - reflexivity.
  - unfold draw_row at 1, read. rewrite Hm, Hi, Hb by lia. cbn [bind].
    rewrite draw_cols_toggle_all, toggle_all_app.
    destruct (toggle_all _ s) as [s1|arr i] eqn:E; simpl; [| reflexivity].
    apply toggle_all_memory in E as [E1 E2].
    apply IH; [| congruence | congruence].
    intros r Hr. apply Hb. lia.
Qed.

Lemma draw_height_range s : 0 <= draw_height s < 16.
Proof.
  unfold draw_height, u8. change 0x000F with (Z.ones 4).
  rewrite Z.land_ones by lia. change (2 ^ 4) with 16.
  pose proof (Z.mod_pos_bound (opcode s) 16).
  rewrite Z.mod_small; lia.
Qed.

(** With the sprite rows inside memory, the handler clears V15 and then
    toggles the cells of the sprite's on bits in order. *)
Lemma OP_Dxyn_toggle_all (s : Chip8) :
  length (memory s) = 4096%nat ->
  0 <= index s ->
  index s + draw_height s <= 4096 ->
  OP_Dxyn s = toggle_all (sprite_cells s) (set_reg s 0xF 0).
Proof.
  intros Hlen Hi Hidx.
  unfold OP_Dxyn, sprite_cells.
  apply draw_rows_toggle_all; try reflexivity.
  intros r Hr. apply in_bounds_true.
  pose proof (draw_height_range s). fold (draw_height s) in Hr. lia.
Qed.

Lemma cols_cells_bounds spriteByte xPos yPos row (n : nat) :
  forall col c,
    c ∈ cols_cells spriteByte xPos yPos row col n ->
    cell_of xPos yPos row col <= c < cell_of xPos yPos row col + Z.of_nat n.
Proof.
  induction n as [|n IH]; intros col c H; simpl in H.
  - now apply elem_of_nil in H.
  - apply elem_of_app in H as [H|H].
    + destruct (sprite_bit spriteByte col).
      * apply list_elem_of_singleton in H. lia.
      * now apply elem_of_nil in H.
    + apply IH in H. unfold cell_of in *. lia.
Qed.

Lemma cols_cells_NoDup spriteByte xPos yPos row (n : nat) :
  forall col, NoDup (cols_cells spriteByte xPos yPos row col n).
Proof.
  induction n as [|n IH]; intros col; simpl.
  - constructor.
  - apply NoDup_app. split; [| split; [| apply IH]].
    + destruct (sprite_bit spriteByte col); [apply NoDup_singleton | constructor].
    + intros c Hc Hc'. apply cols_cells_bounds in Hc'.
      destruct (sprite_bit spriteByte col).
      * apply list_elem_of_singleton in Hc. unfold cell_of in *. lia.
      * now apply elem_of_nil in Hc.
Qed.

Lemma rows_cells_lower (mem : list Z) (idx xPos yPos : Z) (n : nat) :
  forall row c,
    c ∈ rows_cells mem idx xPos yPos row n -> cell_of xPos yPos row 0 <= c.
Proof.
  induction n as [|n IH]; intros row c H; cbn [rows_cells] in H.
  - now apply elem_of_nil in H.
  - apply elem_of_app in H as [H|H].
    + apply cols_cells_bounds in H. lia.
    + apply IH in H. unfold cell_of, VIDEO_WIDTH in *. lia.
Qed.

Lemma rows_cells_NoDup (mem : list Z) (idx xPos yPos : Z) (n : nat) :
  forall row, NoDup (rows_cells mem idx xPos yPos row n).
Proof.
  induction n as [|n IH]; intros row; cbn [rows_cells].
  - constructor.
  - apply NoDup_app. split; [apply cols_cells_NoDup | split; [| apply IH]].
    intros c Hc Hc'. apply cols_cells_bounds in Hc. apply rows_cells_lower in Hc'.
    unfold cell_of, VIDEO_WIDTH in *. lia.
Qed.

Lemma sprite_cells_nonneg (s : Chip8) (c : Z) : c ∈ sprite_cells s -> 0 <= c.
Proof.
  intros H. apply rows_cells_lower in H.
  unfold cell_of, VIDEO_WIDTH, draw_xPos, draw_yPos, u8 in H.
  pose proof (Z.mod_pos_bound (reg s (opVx s) mod VIDEO_WIDTH) 256).
  pose proof (Z.mod_pos_bound (reg s (opVy s) mod VIDEO_HEIGHT) 256).
  lia.
Qed.

Lemma rows_cells_upper (mem : list Z) (idx xPos yPos : Z) (n : nat) :
  forall row c,
    c ∈ rows_cells mem idx xPos yPos row n ->
    c < cell_of xPos yPos (row + Z.of_nat n - 1) 8.
Proof.
  induction n as [|n IH]; intros row c H; cbn [rows_cells] in H.
  - now apply elem_of_nil in H.
  - apply elem_of_app in H as [H|H].
    + apply cols_cells_bounds in H. unfold cell_of, VIDEO_WIDTH in *. lia.
    + apply IH in H. unfold cell_of, VIDEO_WIDTH in *. lia.
Qed.

Lemma fits_video_bounds (s : Chip8) (c : Z) :
  fits_video s = true -> c ∈ sprite_cells s ->
  0 <= c < Z.of_nat (length (video s)).
Proof.
  unfold fits_video. intros H Hc.
  rewrite forallb_forall in H. apply list_elem_of_In, H in Hc.
  unfold in_bounds in Hc. apply andb_prop in Hc as [? ?]. lia.
Qed.

(** A sprite that lies wholly on the 64x32 screen stays inside the buffer. *)
Lemma on_screen_fits_video (s : Chip8) :
  length (video s) = 2048%nat ->
  draw_xPos s + 8 <= VIDEO_WIDTH ->
  draw_yPos s + draw_height s <= VIDEO_HEIGHT ->
  fits_video s = true.
Proof.
  intros Hlen Hx Hy. unfold fits_video. apply forallb_forall.
  intros c Hc. apply list_elem_of_In in Hc.
  pose proof (sprite_cells_nonneg s c Hc) as Hnn.
  apply rows_cells_upper in Hc.
  pose proof (draw_height_range s).
  apply in_bounds_true. rewrite Hlen.
  unfold cell_of, VIDEO_WIDTH, VIDEO_HEIGHT in *. lia.
Qed.

Lemma existsb_all_false (f : Z -> bool) (l : list Z) :
  (forall c, c ∈ l -> f c = false) -> existsb f l = false.
Proof.
  intros H. rewrite (existsb_agree f (fun _ => false) l H). clear H.
  induction l; [reflexivity | assumption].
Qed.

Lemma existsb_all_true (f : Z -> bool) (l : list Z) :
  (forall c, c ∈ l -> f c = true) ->
  existsb f l = match l with [] => false | _ :: _ => true end.
Proof.
  intros H. destruct l as [|c l]; [reflexivity |].
  simpl. now rewrite (H c) by apply list_elem_of_here.
Qed.

Lemma zeros_lookup (n i : nat) : (i < n)%nat -> zeros n !!! i = 0.
Proof. intros H. unfold zeros. now apply lookup_total_replicate_2. Qed.

(** With the sprite rows inside memory and its cells inside the buffer, the
    handler completes; V15 ends as 1 exactly when some cell it toggles was
    fully on, whatever V15 held before. *)
Lemma OP_Dxyn_spec (s : Chip8) :
  length (registers s) = 16%nat ->
  length (memory s) = 4096%nat ->
  0 <= index s ->
  index s + draw_height s <= 4096 ->
  (forall c, c ∈ sprite_cells s -> c < Z.of_nat (length (video s))) ->
  exists s' : Chip8,
    OP_Dxyn s = Ok s' /\
    (forall c, 0 <= c ->
       video s' !!! Z.to_nat c
       = if decide (c ∈ sprite_cells s)
         then Z.lxor (video s !!! Z.to_nat c) 0xFFFFFFFF
         else video s !!! Z.to_nat c) /\
    reg s' 0xF
    = (if existsb (fun c => video s !!! Z.to_nat c =? 0xFFFFFFFF) (sprite_cells s)
       then 1 else 0) /\
    draw_frame s s'.
Proof.
  intros Hrl Hml Hi Hidx Hfit.
  rewrite OP_Dxyn_toggle_all by assumption.
  destruct (toggle_all_spec (sprite_cells s) (set_reg s 0xF 0))
    as (s' & E & Hv & Hf & Hfr).
  - apply rows_cells_NoDup.
  - intros c Hc. split; [exact (sprite_cells_nonneg s c Hc) | exact (Hfit c Hc)].
  - rewrite length_set_reg. exact Hrl.
  - exists s'. split; [exact E |]. split; [exact Hv |]. split.
    + rewrite Hf. rewrite reg_set_reg_eq by (assumption || lia). reflexivity.
    + eapply draw_frame_trans; [apply draw_frame_set_flag | exact Hfr].
Qed.

(** The cells a draw addresses depend on the instruction word, the index,
    the sprite rows and the two position registers only. *)
Lemma sprite_cells_same (s t : Chip8) :
  draw_frame s t ->
  reg t (opVx s) = reg s (opVx s) ->
  reg t (opVy s) = reg s (opVy s) ->
  sprite_cells t = sprite_cells s /\ draw_height t = draw_height s.
Proof.
  intros (Hm & Hi & Ho & _) Hx Hy.
  unfold sprite_cells, draw_height, draw_xPos, draw_yPos, opVx, opVy in *.
  rewrite Hm, Hi, Ho, Hx, Hy. split; reflexivity.
Qed.

(** C5, counterexample: instruction D012 at the power-on state draws the two
    sprite rows at memory[0..1], both zero.  Drawn twice on the all-off
    display, the display is all-off again, but no cell was toggled, so V15 is
    0 after the second draw, not 1. *)
Lemma OP_Dxyn_twice_blank_sprite_flag_0 :
  video state_D012_blank = zeros 2048 /\
  draw_height state_D012_blank = 2 /\
  exists s1 s2 : Chip8,
    OP_Dxyn state_D012_blank = Ok s1 /\
    OP_Dxyn s1 = Ok s2 /\
    video s2 = zeros 2048 /\
    reg s2 0xF = 0.
Proof.
  split; [reflexivity |]. split; [reflexivity |].
  exists (set_reg state_D012_blank 0xF 0), (set_reg state_D012_blank 0xF 0).
  repeat split; vm_compute; reflexivity.
Qed.

(** C5, amended: on an all-off display, for a sprite whose rows lie in memory
    and whose cells lie in the buffer, the first draw completes with V15 = 0;
    a second draw with the same instruction, index, sprite data and position
    registers completes and leaves the display all-off again, with V15 = 1
    when the sprite has at least one on bit and V15 = 0 when it has none.
    Each draw is: store 0 in V15, then toggle the cells of the on bits in
    order. *)
Theorem OP_Dxyn_twice_restores_clear_display (s : Chip8) :
  wf s ->
  video s = zeros 2048 ->
  index s + draw_height s <= 4096 ->
  fits_video s = true ->
  exists s1 : Chip8,
    OP_Dxyn s = Ok s1 /\
    OP_Dxyn s = toggle_all (sprite_cells s) (set_reg s 0xF 0) /\
    reg s1 0xF = 0 /\
    (reg s1 (opVx s) = reg s (opVx s) ->
     reg s1 (opVy s) = reg s (opVy s) ->
     exists s2 : Chip8,
       OP_Dxyn s1 = Ok s2 /\
       OP_Dxyn s1 = toggle_all (sprite_cells s) (set_reg s1 0xF 0) /\
       video s2 = zeros 2048 /\
       reg s2 0xF = match sprite_cells s with [] => 0 | _ :: _ => 1 end).
Proof.
  intros Hwf Hclear Hidx Hfit.
  pose proof (wf_inv s Hwf) as (Hrl & _ & Hml & _ & _ & _ & _ & Hvl & Hi & _).
  assert (Hb : forall c, c ∈ sprite_cells s -> 0 <= c < 2048).
  { intros c Hc. pose proof (fits_video_bounds s c Hfit Hc). lia. }
  destruct (OP_Dxyn_spec s Hrl Hml ltac:(lia) Hidx) as (s1 & E1 & Hv1 & Hf1 & Hfr1).
  { intros c Hc. apply Hb in Hc. lia. }
  assert (Hon : forall c, c ∈ sprite_cells s ->
                          video s1 !!! Z.to_nat c = 0xFFFFFFFF).
  { intros c Hc. pose proof (Hb c Hc).
    rewrite Hv1 by lia. destruct (decide (c ∈ sprite_cells s)); [| contradiction].
    rewrite Hclear, zeros_lookup by lia. reflexivity. }
  exists s1. split; [exact E1 |].
  split; [apply OP_Dxyn_toggle_all; (assumption || lia) |]. split.
  - rewrite Hf1, existsb_all_false; [reflexivity |].
    intros c Hc. pose proof (Hb c Hc).
    rewrite Hclear, zeros_lookup by lia. reflexivity.
  - intros Hx Hy.
    destruct (sprite_cells_same s s1 Hfr1 Hx Hy) as [Hcells Hh].
    pose proof Hfr1 as (Hm1 & Hi1 & _ & _ & Hrl1 & Hvl1 & _).
    destruct (OP_Dxyn_spec s1) as (s2 & E2 & Hv2 & Hf2 & Hfr2).
    { congruence. }
    { congruence. }
    { rewrite Hi1. lia. }
    { rewrite Hi1, Hh. exact Hidx. }
    { rewrite Hcells, Hvl1. intros c Hc. apply Hb in Hc. lia. }
    exists s2. split; [exact E2 |].
    split; [rewrite <- Hcells; apply OP_Dxyn_toggle_all; [| rewrite Hi1 | rewrite Hi1, Hh];
            (congruence || lia) |].
    split.
    + pose proof Hfr2 as (_ & _ & _ & _ & _ & Hvl2 & _).
      apply (list_eq_same_length _ _ 2048%nat);
        [apply length_replicate | congruence |].
      intros i x y Hlt Hx2 Hy2.
      apply list_lookup_total_correct in Hx2, Hy2.
      rewrite zeros_lookup in Hy2 by assumption. subst x y.
      specialize (Hv2 (Z.of_nat i) ltac:(lia)).
      rewrite Nat2Z.id, Hcells in Hv2. rewrite Hv2.
      destruct (decide (Z.of_nat i ∈ sprite_cells s)) as [Hc|Hc].
      * specialize (Hon _ Hc). rewrite Nat2Z.id in Hon. rewrite Hon. reflexivity.
      * specialize (Hv1 (Z.of_nat i) ltac:(lia)). rewrite Nat2Z.id in Hv1.
        rewrite Hv1. destruct (decide _); [contradiction |].
        rewrite Hclear. now apply zeros_lookup.
    + rewrite Hf2, Hcells, existsb_all_true.
      * destruct (sprite_cells s); reflexivity.
      * intros c Hc. rewrite (Hon c Hc). reflexivity.
Qed.

(** The first glyph drawn twice at (10, 5): the display is all-off again and
    V15 ends as 1. *)
Lemma OP_Dxyn_twice_restores_clear_display_witness :
  exists s1 s2 : Chip8,
    OP_Dxyn state_D015_glyph = Ok s1 /\
    reg s1 0xF = 0 /\
    OP_Dxyn s1 = Ok s2 /\
    video s2 = zeros 2048 /\
    reg s2 0xF = 1.
Proof.
  assert (Hwf : wf state_D015_glyph) by (vm_compute; reflexivity).
  assert (Hclear : video state_D015_glyph = zeros 2048) by reflexivity.
  assert (Hidx : index state_D015_glyph + draw_height state_D015_glyph <= 4096)
    by (vm_compute; discriminate).
  assert (Hfit : fits_video state_D015_glyph = true) by (vm_compute; reflexivity).
  destruct (OP_Dxyn_twice_restores_clear_display
              state_D015_glyph Hwf Hclear Hidx Hfit) as (s1 & E1 & _ & Hf1 & Hsecond).
  assert (Hregs : registers s1 = registers (set_reg state_D015_glyph 0xF 0)).
  { pose proof E1 as E. vm_compute in E. injection E as <-. reflexivity. }
  destruct Hsecond as (s2 & E2 & _ & Hv2 & Hf2).
  - unfold reg. rewrite Hregs. reflexivity.
  - unfold reg. rewrite Hregs. reflexivity.
  - exists s1, s2. repeat split; assumption.
Defined.

(** ** Sprite traversal beyond the screen edges *)

(** C6, at the failing input: the origin (0, 31) is already reduced, the
    sprite has two rows, and the second row addresses cell
    (31 + 1) * 64 + 0 = 2048, the first index past the 2048-cell buffer:
    the row below the screen is neither wrapped nor clipped.  A bit right of
    column 63 is treated differently again: it lands in column 0 of the next
    row (cell 64), not in its own row (cell 0) and not nowhere. *)
Lemma OP_Dxyn_leaves_buffer_below_bottom_row :
  wf state_D012_bottom /\
  draw_xPos state_D012_bottom = 0 /\
  draw_yPos state_D012_bottom = 31 /\
  draw_height state_D012_bottom = 2 /\
  OP_Dxyn state_D012_bottom = OutOfBounds Video 2048 /\
  exists s' : Chip8,
    OP_Dxyn state_D011_right = Ok s' /\
    video s' !!! 63%nat = 0xFFFFFFFF /\
    video s' !!! 64%nat = 0xFFFFFFFF /\
    video s' !!! 0%nat = 0.
Proof.
  repeat (split; [vm_compute; reflexivity |]).
  eexists. vm_compute. repeat split; reflexivity.
Qed.

(** The origin is reduced modulo the screen size, and a sprite that lies
    wholly on the screen is drawn without leaving the buffer. *)
Lemma OP_Dxyn_on_screen (s : Chip8) :
  wf s ->
  index s + draw_height s <= 4096 ->
  draw_xPos s = reg s (opVx s) mod 64 /\
  draw_yPos s = reg s (opVy s) mod 32 /\
  (draw_xPos s + 8 <= 64 ->
   draw_yPos s + draw_height s <= 32 ->
   exists s' : Chip8, OP_Dxyn s = Ok s' /\ draw_frame s s').
Proof.
  intros Hwf Hidx.
  pose proof (wf_inv s Hwf) as (Hrl & _ & Hml & _ & _ & _ & _ & Hvl & Hi & _).
  assert (Hmod : forall r m, 0 < m <= 256 -> u8 (r mod m) = r mod m).
  { intros r m Hm. unfold u8. apply Z.mod_small.
    pose proof (Z.mod_pos_bound r m). lia. }
  split; [apply Hmod; unfold VIDEO_WIDTH; lia |].
  split; [apply Hmod; unfold VIDEO_HEIGHT; lia |].
  intros Hx Hy.
  pose proof (on_screen_fits_video s Hvl Hx Hy) as Hfit.
  destruct (OP_Dxyn_spec s Hrl Hml ltac:(lia) Hidx) as (s' & E & _ & _ & Hfr).
  - intros c Hc. apply (fits_video_bounds s c Hfit Hc).
  - exists s'. split; assumption.
Qed.

(** * Further properties of the handlers *)

(** ** Well-formedness is kept by every store of an in-range value *)

Lemma all_below_insert bound (l : list Z) (i : nat) (v : Z) :
  all_below bound l = true -> 0 <= v < bound ->
  all_below bound (<[i := v]> l) = true.
Proof.
  unfold all_below. revert i. induction l as [|w l IH]; intros i H Hv; simpl in *.
  - reflexivity.
  - apply andb_prop in H as [Hw Hl]. destruct i as [|i]; simpl.
    + rewrite Hl. replace ((0 <=? v) && (v <? bound)) with true; [reflexivity |].
      symmetry. apply andb_true_intro. split; lia.
    + rewrite Hw. simpl. now apply IH.
Qed.

Lemma all_below_replicate bound (n : nat) (v : Z) :
  0 <= v < bound -> all_below bound (replicate n v) = true.
Proof.
  intros Hv. unfold all_below. induction n as [|n IH]; simpl.
  - reflexivity.
  - rewrite IH. replace ((0 <=? v) && (v <? bound)) with true; [reflexivity |].
    symmetry. apply andb_true_intro. split; lia.
Qed.

Lemma all_below3 bound (x y z : Z) :
  all_below bound [x; y; z] = true <->
  0 <= x < bound /\ 0 <= y < bound /\ 0 <= z < bound.
Proof.
  unfold all_below. simpl.
  rewrite !andb_true_iff, !Z.leb_le, !Z.ltb_lt. tauto.
Qed.

(** The well-formedness test, spelt out. *)
Lemma wf_iff s :
  wf s <->
  (length (registers s) = 16%nat /\ all_below 256 (registers s) = true) /\
  (length (memory s) = 4096%nat /\ all_below 256 (memory s) = true) /\
  (length (stack s) = 16%nat /\ all_below 65536 (stack s) = true) /\
  (length (keypad s) = 16%nat /\ all_below 256 (keypad s) = true) /\
  (length (video s) = 2048%nat /\ all_below 4294967296 (video s) = true) /\
  (0 <= index s < 65536 /\ 0 <= pc s < 65536 /\ 0 <= opcode s < 65536) /\
  (0 <= sp s < 256 /\ 0 <= delayTimer s < 256 /\ 0 <= soundTimer s < 256).
Proof.
  unfold wf, wfb. split.
  - intros H. repeat (apply andb_prop in H as [H ?]).
    repeat match goal with
           | E : (_ =? _)%nat = true |- _ => apply Nat.eqb_eq in E
           | E : all_below _ [_; _; _] = true |- _ => apply all_below3 in E
           end.
    repeat split; (assumption || tauto).
  - intros ((? & ?) & (? & ?) & (? & ?) & (? & ?) & (? & ?) & Hw & Hb).
    apply all_below3 in Hw, Hb.
    repeat first [ assumption
                 | apply Nat.eqb_eq; assumption
                 | apply andb_true_intro; split ].
Qed.

Ltac wf_fields H :=
  apply wf_iff in H; apply wf_iff;
  cbn [registers memory index pc stack sp delayTimer soundTimer keypad video
       opcode set_registers set_memory set_index set_pc set_stack set_sp
       set_video set_keypad set_opcode set_delayTimer set_soundTimer set_reg];
  destruct H as ((? & ?) & (? & ?) & (? & ?) & (? & ?) & (? & ?)
                 & (? & ? & ?) & (? & ? & ?));
  repeat split; try assumption; try lia.

Lemma wf_set_reg s i v : wf s -> 0 <= v < 256 -> wf (set_reg s i v).
Proof.
  intros H Hv. wf_fields H.
  - now rewrite length_insert.
  - now apply all_below_insert.
Qed.

Lemma wf_set_pc s p : wf s -> 0 <= p < 65536 -> wf (set_pc s p).
Proof. intros H Hp. wf_fields H. Qed.

Lemma wf_set_index s i : wf s -> 0 <= i < 65536 -> wf (set_index s i).
Proof. intros H Hp. wf_fields H. Qed.

Lemma wf_set_sp s p : wf s -> 0 <= p < 256 -> wf (set_sp s p).
Proof. intros H Hp. wf_fields H. Qed.

Lemma wf_set_delayTimer s v : wf s -> 0 <= v < 256 -> wf (set_delayTimer s v).
Proof. intros H Hp. wf_fields H. Qed.

Lemma wf_set_soundTimer s v : wf s -> 0 <= v < 256 -> wf (set_soundTimer s v).
Proof. intros H Hp. wf_fields H. Qed.

Lemma wf_set_opcode s o : wf s -> 0 <= o < 65536 -> wf (set_opcode s o).
Proof. intros H Hp. wf_fields H. Qed.

Lemma wf_write_memory s i v s' :
  wf s -> 0 <= v < 256 -> write_memory s i v = Ok s' -> wf s'.
Proof.
  intros H Hv E. unfold write_memory in E.
  destruct (in_bounds (memory s) i); [| discriminate]. injection E as <-.
  wf_fields H.
  - now rewrite length_insert.
  - now apply all_below_insert.
Qed.

Lemma wf_write_stack s i v s' :
  wf s -> 0 <= v < 65536 -> write_stack s i v = Ok s' -> wf s'.
Proof.
  intros H Hv E. unfold write_stack in E.
  destruct (in_bounds (stack s) i); [| discriminate]. injection E as <-.
  wf_fields H.
  - now rewrite length_insert.
  - now apply all_below_insert.
Qed.

Lemma wf_write_video s i v s' :
  wf s -> 0 <= v < 4294967296 -> write_video s i v = Ok s' -> wf s'.
Proof.
  intros H Hv E. unfold write_video in E.
  destruct (in_bounds (video s) i); [| discriminate]. injection E as <-.
  wf_fields H.
  - now rewrite length_insert.
  - now apply all_below_insert.
Qed.

Lemma read_range bound arr (l : list Z) (i v : Z) :
  all_below bound l = true -> read arr l i = Ok v -> 0 <= v < bound.
Proof.
  intros Hl E. unfold read in E.
  destruct (in_bounds l i) eqn:B; [| discriminate]. injection E as <-.
  unfold in_bounds in B. apply andb_prop in B as [? ?].
  apply all_below_lookup; [assumption | lia].
Qed.

Lemma u8_range z : 0 <= u8 z < 256.
Proof. unfold u8. apply Z.mod_pos_bound. lia. Qed.

Lemma u16_range z : 0 <= u16 z < 65536.
Proof. unfold u16. apply Z.mod_pos_bound. lia. Qed.

Lemma u8_small z : 0 <= z < 256 -> u8 z = z.
Proof. intros H. unfold u8. now apply Z.mod_small. Qed.

Lemma u16_small z : 0 <= z < 65536 -> u16 z = z.
Proof. intros H. unfold u16. now apply Z.mod_small. Qed.

(** ** Bitwise results stay within the operand width *)

Lemma below_pow2_shiftr (a n : Z) :
  0 <= n -> 0 <= a -> (a < 2 ^ n <-> Z.shiftr a n = 0).
Proof.
  intros Hn Ha. rewrite Z.shiftr_div_pow2 by assumption.
  assert (0 < 2 ^ n) by (apply Z.pow_pos_nonneg; lia).
  rewrite Z.div_small_iff by lia. lia.
Qed.

Lemma lor_range (a b n : Z) :
  0 <= n -> 0 <= a < 2 ^ n -> 0 <= b < 2 ^ n -> 0 <= Z.lor a b < 2 ^ n.
Proof.
  intros Hn [Ha Ha'] [Hb Hb'].
  assert (H0 : 0 <= Z.lor a b) by (apply Z.lor_nonneg; split; assumption).
  split; [assumption |].
  apply below_pow2_shiftr; try assumption.
  apply below_pow2_shiftr in Ha', Hb'; try assumption.
  now rewrite Z.shiftr_lor, Ha', Hb'.
Qed.

Lemma land_range (a b n : Z) :
  0 <= n -> 0 <= a < 2 ^ n -> 0 <= b -> 0 <= Z.land a b < 2 ^ n.
Proof.
  intros Hn [Ha Ha'] Hb.
  assert (H0 : 0 <= Z.land a b) by (apply Z.land_nonneg; now left).
  split; [assumption |].
  apply below_pow2_shiftr; try assumption.
  apply below_pow2_shiftr in Ha'; try assumption.
  now rewrite Z.shiftr_land, Ha', Z.land_0_l.
Qed.

Lemma lxor_range (a b n : Z) :
  0 <= n -> 0 <= a < 2 ^ n -> 0 <= b < 2 ^ n -> 0 <= Z.lxor a b < 2 ^ n.
Proof.
  intros Hn [Ha Ha'] [Hb Hb'].
  assert (H0 : 0 <= Z.lxor a b) by (apply Z.lxor_nonneg; tauto).
  split; [assumption |].
  apply below_pow2_shiftr; try assumption.
  apply below_pow2_shiftr in Ha', Hb'; try assumption.
  now rewrite Z.shiftr_lxor, Ha', Hb'.
Qed.

Lemma land_le_r (a b : Z) : 0 <= a -> 0 <= b -> Z.land a b <= b.
Proof.
  intros Ha Hb.
  assert (H : Z.ldiff (Z.land a b) b = 0).
  { apply Z.bits_inj'. intros n Hn.
    rewrite Z.ldiff_spec, Z.land_spec, Z.bits_0.
    destruct (Z.testbit a n), (Z.testbit b n); reflexivity. }
  apply Z.sub_nocarry_ldiff in H.
  assert (0 <= Z.ldiff b (Z.land a b)) by (apply Z.ldiff_nonneg; now left).
  lia.
Qed.

(** ** Stores to the register file *)

Lemma set_reg_set_reg s i v w : set_reg (set_reg s i v) i w = set_reg s i w.
Proof. unfold set_reg. simpl. now rewrite list_insert_insert_eq. Qed.

Lemma set_reg_same s i :
  (Z.to_nat i < length (registers s))%nat -> set_reg s i (reg s i) = s.
Proof.
  intros H. unfold set_reg, reg.
  rewrite list_insert_id by (now apply list_lookup_lookup_total_lt).
  now destruct s.
Qed.

Lemma opcode_set_reg s i v : opcode (set_reg s i v) = opcode s.
Proof. reflexivity. Qed.

Lemma opVx_set_reg s i v : opVx (set_reg s i v) = opVx s.
Proof. reflexivity. Qed.

Lemma opVy_set_reg s i v : opVy (set_reg s i v) = opVy s.
Proof. reflexivity. Qed.

(** ** OR, AND, XOR (8xy1, 8xy2, 8xy3) *)

Lemma reg_set_reg s i j v :
  length (registers s) = 16%nat -> 0 <= i < 16 -> 0 <= j ->
  reg (set_reg s i v) j = if Z.eq_dec i j then v else reg s j.
Proof.
  intros Hlen Hi Hj. destruct (Z.eq_dec i j) as [<-|Hne].
  - now apply reg_set_reg_eq.
  - apply reg_set_reg_ne; lia.
Qed.

(** X1: the three bitwise handlers store the exact bitwise result (it needs
    no truncation); OR and AND are idempotent, XOR applied twice with two
    different registers gives the state back, and XOR of a register with
    itself clears it.  No register other than Vx changes, V15 included. *)
Theorem bitwise_handlers_idempotent_involutive (s : Chip8) :
  wf s ->
  let x := opVx s in
  let a := reg s x in
  let b := reg s (opVy s) in
  (OP_8xy1 s = set_reg s x (Z.lor a b) /\
   OP_8xy2 s = set_reg s x (Z.land a b) /\
   OP_8xy3 s = set_reg s x (Z.lxor a b)) /\
  OP_8xy1 (OP_8xy1 s) = OP_8xy1 s /\
  OP_8xy2 (OP_8xy2 s) = OP_8xy2 s /\
  (x <> opVy s -> OP_8xy3 (OP_8xy3 s) = s) /\
  (x = opVy s -> reg (OP_8xy3 s) x = 0).
Proof.
  intros Hwf x a b.
  pose proof (opVx_range s) as Hx. pose proof (opVy_range s) as Hy.
  pose proof (reg_range s _ Hwf Hx) as Ha. pose proof (reg_range s _ Hwf Hy) as Hb.
  pose proof (wf_inv s Hwf) as (Hlen & _).
  fold x in Hx, Ha. fold a in Ha. fold b in Hb.
  assert (E1 : OP_8xy1 s = set_reg s x (Z.lor a b)).
  { unfold OP_8xy1. fold x a b. rewrite u8_small; [reflexivity |].
    apply (lor_range a b 8); lia. }
  assert (E2 : OP_8xy2 s = set_reg s x (Z.land a b)).
  { unfold OP_8xy2. fold x a b. rewrite u8_small; [reflexivity |].
    apply (land_range a b 8); lia. }
  assert (E3 : OP_8xy3 s = set_reg s x (Z.lxor a b)).
  { unfold OP_8xy3. fold x a b. rewrite u8_small; [reflexivity |].
    apply (lxor_range a b 8); lia. }
  split; [auto |].
  assert (Hy' : forall v, reg (set_reg s x v) (opVy s)
                          = if Z.eq_dec x (opVy s) then v else b).
  { intros v. apply reg_set_reg; (assumption || lia). }
  assert (Hx' : forall v, reg (set_reg s x v) x = v).
  { intros v. now apply reg_set_reg_eq. }
  split; [| split; [| split]].
  - rewrite E1. unfold OP_8xy1 at 1.
    rewrite opVx_set_reg, opVy_set_reg. fold x. rewrite Hx', Hy'.
    rewrite set_reg_set_reg. f_equal.
    destruct (Z.eq_dec x (opVy s)).
    + rewrite Z.lor_diag. apply u8_small. apply (lor_range a b 8); lia.
    + rewrite <- Z.lor_assoc, Z.lor_diag. apply u8_small.
      apply (lor_range a b 8); lia.
  - rewrite E2. unfold OP_8xy2 at 1.
    rewrite opVx_set_reg, opVy_set_reg. fold x. rewrite Hx', Hy'.
    rewrite set_reg_set_reg. f_equal.
    destruct (Z.eq_dec x (opVy s)).
    + rewrite Z.land_diag. apply u8_small. apply (land_range a b 8); lia.
    + rewrite <- Z.land_assoc, Z.land_diag. apply u8_small.
      apply (land_range a b 8); lia.
  - intros Hne. rewrite E3. unfold OP_8xy3 at 1.
    rewrite opVx_set_reg, opVy_set_reg. fold x. rewrite Hx', Hy'.
    destruct (Z.eq_dec x (opVy s)); [contradiction |].
    rewrite set_reg_set_reg.
    rewrite Z.lxor_assoc, Z.lxor_nilpotent, Z.lxor_0_r, u8_small by lia.
    apply set_reg_same. lia.
  - intros Heq. rewrite E3, Hx'. unfold b. rewrite <- Heq. fold a.
    apply Z.lxor_nilpotent.
Qed.

(** 8123 twice on (V1, V2) = (0x5A, 0x3C) gives the state back; 8121 twice is
    8121 once. *)
Lemma bitwise_handlers_idempotent_involutive_witness :
  OP_8xy3 (OP_8xy3 state_8123) = state_8123 /\
  OP_8xy1 (OP_8xy1 state_8123) = OP_8xy1 state_8123.
Proof.
  assert (Hwf : wf state_8123) by (vm_compute; reflexivity).
  destruct (bitwise_handlers_idempotent_involutive state_8123 Hwf)
    as (_ & Hor & _ & Hxor & _).
  split; [apply Hxor; vm_compute; discriminate | exact Hor].
Defined.

(** ** Shifts (8xy6, 8xyE) *)

(** X2: both shifts act on Vx alone (Vy is not read).  With x other than 0xF
    no bit is lost: after a right shift 2 * Vx + V15 is the old Vx, after a
    left shift Vx + 256 * V15 is twice the old Vx, and V15 is 0 or 1.  With
    x = 0xF the shifted value overwrites the saved bit. *)
Theorem shifts_keep_the_shifted_out_bit (s : Chip8) :
  wf s ->
  let x := opVx s in
  let a := reg s x in
  (x <> 0xF ->
   reg (OP_8xy6 s) x = a / 2 /\ reg (OP_8xy6 s) 0xF = a mod 2 /\
   2 * reg (OP_8xy6 s) x + reg (OP_8xy6 s) 0xF = a) /\
  (x <> 0xF ->
   reg (OP_8xyE s) x = (2 * a) mod 256 /\ reg (OP_8xyE s) 0xF = a / 128 /\
   reg (OP_8xyE s) x + 256 * reg (OP_8xyE s) 0xF = 2 * a) /\
  (x = 0xF ->
   reg (OP_8xy6 s) 0xF = 0 /\ reg (OP_8xyE s) 0xF = 2 * (a / 128)).
Proof.
  intros Hwf x a.
  pose proof (opVx_range s) as Hx.
  pose proof (reg_range s _ Hwf Hx) as Ha.
  pose proof (wf_inv s Hwf) as (Hlen & _).
  fold x in Hx, Ha. fold a in Ha.
  assert (Hlsb : u8 (Z.land a 1) = a mod 2).
  { change 1 with (Z.ones 1). rewrite Z.land_ones by lia.
    change (2 ^ 1) with 2. apply u8_small.
    pose proof (Z.mod_pos_bound a 2). lia. }
  assert (Hmsb : u8 (Z.shiftr (Z.land a 128) 7) = a / 128).
  { rewrite Z.shiftr_land. change (Z.shiftr 128 7) with (Z.ones 1).
    rewrite Z.land_ones, Z.shiftr_div_pow2 by lia.
    change (2 ^ 1) with 2. change (2 ^ 7) with 128.
    assert (0 <= a / 128 < 2)
      by (split; [apply Z.div_pos | apply Z.div_lt_upper_bound]; lia).
    rewrite Z.mod_small by lia. apply u8_small. lia. }
  assert (Hshr : forall v, 0 <= v < 256 -> u8 (Z.shiftr v 1) = v / 2).
  { intros v Hv. rewrite Z.shiftr_div_pow2 by lia. change (2 ^ 1) with 2.
    apply u8_small.
    split; [apply Z.div_pos | apply Z.div_lt_upper_bound]; lia. }
  assert (Hshl : forall v, u8 (Z.shiftl v 1) = (2 * v) mod 256).
  { intros v. rewrite Z.shiftl_mul_pow2 by lia. change (2 ^ 1) with 2.
    unfold u8. f_equal. lia. }
  unfold OP_8xy6, OP_8xyE. fold x a. rewrite Hlsb, Hmsb.
  split; [| split].
  - intros Hne.
    rewrite (reg_set_reg_ne s 15 x) by lia. fold a.
    rewrite Hshr by lia.
    rewrite reg_set_reg_eq by (rewrite ?length_set_reg; assumption).
    rewrite reg_set_reg_ne by lia.
    rewrite reg_set_reg_eq by (assumption || lia).
    split; [reflexivity |]. split; [reflexivity |].
    pose proof (Z.div_mod a 2). lia.
  - intros Hne.
    rewrite (reg_set_reg_ne s 15 x) by lia. fold a.
    rewrite Hshl.
    rewrite reg_set_reg_eq by (rewrite ?length_set_reg; assumption).
    rewrite reg_set_reg_ne by lia.
    rewrite reg_set_reg_eq by (assumption || lia).
    split; [reflexivity |]. split; [reflexivity |].
    Z.div_mod_to_equations. lia.
  - intros Heq. rewrite Heq.
    rewrite !(reg_set_reg_eq s 15) by (assumption || lia).
    rewrite !reg_set_reg_eq by (rewrite ?length_set_reg; (assumption || lia)).
    rewrite Hshl. rewrite Hshr by (pose proof (Z.mod_pos_bound a 2); lia).
    split.
    + apply Z.div_small. pose proof (Z.mod_pos_bound a 2). lia.
    + apply Z.mod_small.
      assert (0 <= a / 128 < 2)
        by (split; [apply Z.div_pos | apply Z.div_lt_upper_bound]; lia).
      lia.
Qed.

(** 8106 with V1 = 51 leaves V1 = 25 and V15 = 1; 8F06 with VF = 255 leaves
    VF = 0, the shifted saved bit. *)
Lemma shifts_keep_the_shifted_out_bit_witness :
  (reg (OP_8xy6 state_8106) 1 = 25 /\
   reg (OP_8xy6 state_8106) 0xF = 1) /\
  reg (OP_8xy6 state_8F06) 0xF = 0.
Proof.
  assert (Hwf : wf state_8106) by (vm_compute; reflexivity).
  assert (Hwf' : wf state_8F06) by (vm_compute; reflexivity).
  destruct (shifts_keep_the_shifted_out_bit state_8106 Hwf)
    as (Hr & _ & _).
  destruct (shifts_keep_the_shifted_out_bit state_8F06 Hwf') as (_ & _ & Hf).
  split.
  - destruct Hr as (H1 & H2 & _); [vm_compute; discriminate |].
    split; [exact H1 | exact H2].
  - apply Hf. reflexivity.
Defined.

(** ** Subtract reversed (8xy7) *)

(** X3: with neither x nor y equal to 0xF, Vx becomes (b - a) mod 256 and
    V15 becomes 1 exactly when b > a.  The flag tells whether the difference
    was representable whenever the operands differ; for equal operands the
    result is 0 with V15 = 0. *)
Theorem OP_8xy7_reverse_difference (s : Chip8) :
  wf s -> opVx s <> 0xF -> opVy s <> 0xF ->
  let a := reg s (opVx s) in
  let b := reg s (opVy s) in
  let r := reg (OP_8xy7 s) (opVx s) in
  let f := reg (OP_8xy7 s) 0xF in
  r = (b - a) mod 256 /\
  (f = 1 <-> b > a) /\ (f = 0 <-> b <= a) /\
  (a <> b -> b - a = r - 256 * (1 - f)) /\
  (a = b -> r = 0 /\ f = 0).
Proof.
  intros Hwf Hx Hy a b r f.
  pose proof (opVx_range s) as Rx. pose proof (opVy_range s) as Ry.
  pose proof (reg_range s _ Hwf Rx) as Ha. pose proof (reg_range s _ Hwf Ry) as Hb.
  pose proof (wf_inv s Hwf) as (Hlen & _).
  fold a in Ha. fold b in Hb.
  assert (Hr : r = (b - a) mod 256).
  { unfold r, OP_8xy7. fold a b.
    destruct (a <? b);
      rewrite reg_set_reg_eq by (rewrite ?length_set_reg; assumption);
      rewrite !reg_set_reg_ne by lia; reflexivity. }
  assert (Hf : f = if a <? b then 1 else 0).
  { unfold f, OP_8xy7. fold a b.
    destruct (a <? b); rewrite reg_set_reg_ne by lia;
      apply reg_set_reg_eq; (assumption || lia). }
  rewrite Hr, Hf.
  destruct (a <? b) eqn:E; [apply Z.ltb_lt in E | apply Z.ltb_ge in E].
  - split; [reflexivity |]. split; [split; intros; (lia || reflexivity) |].
    split; [split; intros; (lia || discriminate) |].
    split; [intros _; rewrite Z.mod_small by lia; lia | intros; lia].
  - split; [reflexivity |]. split; [split; intros; (lia || discriminate) |].
    split; [split; intros; (lia || reflexivity) |].
    split.
    + intros Hne.
      replace (b - a) with ((b - a + 256) + (-1) * 256) by lia.
      rewrite Z.mod_add, Z.mod_small by lia. lia.
    + intros Heq. rewrite Heq, Z.sub_diag. split; reflexivity.
Qed.

(** 8017 with (V0, V1) = (50, 100): V0 = 50 and V15 = 1. *)
Lemma OP_8xy7_reverse_difference_witness :
  reg (OP_8xy7 state_8017) 0 = 50 /\ reg (OP_8xy7 state_8017) 0xF = 1.
Proof.
  destruct (OP_8xy7_reverse_difference state_8017) as (Hr & Hf & _);
    try (vm_compute; (reflexivity || discriminate)).
  split; [exact Hr | apply Hf; reflexivity].
Defined.

(** ** Add immediate (7xkk) *)

Lemma opByte_range s : 0 <= opByte s < 256.
Proof. apply u8_range. Qed.

(** X4: 7xkk adds modulo 256 and produces no carry: Vx becomes
    (a + kk) mod 256, every other register, V15 included, keeps its value
    even when a + kk exceeds 255, and a following 7xkk on the same register
    with the complementary byte (256 - kk) mod 256 gives the old Vx back. *)
Theorem OP_7xkk_wraps_without_flag (s : Chip8) :
  wf s ->
  let x := opVx s in
  let a := reg s x in
  reg (OP_7xkk s) x = (a + opByte s) mod 256 /\
  (forall i, 0 <= i < 16 -> i <> x -> reg (OP_7xkk s) i = reg s i) /\
  (forall w, opVx (set_opcode s w) = x ->
             opByte (set_opcode s w) = (256 - opByte s) mod 256 ->
             reg (OP_7xkk (set_opcode (OP_7xkk s) w)) x = a).
Proof.
  intros Hwf x a.
  pose proof (opVx_range s) as Hx.
  pose proof (reg_range s _ Hwf Hx) as Ha.
  pose proof (opByte_range s) as Hk.
  pose proof (wf_inv s Hwf) as (Hlen & _).
  fold x in Hx, Ha. fold a in Ha.
  assert (E : reg (OP_7xkk s) x = (a + opByte s) mod 256)
    by (unfold OP_7xkk; fold x a; now apply reg_set_reg_eq).
  split; [exact E |]. split.
  - intros i Hi Hne. unfold OP_7xkk. fold x. apply reg_set_reg_ne; lia.
  - intros w Hwx Hwk.
    unfold OP_7xkk at 1.
    change (opVx (set_opcode (OP_7xkk s) w)) with (opVx (set_opcode s w)).
    change (opByte (set_opcode (OP_7xkk s) w)) with (opByte (set_opcode s w)).
    rewrite Hwx, Hwk.
    change (reg (set_opcode (OP_7xkk s) w) x) with (reg (OP_7xkk s) x).
    rewrite E.
    rewrite reg_set_reg_eq; [| | assumption].
    + unfold u8. rewrite <- Z.add_mod by lia.
      replace (a + opByte s + (256 - opByte s)) with (a + 1 * 256) by lia.
      rewrite Z.mod_add by lia. apply Z.mod_small. lia.
    + change (length (registers (OP_7xkk s)) = 16%nat).
      unfold OP_7xkk. now rewrite length_set_reg.
Qed.

(** 70C8 with V0 = 100: V0 = 44 and V15 still 0; 7038 then gives 100 back. *)
Lemma OP_7xkk_wraps_without_flag_witness :
  reg (OP_7xkk state_70C8) 0 = 44 /\
  reg (OP_7xkk state_70C8) 0xF = 0 /\
  reg (OP_7xkk (set_opcode (OP_7xkk state_70C8) 0x7038)) 0 = 100.
Proof.
  assert (Hwf : wf state_70C8) by (vm_compute; reflexivity).
  destruct (OP_7xkk_wraps_without_flag state_70C8 Hwf) as (Hr & Hfr & Hback).
  split; [exact Hr |]. split.
  - rewrite Hfr; [reflexivity | lia | vm_compute; discriminate].
  - apply Hback; reflexivity.
Defined.

(** ** Load or move, then compare (6xkk, 8xy0, 3xkk, 5xy0, 9xy0) *)

(** X5: after 6xkk the register holds the whole immediate byte, so the
    skip-if-equal test 3xkk on the same x and kk always skips; after the move
    8xy0 the two registers are equal, so 5xy0 on the same x and y always
    skips and 9xy0 never does. *)
Theorem load_or_move_then_compare (s : Chip8) :
  wf s ->
  pc (OP_3xkk (OP_6xkk s)) = (pc s + 2) mod 65536 /\
  pc (OP_5xy0 (OP_8xy0 s)) = (pc s + 2) mod 65536 /\
  pc (OP_9xy0 (OP_8xy0 s)) = pc s.
Proof.
  intros Hwf.
  pose proof (opVx_range s) as Hx. pose proof (opVy_range s) as Hy.
  pose proof (wf_inv s Hwf) as (Hlen & _).
  split; [| split].
  - unfold OP_3xkk, OP_6xkk. rewrite opVx_set_reg, opcode_set_reg.
    rewrite reg_set_reg_eq by assumption.
    unfold opByte. rewrite Z.eqb_refl. reflexivity.
  - unfold OP_5xy0, OP_8xy0. rewrite opVx_set_reg, opVy_set_reg.
    rewrite reg_set_reg_eq by assumption.
    rewrite reg_set_reg by (assumption || lia).
    destruct (Z.eq_dec (opVx s) (opVy s)); rewrite Z.eqb_refl; reflexivity.
  - unfold OP_9xy0, OP_8xy0. rewrite opVx_set_reg, opVy_set_reg.
    rewrite reg_set_reg_eq by assumption.
    rewrite reg_set_reg by (assumption || lia).
    destruct (Z.eq_dec (opVx s) (opVy s)); rewrite Z.eqb_refl; reflexivity.
Qed.

(** 6A42 followed by 3A42 at pc = 0x200 skips to 0x202. *)
Lemma load_or_move_then_compare_witness :
  pc (OP_3xkk (OP_6xkk state_6A42)) = 0x202.
Proof.
  assert (Hwf : wf state_6A42) by (vm_compute; reflexivity).
  destruct (load_or_move_then_compare state_6A42 Hwf) as (H & _).
  exact H.
Defined.

(** ** Key tests (Ex9E, ExA1) *)

(** X6: the key tests index the keypad with the value of Vx.  For a value
    below 16 both are defined and complementary: exactly one of them
    advances pc by 2, Ex9E when the key is down.  For a value of 16 or more
    both read past the 16-entry keypad. *)
Theorem key_tests_complementary_or_outside (s : Chip8) :
  wf s ->
  let k := reg s (opVx s) in
  let skipped := set_pc s ((pc s + 2) mod 65536) in
  (k < 16 ->
   (key s k <> 0 /\ OP_Ex9E s = Some skipped /\ OP_ExA1 s = Some s) \/
   (key s k = 0 /\ OP_Ex9E s = Some s /\ OP_ExA1 s = Some skipped)) /\
  (16 <= k -> OP_Ex9E s = None /\ OP_ExA1 s = None).
Proof.
  intros Hwf k skipped.
  pose proof (reg_range s _ Hwf (opVx_range s)) as Hk. fold k in Hk.
  pose proof (wf_inv s Hwf) as (_ & _ & _ & _ & _ & _ & Hkl & _).
  unfold OP_Ex9E, OP_ExA1, read_key. fold k. split.
  - intros Hlt. rewrite in_bounds_true by lia.
    change (keypad s !!! Z.to_nat k) with (key s k).
    destruct (key s k =? 0) eqn:E; simpl.
    + right. apply Z.eqb_eq in E. repeat split. exact E.
    + left. apply Z.eqb_neq in E. repeat split. exact E.
  - intros Hge.
    assert (B : in_bounds (keypad s) k = false)
      by (unfold in_bounds; apply andb_false_intro2; lia).
    rewrite B. split; reflexivity.
Qed.

(** With V2 = 7 and key 7 down Ex9E skips and ExA1 does not; with V2 = 16
    both read past the keypad. *)
Lemma key_tests_complementary_or_outside_witness :
  (OP_Ex9E state_E29E_key7 = Some (set_pc state_E29E_key7 0x202) /\
   OP_ExA1 state_E29E_key7 = Some state_E29E_key7) /\
  (OP_Ex9E state_E29E_outside = None /\ OP_ExA1 state_E29E_outside = None).
Proof.
  assert (Hwf : wf state_E29E_key7) by (vm_compute; reflexivity).
  assert (Hwf' : wf state_E29E_outside) by (vm_compute; reflexivity).
  destruct (key_tests_complementary_or_outside state_E29E_key7 Hwf) as (Hin & _).
  destruct (key_tests_complementary_or_outside state_E29E_outside Hwf')
    as (_ & Hout).
  split.
  - destruct Hin as [(_ & H1 & H2) | (H0 & _)].
    + vm_compute. reflexivity.
    + split; [exact H1 | exact H2].
    + vm_compute in H0. discriminate.
  - apply Hout. vm_compute. discriminate.
Defined.

(** ** Twelve-bit operands (1nnn, Annn, Bnnn) *)

Lemma opAddress_range s : 0 <= opAddress s < 4096.
Proof.
  unfold opAddress. change 0x0FFF with (Z.ones 12).
  rewrite Z.land_ones by lia. apply Z.mod_pos_bound. reflexivity.
Qed.

(** X7: 1nnn and Annn load the low twelve bits of the instruction word:
    the new pc (or index) is below 4096 and does not depend on the old one.
    Bnnn adds V0 without reducing the sum to twelve bits: pc is exactly
    V0 + nnn, at most 4350, and lies outside the 4096-byte memory whenever
    V0 + nnn exceeds 4095. *)
Theorem twelve_bit_targets (s : Chip8) :
  wf s ->
  (pc (OP_1nnn s) = opcode s mod 4096 /\
   forall p, pc (OP_1nnn (set_pc s p)) = pc (OP_1nnn s)) /\
  (index (OP_Annn s) = opcode s mod 4096 /\
   forall i, index (OP_Annn (set_index s i)) = index (OP_Annn s)) /\
  (pc (OP_Bnnn s) = reg s 0 + opcode s mod 4096 /\
   pc (OP_Bnnn s) <= 4350 /\
   (4096 <= reg s 0 + opcode s mod 4096 ->
    in_bounds (memory s) (pc (OP_Bnnn s)) = false)).
Proof.
  intros Hwf.
  pose proof (opAddress_range s) as Hn.
  pose proof (reg_range s 0 Hwf ltac:(lia)) as H0.
  pose proof (wf_inv s Hwf) as (_ & _ & Hml & _).
  assert (Hm : opAddress s = opcode s mod 4096).
  { unfold opAddress. change 0x0FFF with (Z.ones 12).
    now rewrite Z.land_ones by lia. }
  rewrite <- Hm.
  split; [split; [reflexivity | intros; reflexivity] |].
  split; [split; [reflexivity | intros; reflexivity] |].
  assert (E : pc (OP_Bnnn s) = reg s 0 + opAddress s)
    by (unfold OP_Bnnn; simpl; apply u16_small; lia).
  split; [exact E |]. split; [lia |].
  intros Hbig. rewrite E. unfold in_bounds. apply andb_false_intro2. lia.
Qed.

(** BFFF with V0 = 255 sets pc to 4350, beyond memory; 1FFF sets it to 0xFFF. *)
Lemma twelve_bit_targets_witness :
  pc (OP_Bnnn state_BFFF) = 4350 /\
  in_bounds (memory state_BFFF) (pc (OP_Bnnn state_BFFF)) = false /\
  pc (OP_1nnn state_BFFF) = 0xFFF.
Proof.
  assert (Hwf : wf state_BFFF) by (vm_compute; reflexivity).
  destruct (twelve_bit_targets state_BFFF Hwf) as ((Hj & _) & _ & (Hb & _ & Hout)).
  split; [exact Hb |]. split; [| exact Hj].
  apply Hout. vm_compute. discriminate.
Defined.

(** ** Add to index (Fx1E) *)

(** X8: Fx1E adds Vx to the index register modulo 2^16 and writes no
    register: V15 is not set when the sum leaves the 12-bit address range or
    wraps.  Directly after Annn the sum cannot wrap: index is nnn + Vx, which
    may exceed 4095. *)
Theorem OP_Fx1E_wraps_without_flag (s : Chip8) :
  wf s ->
  let a := reg s (opVx s) in
  index (OP_Fx1E s) = (index s + a) mod 65536 /\
  registers (OP_Fx1E s) = registers s /\
  (forall w, index (OP_Fx1E (set_opcode (OP_Annn s) w))
             = opAddress s + reg s (opVx (set_opcode s w)) /\
             index (OP_Fx1E (set_opcode (OP_Annn s) w)) <= 4350).
Proof.
  intros Hwf a.
  split; [reflexivity |]. split; [reflexivity |].
  intros w.
  pose proof (opAddress_range s) as Hn.
  pose proof (reg_range s _ Hwf (opVx_range (set_opcode s w))) as Hr.
  change (reg (set_opcode s w)) with (reg s) in Hr.
  assert (E : index (OP_Fx1E (set_opcode (OP_Annn s) w))
              = opAddress s + reg s (opVx (set_opcode s w))).
  { unfold OP_Fx1E. simpl. apply u16_small.
    change (reg (set_opcode (OP_Annn s) w)) with (reg s).
    change (opVx (set_opcode (OP_Annn s) w)) with (opVx (set_opcode s w)).
    lia. }
  split; [exact E | rewrite E; lia].
Qed.

(** F01E with I = 0xFFFF and V0 = 2: I wraps to 1 and V15 stays 0. *)
Lemma OP_Fx1E_wraps_without_flag_witness :
  index (OP_Fx1E state_F01E_top) = 1 /\
  reg (OP_Fx1E state_F01E_top) 0xF = 0.
Proof.
  assert (Hwf : wf state_F01E_top) by (vm_compute; reflexivity).
  destruct (OP_Fx1E_wraps_without_flag state_F01E_top Hwf) as (Hi & Hr & _).
  split; [exact Hi |]. unfold reg. rewrite Hr. reflexivity.
Defined.

(** ** Timers (Fx07, Fx15, Fx18) *)

(** X9: a value written to the delay timer by Fx15 is what a following Fx07
    reads back, into any register; Fx15 leaves the sound timer alone and Fx18
    the delay timer, and none of the three changes the timer it reads from:
    the handlers never count a timer down. *)
Theorem timers_store_and_read_back (s : Chip8) :
  wf s ->
  (forall w, reg (OP_Fx07 (set_opcode (OP_Fx15 s) w)) (opVx (set_opcode s w))
             = reg s (opVx s)) /\
  soundTimer (OP_Fx15 s) = soundTimer s /\
  delayTimer (OP_Fx18 s) = delayTimer s /\
  soundTimer (OP_Fx18 s) = reg s (opVx s) /\
  delayTimer (OP_Fx07 s) = delayTimer s.
Proof.
  intros Hwf.
  pose proof (wf_inv s Hwf) as (Hlen & _).
  split; [| repeat split].
  intros w. unfold OP_Fx07.
  change (opVx (set_opcode (OP_Fx15 s) w)) with (opVx (set_opcode s w)).
  apply reg_set_reg_eq; [exact Hlen | apply opVx_range].
Qed.

(** F315 with V3 = 60, then F507: V5 = 60. *)
Lemma timers_store_and_read_back_witness :
  reg (OP_Fx07 (set_opcode (OP_Fx15 state_F315) 0xF507)) 5 = 60.
Proof.
  assert (Hwf : wf state_F315) by (vm_compute; reflexivity).
  destruct (timers_store_and_read_back state_F315 Hwf) as (H & _).
  exact (H 0xF507).
Defined.

(** ** Random byte under a mask (Cxkk) *)

(** X10: whatever byte the generator delivers, the value stored by Cxkk has
    no bit outside kk: it is a sub-mask of kk and at most kk; with kk = 0 it
    is 0 and with kk = 255 it is the random byte itself.  No other register
    changes. *)
Theorem OP_Cxkk_within_mask (random : Z) (s : Chip8) :
  wf s -> 0 <= random < 256 ->
  let kk := opByte s in
  let v := reg (OP_Cxkk random s) (opVx s) in
  v = Z.land random kk /\ Z.land v kk = v /\ 0 <= v <= kk /\
  (kk = 0 -> v = 0) /\ (kk = 255 -> v = random) /\
  (forall i, 0 <= i < 16 -> i <> opVx s -> reg (OP_Cxkk random s) i = reg s i).
Proof.
  intros Hwf Hr kk v.
  pose proof (opVx_range s) as Hx.
  pose proof (opByte_range s) as Hk. fold kk in Hk.
  pose proof (wf_inv s Hwf) as (Hlen & _).
  assert (Hrange : 0 <= Z.land random kk < 256)
    by (apply (land_range random kk 8); lia).
  assert (E : v = Z.land random kk).
  { unfold v, OP_Cxkk. fold kk. rewrite reg_set_reg_eq by assumption.
    now apply u8_small. }
  split; [exact E |]. rewrite E.
  split; [now rewrite <- Z.land_assoc, Z.land_diag |].
  split; [split; [lia | apply land_le_r; lia] |].
  split; [intros ->; apply Z.land_0_r |].
  split.
  - intros ->. change 255 with (Z.ones 8).
    rewrite Z.land_ones by lia. apply Z.mod_small. exact Hr.
  - intros i Hi Hne. unfold OP_Cxkk. apply reg_set_reg_ne; lia.
Qed.

(** C10F with the generator delivering 0xA7: V1 = 7. *)
Lemma OP_Cxkk_within_mask_witness :
  reg (OP_Cxkk 0xA7 state_C10F) 1 = 7 /\
  0 <= reg (OP_Cxkk 0xA7 state_C10F) 1 <= 0x0F.
Proof.
  assert (Hwf : wf state_C10F) by (vm_compute; reflexivity).
  destruct (OP_Cxkk_within_mask 0xA7 state_C10F Hwf ltac:(lia))
    as (Hv & _ & Hle & _).
  split; [exact Hv | exact Hle].
Defined.

(** ** Which cells a sprite addresses *)

Lemma cols_cells_elem spriteByte xPos yPos row (n : nat) :
  forall col c,
    c ∈ cols_cells spriteByte xPos yPos row col n <->
    exists j, col <= j < col + Z.of_nat n /\ sprite_bit spriteByte j = true /\
              c = cell_of xPos yPos row j.
Proof.
  induction n as [|n IH]; intros col c; simpl.
  - split; [intros H; now apply elem_of_nil in H | intros (j & Hj & _); lia].
  - rewrite elem_of_app, IH. split.
    + intros [H | (j & Hj & Hb & Hc)].
      * destruct (sprite_bit spriteByte col) eqn:E.
        -- apply list_elem_of_singleton in H. exists col.
           split; [lia | split; assumption].
        -- now apply elem_of_nil in H.
      * exists j. split; [lia | split; assumption].
    + intros (j & Hj & Hb & Hc).
      destruct (Z.eq_dec j col) as [->|Hne].
      * left. rewrite Hb. now apply list_elem_of_singleton.
      * right. exists j. split; [lia | split; assumption].
Qed.

Lemma rows_cells_elem (mem : list Z) (idx xPos yPos : Z) (n : nat) :
  forall row c,
    c ∈ rows_cells mem idx xPos yPos row n <->
    exists r j, row <= r < row + Z.of_nat n /\ 0 <= j < 8 /\
                sprite_bit (mem !!! Z.to_nat (idx + r)) j = true /\
                c = cell_of xPos yPos r j.
Proof.
  induction n as [|n IH]; intros row c; cbn [rows_cells].
  - split; [intros H; now apply elem_of_nil in H | intros (r & j & Hr & _); lia].
  - rewrite elem_of_app, IH, cols_cells_elem. split.
    + intros [(j & Hj & Hb & Hc) | (r & j & Hr & Hj & Hb & Hc)].
      * exists row, j. repeat split; (assumption || lia).
      * exists r, j. repeat split; (assumption || lia).
    + intros (r & j & Hr & Hj & Hb & Hc).
      destruct (Z.eq_dec r row) as [->|Hne].
      * left. exists j. repeat split; (assumption || lia).
      * right. exists r, j. repeat split; (assumption || lia).
Qed.

Lemma cell_of_inj xPos yPos r j r' j' :
  0 <= j < 8 -> 0 <= j' < 8 ->
  cell_of xPos yPos r j = cell_of xPos yPos r' j' -> r = r' /\ j = j'.
Proof. unfold cell_of, VIDEO_WIDTH. lia. Qed.

(** Bit [col] of a sprite row, counted from the left, is bit [7 - col] of
    the byte. *)
Lemma sprite_bit_testbit (b col : Z) :
  0 <= col < 8 -> sprite_bit b col = Z.testbit b (7 - col).
Proof.
  intros Hc. unfold sprite_bit.
  assert (Hs : Z.shiftr 128 col = 2 ^ (7 - col)).
  { assert (col = 0 \/ col = 1 \/ col = 2 \/ col = 3 \/ col = 4 \/ col = 5 \/
            col = 6 \/ col = 7) as H by lia.
    repeat (destruct H as [-> | H]); [.. | subst col]; reflexivity. }
  rewrite Hs.
  assert (Hland : Z.land b (2 ^ (7 - col))
                  = if Z.testbit b (7 - col) then 2 ^ (7 - col) else 0).
  { apply Z.bits_inj'. intros n Hn.
    rewrite Z.land_spec, Z.pow2_bits_eqb by lia.
    destruct (Z.eqb_spec (7 - col) n) as [<-|Hne].
    - destruct (Z.testbit b (7 - col)).
      + now rewrite Z.pow2_bits_true by lia.
      + now rewrite Z.bits_0.
    - rewrite andb_false_r. destruct (Z.testbit b (7 - col)).
      + rewrite Z.pow2_bits_eqb by lia. symmetry. now apply Z.eqb_neq.
      + now rewrite Z.bits_0. }
  rewrite Hland.
  assert (0 < 2 ^ (7 - col) <= 128).
  { split; [apply Z.pow_pos_nonneg; lia |].
    change 128 with (2 ^ 7). apply Z.pow_le_mono_r; lia. }
  destruct (Z.testbit b (7 - col)).
  - rewrite u8_small by lia. apply negb_true_iff, Z.eqb_neq. lia.
  - reflexivity.
Qed.

(** Drawing on an all-off display: no collision, and the cells that end
    fully on are the cells of the sprite's on bits. *)
Lemma OP_Dxyn_on_clear_display (s : Chip8) :
  wf s ->
  video s = zeros 2048 ->
  index s + draw_height s <= 4096 ->
  fits_video s = true ->
  exists s' : Chip8,
    OP_Dxyn s = Ok s' /\
    reg s' 0xF = 0 /\
    (forall c, 0 <= c < 2048 ->
       video s' !!! Z.to_nat c
       = if decide (c ∈ sprite_cells s) then 0xFFFFFFFF else 0) /\
    draw_frame s s'.
Proof.
  intros Hwf Hclear Hidx Hfit.
  pose proof (wf_inv s Hwf) as (Hrl & _ & Hml & _ & _ & _ & _ & Hvl & Hi & _).
  assert (Hb : forall c, c ∈ sprite_cells s -> 0 <= c < 2048).
  { intros c Hc. pose proof (fits_video_bounds s c Hfit Hc). lia. }
  destruct (OP_Dxyn_spec s Hrl Hml ltac:(lia) Hidx) as (s' & E & Hv & Hf & Hfr).
  { intros c Hc. apply Hb in Hc. lia. }
  exists s'. split; [exact E |]. split; [| split; [| exact Hfr]].
  - rewrite Hf, existsb_all_false; [reflexivity |].
    intros c Hc. pose proof (Hb c Hc).
    rewrite Hclear, zeros_lookup by lia. reflexivity.
  - intros c Hc. rewrite Hv by lia.
    rewrite Hclear, zeros_lookup by lia.
    destruct (decide (c ∈ sprite_cells s)); reflexivity.
Qed.

(** ** Draw sprite: the picture *)

(** X11: on an all-off display, for a sprite whose rows lie in memory and
    whose cells lie in the buffer, the draw completes with V15 = 0; bit col
    (from the left) of sprite row row decides the cell
    (yPos + row) * 64 + xPos + col: fully on if bit 7 - col of
    memory[index + row] is set, off otherwise, and every other cell stays
    off.  Memory, index, pc and the registers other than V15 are unchanged. *)
Theorem OP_Dxyn_draws_rows_msb_first (s : Chip8) :
  wf s ->
  video s = zeros 2048 ->
  index s + draw_height s <= 4096 ->
  fits_video s = true ->
  exists s' : Chip8,
    OP_Dxyn s = Ok s' /\
    reg s' 0xF = 0 /\
    (forall row col,
        0 <= row < draw_height s -> 0 <= col < 8 ->
        0 <= cell_of (draw_xPos s) (draw_yPos s) row col < 2048 ->
        video s' !!! Z.to_nat (cell_of (draw_xPos s) (draw_yPos s) row col)
        = if Z.testbit (memory s !!! Z.to_nat (index s + row)) (7 - col)
          then 0xFFFFFFFF else 0) /\
    (forall c, 0 <= c < 2048 ->
        (forall row col, 0 <= row < draw_height s -> 0 <= col < 8 ->
                         c <> cell_of (draw_xPos s) (draw_yPos s) row col) ->
        video s' !!! Z.to_nat c = 0) /\
    memory s' = memory s /\ index s' = index s /\ pc s' = pc s /\
    (forall i, 0 <= i < 15 -> reg s' i = reg s i).
Proof.
  intros Hwf Hclear Hidx Hfit.
  destruct (OP_Dxyn_on_clear_display s Hwf Hclear Hidx Hfit)
    as (s' & E & Hf & Hv & Hm & Hi & _ & Hp & _ & _ & Hr).
  pose proof (draw_height_range s) as Hh.
  exists s'. split; [exact E |]. split; [exact Hf |].
  split; [| split].
  - intros row col Hrow Hcol Hc. rewrite Hv by exact Hc.
    rewrite <- sprite_bit_testbit by exact Hcol.
    destruct (decide (_ ∈ sprite_cells s)) as [Hin|Hnin].
    + apply rows_cells_elem in Hin as (r & j & Hrr & Hj & Hb & Heq).
      apply cell_of_inj in Heq as [<- <-]; try assumption.
      now rewrite Hb.
    + destruct (sprite_bit _ col) eqn:Hb; [| reflexivity].
      exfalso. apply Hnin. apply rows_cells_elem.
      exists row, col. repeat split; (assumption || lia).
  - intros c Hc Hnot. rewrite Hv by exact Hc.
    destruct (decide (c ∈ sprite_cells s)) as [Hin|Hnin]; [| reflexivity].
    apply rows_cells_elem in Hin as (r & j & Hrr & Hj & Hb & Heq).
    exfalso. apply (Hnot r j); (assumption || lia).
  - repeat split; try assumption. intros i Hi'. apply Hr; lia.
Qed.

(** D011 at (V0, V1) = (2, 3) with the one-row sprite 0xA0 = 1010_0000:
    cells (3 * 64 + 2) and (3 * 64 + 4) are on, the cell between them and
    every cell outside the row's eight stay off. *)
Lemma OP_Dxyn_draws_rows_msb_first_witness :
  exists s' : Chip8,
    OP_Dxyn state_D011_A0 = Ok s' /\
    reg s' 0xF = 0 /\
    video s' !!! 194%nat = 0xFFFFFFFF /\
    video s' !!! 195%nat = 0 /\
    video s' !!! 196%nat = 0xFFFFFFFF /\
    video s' !!! 0%nat = 0.
Proof.
  assert (Hwf : wf state_D011_A0) by (vm_compute; reflexivity).
  assert (Hclear : video state_D011_A0 = zeros 2048) by reflexivity.
  assert (Hidx : index state_D011_A0 + draw_height state_D011_A0 <= 4096)
    by (vm_compute; discriminate).
  assert (Hfit : fits_video state_D011_A0 = true) by (vm_compute; reflexivity).
  destruct (OP_Dxyn_draws_rows_msb_first state_D011_A0 Hwf Hclear Hidx Hfit)
    as (s' & E & Hf & Hon & Hoff & _).
  exists s'. split; [exact E |]. split; [exact Hf |].
  split; [| split; [| split]].
  - apply (Hon 0 0); vm_compute; split; (reflexivity || discriminate).
  - apply (Hon 0 1); vm_compute; split; (reflexivity || discriminate).
  - apply (Hon 0 2); vm_compute; split; (reflexivity || discriminate).
  - apply (Hoff 0); [lia |].
    intros row col Hrow Hcol.
    change (draw_height state_D011_A0) with 1 in Hrow.
    change (draw_xPos state_D011_A0) with 2.
    change (draw_yPos state_D011_A0) with 3.
    unfold cell_of, VIDEO_WIDTH. lia.
Defined.

(** ** Every handler keeps the machine well-formed *)

Lemma for_range_preserves {St : Type} (P : St -> Prop)
    (body : Z -> St -> outcome St) :
  (forall j t t', P t -> body j t = Ok t' -> P t') ->
  forall (n : nat) (i : Z) (s s' : St),
    P s -> for_range i n body s = Ok s' -> P s'.
Proof.
  intros Hbody. induction n as [|n IH]; intros i s s' Hs E; simpl in E.
  - now injection E as <-.
  - destruct (body i s) as [t|arr k] eqn:Eb; simpl in E; [| discriminate].
    eapply IH; [eapply Hbody; eassumption | exact E].
Qed.

Lemma byte_value_range (b : byte) : 0 <= byte_value b < 256.
Proof.
  unfold byte_value. pose proof (Byte.to_N_bounded b) as H. lia.
Qed.

Lemma wf_toggle (c : Z) (s s' : Chip8) : wf s -> toggle c s = Ok s' -> wf s'.
Proof.
  intros Hwf E. unfold toggle in E.
  destruct (read Video (video s) c) as [px|arr k] eqn:Er; simpl in E;
    [| discriminate].
  assert (Hpx : 0 <= px < 4294967296).
  { apply wf_iff in Hwf as (_ & _ & _ & _ & (_ & Hv) & _).
    exact (read_range _ _ _ _ _ Hv Er). }
  assert (Hx : 0 <= Z.lxor px 4294967295 < 4294967296)
    by (apply (lxor_range px 4294967295 32); lia).
  destruct (px =? 4294967295).
  - eapply wf_write_video; [| exact Hx | exact E].
    apply wf_set_reg; [assumption | lia].
  - eapply wf_write_video; eassumption.
Qed.

Lemma wf_draw_pixel b xPos yPos row col (s s' : Chip8) :
  wf s -> draw_pixel b xPos yPos row col s = Ok s' -> wf s'.
Proof.
  intros Hwf E. rewrite draw_pixel_toggle in E.
  destruct (sprite_bit b col); simpl in E.
  - destruct (toggle _ s) as [t|arr k] eqn:Et; simpl in E; [| discriminate].
    injection E as <-. eapply wf_toggle; eassumption.
  - now injection E as <-.
Qed.

Lemma wf_OP_00E0 s : wf s -> wf (OP_00E0 s).
Proof.
  intros Hwf. unfold OP_00E0. pose proof Hwf as H. wf_fields H.
  - now rewrite length_replicate.
  - apply all_below_replicate. lia.
Qed.

(** X12: the handlers that cannot leave an array keep the state well-formed:
    after any of them every register, key, timer and memory byte is still an
    8-bit value, pc, index and every stack entry a 16-bit value, and the
    arrays keep their sizes.  For Cxkk this holds whatever the generator
    delivers. *)
Theorem total_handlers_keep_wf (s : Chip8) :
  wf s ->
  (wf (OP_00E0 s) /\ wf (OP_1nnn s) /\ wf (OP_Annn s) /\ wf (OP_Bnnn s)) /\
  (wf (OP_3xkk s) /\ wf (OP_4xkk s) /\ wf (OP_5xy0 s) /\ wf (OP_9xy0 s)) /\
  (wf (OP_6xkk s) /\ wf (OP_7xkk s) /\ wf (OP_8xy0 s)) /\
  (wf (OP_8xy1 s) /\ wf (OP_8xy2 s) /\ wf (OP_8xy3 s)) /\
  (wf (OP_8xy4 s) /\ wf (OP_8xy5 s) /\ wf (OP_8xy6 s) /\
   wf (OP_8xy7 s) /\ wf (OP_8xyE s)) /\
  (forall random, wf (OP_Cxkk random s)) /\
  (wf (OP_Fx07 s) /\ wf (OP_Fx0A s) /\ wf (OP_Fx15 s) /\ wf (OP_Fx18 s) /\
   wf (OP_Fx1E s) /\ wf (OP_Fx29 s)) /\
  (forall s', OP_Ex9E s = Some s' \/ OP_ExA1 s = Some s' -> wf s').
Proof.
  intros Hwf.
  pose proof (opVx_range s) as Hx. pose proof (opVy_range s) as Hy.
  pose proof (reg_range s _ Hwf Hx) as Ha. pose proof (reg_range s _ Hwf Hy) as Hb.
  pose proof (opAddress_range s) as Hn.
  assert (Hskip : wf (set_pc s (u16 (pc s + 2))))
    by (apply wf_set_pc; [assumption | apply u16_range]).
  assert (Hflag : forall c : bool,
             wf (if c then set_reg s 15 1 else set_reg s 15 0))
    by (intros []; apply wf_set_reg; (assumption || lia)).
  split; [| split; [| split; [| split; [| split; [| split; [| split]]]]]].
  - split; [| split; [| split]].
    + now apply wf_OP_00E0.
    + apply wf_set_pc; [assumption | lia].
    + apply wf_set_index; [assumption | lia].
    + apply wf_set_pc; [assumption | apply u16_range].
  - unfold OP_3xkk, OP_4xkk, OP_5xy0, OP_9xy0. cbv zeta.
    repeat split;
      match goal with |- wf (if ?c then _ else _) => destruct c end;
      assumption.
  - repeat split; apply wf_set_reg; try assumption;
      (apply u8_range || apply opByte_range).
  - repeat split; apply wf_set_reg; try assumption; apply u8_range.
  - unfold OP_8xy4, OP_8xy5, OP_8xy6, OP_8xy7, OP_8xyE. cbv zeta.
    repeat split; apply wf_set_reg; try apply u8_range;
      try apply Hflag; apply wf_set_reg; try assumption; apply u8_range.
  - intros random. apply wf_set_reg; [assumption | apply u8_range].
  - split; [| split; [| split; [| split; [| split]]]].
    + apply wf_set_reg; [assumption |].
      apply wf_iff in Hwf. tauto.
    + rewrite OP_Fx0A_scan. destruct (scan_keys s 0 16) as [k|] eqn:E.
      * apply wf_set_reg; [assumption |].
        assert (Hk : forall n i j, scan_keys s i n = Some j ->
                                   i <= j < i + Z.of_nat n).
        { induction n as [|n IH]; intros i j Hs; simpl in Hs; [discriminate |].
          destruct (pressed s i).
          - injection Hs as <-. lia.
          - apply IH in Hs. lia. }
        apply Hk in E. lia.
      * apply wf_set_pc; [assumption | apply u16_range].
    + apply wf_set_delayTimer; assumption.
    + apply wf_set_soundTimer; assumption.
    + apply wf_set_index; [assumption | apply u16_range].
    + apply wf_set_index; [assumption | apply u16_range].
  - intros s' [E | E]; unfold OP_Ex9E, OP_ExA1 in E;
      destruct (read_key s (reg s (opVx s))) as [v|]; try discriminate;
      injection E as <-;
      match goal with |- wf (if ?c then _ else _) => destruct c end;
      assumption.
Qed.

(** The word 8ABE with VA = 0xFF, run as the shift 8xyE and as Fx29 (both
    read x = 0xA only). *)
Lemma total_handlers_keep_wf_witness :
  wf (OP_8xyE state_8ABE) /\ wf (OP_Fx29 state_8ABE).
Proof.
  assert (Hwf : wf state_8ABE) by (vm_compute; reflexivity).
  destruct (total_handlers_keep_wf state_8ABE Hwf)
    as (_ & _ & _ & _ & (_ & _ & _ & _ & H1) & _ & (_ & _ & _ & _ & _ & H2) & _).
  split; assumption.
Defined.

Lemma reg_range_any s i : wf s -> 0 <= reg s i < 256.
Proof.
  intros Hwf. apply wf_iff in Hwf as ((_ & Hr) & _).
  unfold reg. rewrite list_lookup_total_alt.
  destruct (registers s !! Z.to_nat i) as [v|] eqn:E; simpl.
  - pose proof (lookup_lt_Some _ _ _ E) as Hlt.
    apply list_lookup_total_correct in E. rewrite <- E.
    now apply all_below_lookup.
  - vm_compute. split; [discriminate | reflexivity].
Qed.

Lemma wf_OP_00EE s s' : wf s -> OP_00EE s = Ok s' -> wf s'.
Proof.
  intros Hwf E. unfold OP_00EE in E.
  assert (H1 : wf (set_sp s (u8 (sp s - 1))))
    by (apply wf_set_sp; [assumption | apply u8_range]).
  destruct (read Stack _ _) as [v|arr k] eqn:Er; simpl in E; [| discriminate].
  injection E as <-. apply wf_set_pc; [assumption |].
  apply wf_iff in H1 as (_ & _ & (_ & Hst) & _).
  exact (read_range _ _ _ _ _ Hst Er).
Qed.

Lemma wf_OP_2nnn s s' : wf s -> OP_2nnn s = Ok s' -> wf s'.
Proof.
  intros Hwf E. unfold OP_2nnn in E.
  destruct (write_stack s (sp s) (pc s)) as [s1|arr k] eqn:Ew; simpl in E;
    [| discriminate].
  injection E as <-.
  assert (H1 : wf s1).
  { eapply wf_write_stack; [exact Hwf | | exact Ew].
    apply wf_iff in Hwf. tauto. }
  apply wf_set_pc; [apply wf_set_sp; [assumption | apply u8_range] |].
  pose proof (opAddress_range s). lia.
Qed.

Lemma wf_OP_Dxyn s s' : wf s -> OP_Dxyn s = Ok s' -> wf s'.
Proof.
  intros Hwf E. unfold OP_Dxyn in E.
  eapply (for_range_preserves wf); [| | exact E].
  - intros j t t' Ht Ed. unfold draw_row in Ed.
    destruct (read Memory _ _) as [b|arr k]; cbn [bind] in Ed; [| discriminate].
    eapply (for_range_preserves wf); [| exact Ht | exact Ed].
    intros j' u u' Hu. apply wf_draw_pixel. exact Hu.
  - apply wf_set_reg; [assumption | lia].
Qed.

Lemma wf_OP_Fx33 s s' : wf s -> OP_Fx33 s = Ok s' -> wf s'.
Proof.
  intros Hwf E. unfold OP_Fx33 in E.
  destruct (write_memory s _ _) as [s1|arr k] eqn:E1; simpl in E; [| discriminate].
  destruct (write_memory s1 _ _) as [s2|arr k] eqn:E2; simpl in E; [| discriminate].
  assert (H1 : wf s1)
    by (eapply wf_write_memory; [exact Hwf | apply u8_range | exact E1]).
  assert (H2 : wf s2)
    by (eapply wf_write_memory; [exact H1 | apply u8_range | exact E2]).
  eapply wf_write_memory; [exact H2 | apply u8_range | exact E].
Qed.

Lemma wf_OP_Fx55 s s' : wf s -> OP_Fx55 s = Ok s' -> wf s'.
Proof.
  intros Hwf E. unfold OP_Fx55 in E.
  eapply (for_range_preserves wf); [| exact Hwf | exact E].
  intros j t t' Ht Ew.
  eapply wf_write_memory; [exact Ht | apply reg_range_any; exact Ht | exact Ew].
Qed.

Lemma wf_OP_Fx65 s s' : wf s -> OP_Fx65 s = Ok s' -> wf s'.
Proof.
  intros Hwf E. unfold OP_Fx65 in E.
  eapply (for_range_preserves wf); [| exact Hwf | exact E].
  intros j t t' Ht Er. cbv beta in Er.
  destruct (read Memory (memory t) (index t + j)) as [v|arr k] eqn:Ev;
    simpl in Er; [| discriminate].
  injection Er as <-. apply wf_set_reg; [exact Ht |].
  apply wf_iff in Ht as (_ & (_ & Hm) & _).
  exact (read_range _ _ _ _ _ Hm Ev).
Qed.

Lemma wf_LoadROM file s s' : wf s -> LoadROM file s = Ok s' -> wf s'.
Proof.
  intros Hwf E. destruct file as [buffer|]; simpl in E.
  - eapply (for_range_preserves wf); [| exact Hwf | exact E].
    intros j t t' Ht Ew.
    eapply wf_write_memory; [exact Ht | apply byte_value_range | exact Ew].
  - now injection E as <-.
Qed.

(** X13: the handlers that index an array with run-time data, and LoadROM,
    keep the state well-formed whenever they complete. *)
Theorem fallible_handlers_keep_wf (s s' : Chip8) :
  wf s ->
  (OP_00EE s = Ok s' \/ OP_2nnn s = Ok s' \/ OP_Dxyn s = Ok s' \/
   OP_Fx33 s = Ok s' \/ OP_Fx55 s = Ok s' \/ OP_Fx65 s = Ok s' \/
   exists file, LoadROM file s = Ok s') ->
  wf s'.
Proof.
  intros Hwf [E | [E | [E | [E | [E | [E | (file & E)]]]]]].
  - exact (wf_OP_00EE s s' Hwf E).
  - exact (wf_OP_2nnn s s' Hwf E).
  - exact (wf_OP_Dxyn s s' Hwf E).
  - exact (wf_OP_Fx33 s s' Hwf E).
  - exact (wf_OP_Fx55 s s' Hwf E).
  - exact (wf_OP_Fx65 s s' Hwf E).
  - exact (wf_LoadROM file s s' Hwf E).
Qed.

(** F233 with I = 0xFFD completes, and its result is well-formed. *)
Lemma fallible_handlers_keep_wf_witness :
  exists s', OP_Fx33 state_F233_twin = Ok s' /\ wf s'.
Proof.
  assert (Hwf : wf state_F233_twin) by (vm_compute; reflexivity).
  destruct (OP_Fx33 state_F233_twin) as [s'|arr k] eqn:E;
    [| vm_compute in E; discriminate].
  exists s'. split; [reflexivity |].
  apply (fallible_handlers_keep_wf state_F233_twin s' Hwf).
  right. right. right. left. exact E.
Defined.

(** ** Stack depth *)

(** X14: the call handler completes exactly when fewer than 16 return
    addresses are stacked, and the return handler exactly when between 1 and
    16 are.  A return on an empty stack wraps sp to 255 and reads stack[255];
    a call at depth 16 or more writes stack[sp]: both outside the 16-entry
    array. *)
Theorem stack_depth_limits (s : Chip8) :
  wf s ->
  ((exists s' : Chip8, OP_2nnn s = Ok s') <-> sp s < 16) /\
  ((exists s' : Chip8, OP_00EE s = Ok s') <-> 1 <= sp s <= 16) /\
  (sp s = 0 -> OP_00EE s = OutOfBounds Stack 255) /\
  (16 <= sp s -> OP_2nnn s = OutOfBounds Stack (sp s)).
Proof.
  intros Hwf.
  pose proof (wf_inv s Hwf) as (_ & _ & _ & _ & Hlen & _ & _ & _ & _ & _ & _ & Hsp).
  assert (Hcall : 16 <= sp s -> OP_2nnn s = OutOfBounds Stack (sp s)).
  { intros H. unfold OP_2nnn, write_stack, in_bounds. rewrite Hlen.
    destruct (Z.ltb_spec (sp s) (Z.of_nat 16)) as [Hlt|_]; [lia |].
    now rewrite andb_false_r. }
  assert (Hret : sp s = 0 -> OP_00EE s = OutOfBounds Stack 255).
  { intros H. unfold OP_00EE, read, in_bounds. cbn [sp stack set_sp].
    rewrite H, Hlen. reflexivity. }
  split; [| split; [| split]]; try assumption.
  - split.
    + intros (s' & E). destruct (Z.lt_ge_cases (sp s) 16) as [Hlt|Hge];
        [assumption |].
      rewrite Hcall in E by assumption. discriminate.
    + intros H. unfold OP_2nnn, write_stack.
      rewrite in_bounds_true by lia. simpl. eexists. reflexivity.
  - split.
    + intros (s' & E).
      destruct (Z.eq_dec (sp s) 0) as [H0|H0];
        [rewrite Hret in E by assumption; discriminate |].
      destruct (Z.le_gt_cases (sp s) 16) as [Hle|Hgt]; [lia |].
      unfold OP_00EE, read, in_bounds in E. cbn [sp stack set_sp] in E.
      rewrite u8_small, Hlen in E by lia.
      destruct (Z.ltb_spec (sp s - 1) (Z.of_nat 16)) as [Hlt|_]; [lia |].
      rewrite andb_false_r in E. discriminate.
    + intros H. unfold OP_00EE, read. cbn [sp stack set_sp].
      rewrite u8_small by lia. rewrite in_bounds_true by lia.
      simpl. eexists. reflexivity.
Qed.

(** At power-on (sp = 0) a call is fine and a return reads stack[255]. *)
Lemma stack_depth_limits_witness :
  (exists s' : Chip8, OP_2nnn state_2ABC_fresh = Ok s') /\
  OP_00EE state_2ABC_fresh = OutOfBounds Stack 255.
Proof.
  assert (Hwf : wf state_2ABC_fresh) by (vm_compute; reflexivity).
  destruct (stack_depth_limits state_2ABC_fresh Hwf) as (Hcall & _ & Hret & _).
  split.
  - apply Hcall. vm_compute. reflexivity.
  - apply Hret. reflexivity.
Defined.

(** X15: a call stores the return address in the slot sp names and leaves
    the frames below it alone; whatever runs afterwards, as long as that slot
    and the stack depth are as the call left them when the return executes,
    the return gives back exactly that state with pc at the instruction
    after the call and sp as before the call. *)
Theorem call_then_body_then_return (s : Chip8) :
  wf s -> sp s < 16 ->
  exists s1 : Chip8,
    OP_2nnn s = Ok s1 /\
    pc s1 = opAddress s /\
    (forall i : nat, (i < Z.to_nat (sp s))%nat -> stack s1 !!! i = stack s !!! i) /\
    forall t : Chip8,
      length (stack t) = 16%nat ->
      sp t = sp s1 ->
      stack t !!! Z.to_nat (sp s) = stack s1 !!! Z.to_nat (sp s) ->
      OP_00EE t = Ok (set_pc (set_sp t (sp s)) (pc s)).
Proof.
  intros Hwf H.
  pose proof (wf_inv s Hwf) as (_ & _ & _ & _ & Hlen & _ & _ & _ & _ & _ & _ & Hsp).
  unfold OP_2nnn, write_stack. rewrite in_bounds_true by lia. simpl.
  eexists. split; [reflexivity |]. simpl.
  split; [reflexivity |]. split.
  - intros i Hi. apply list_lookup_total_insert_ne. lia.
  - intros t Htl Hts Htf.
    rewrite list_lookup_total_insert_eq in Htf by lia.
    unfold OP_00EE, read. cbn [sp stack set_sp].
    rewrite Hts, (u8_small (sp s + 1)) by lia.
    replace (sp s + 1 - 1) with (sp s) by lia.
    rewrite u8_small by lia. rewrite in_bounds_true by lia.
    simpl. now rewrite Htf.
Qed.

(** A call from depth 1, a body that loads V3 and jumps about, then the
    return: pc is back at 0x200 and sp at 1. *)
Lemma call_then_body_then_return_witness :
  exists s1 : Chip8,
    OP_2nnn state_call_depth_1 = Ok s1 /\
    OP_00EE (set_pc (set_reg s1 3 7) 0xAC0)
    = Ok (set_pc (set_sp (set_pc (set_reg s1 3 7) 0xAC0) 1) 0x200).
Proof.
  assert (Hwf : wf state_call_depth_1) by (vm_compute; reflexivity).
  assert (Hsp : sp state_call_depth_1 < 16) by (vm_compute; reflexivity).
  destruct (call_then_body_then_return state_call_depth_1 Hwf Hsp)
    as (s1 & E & _ & _ & Hret).
  exists s1. split; [exact E |].
  apply (Hret (set_pc (set_reg s1 3 7) 0xAC0)).
  - assert (E' : OP_2nnn state_call_depth_1 = Ok state_call_depth_2)
      by (vm_compute; reflexivity).
    rewrite E' in E. injection E as <-. reflexivity.
  - reflexivity.
  - reflexivity.
Defined.

(** ** Program load: the complete effect *)

Lemma set_memory_eq (s t : Chip8) :
  set_memory s (memory t) = t -> memory s = memory t -> s = t.
Proof. intros H E. rewrite <- E in H. now rewrite set_memory_same in H. Qed.

Lemma LoadROM_writes (buffer : list byte) (s : Chip8) :
  length (memory s) = 4096%nat ->
  Z.of_nat (length buffer) <= 4096 - START_ADDRESS ->
  exists s' : Chip8,
    LoadROM (Some buffer) s = Ok s' /\
    length (memory s') = 4096%nat /\
    set_memory s' (memory s) = s /\
    (forall k : nat, (k < length buffer)%nat ->
        memory s' !!! (512 + k)%nat = byte_value (nth k buffer "000"%byte)) /\
    (forall a : nat, (a < 512 \/ 512 + length buffer <= a)%nat ->
        memory s' !!! a = memory s !!! a).
Proof.
  intros Hml Hlen.
  unfold START_ADDRESS in *. unfold LoadROM.
  destruct (for_range_invariant
              (fun i s1 =>
                 write_memory s1 (512 + i)
                              (byte_value (nth (Z.to_nat i) buffer "000"%byte)))
              (fun j t =>
                 length (memory t) = 4096%nat /\
                 set_memory t (memory s) = s /\
                 (forall k : nat,
                     Z.of_nat k < j ->
                     memory t !!! (512 + k)%nat
                     = byte_value (nth k buffer "000"%byte)) /\
                 (forall a : nat,
                     (Z.of_nat a < 512 \/ 512 + j <= Z.of_nat a) ->
                     memory t !!! a = memory s !!! a))
              (length buffer) 0 s) as (s' & E & Hl' & Hrest & Himg & Hout).
  - split; [assumption |]. split; [apply set_memory_same |].
    split; [intros k Hk; lia | reflexivity].
  - intros j t Hj (Htl & Hts & Hti & Hto).
    unfold write_memory. rewrite in_bounds_true by lia.
    eexists. split; [reflexivity |]. simpl.
    split; [rewrite length_insert; assumption |].
    split; [rewrite set_memory_set_memory; assumption |].
    split.
    + intros k Hk. destruct (Z.eq_dec (Z.of_nat k) j) as [<-|Hne].
      * replace (Z.to_nat (512 + Z.of_nat k)) with (512 + k)%nat by lia.
        rewrite list_lookup_total_insert_eq by lia.
        now rewrite Nat2Z.id.
      * rewrite list_lookup_total_insert_ne by lia. apply Hti. lia.
    + intros a Ha. rewrite list_lookup_total_insert_ne by lia. apply Hto. lia.
  - exists s'. split; [exact E |]. split; [exact Hl' |].
    split; [exact Hrest |]. split.
    + intros k Hk. apply Himg. lia.
    + intros a Ha. apply Hout. lia.
Qed.

(** X16: LoadROM never clears memory.  Loading a shorter image over a longer
    one leaves the longer image's bytes beyond the shorter one's length in
    place; the bytes below 0x200 and beyond the longer image stay as they
    were before either load, and no other member changes.  Loading the same
    image a second time changes nothing. *)
Theorem LoadROM_reload_keeps_stale_tail (long short : list byte) (s : Chip8) :
  wf s ->
  (length short <= length long)%nat ->
  Z.of_nat (length long) <= 4096 - START_ADDRESS ->
  exists s1 s2 : Chip8,
    LoadROM (Some long) s = Ok s1 /\
    LoadROM (Some short) s1 = Ok s2 /\
    (forall (i : nat) (b : byte),
        short !! i = Some b -> memory s2 !!! (512 + i)%nat = byte_value b) /\
    (forall (i : nat) (b : byte),
        (length short <= i)%nat -> long !! i = Some b ->
        memory s2 !!! (512 + i)%nat = byte_value b) /\
    (forall a : nat,
        (a < 512 \/ 512 + length long <= a)%nat ->
        memory s2 !!! a = memory s !!! a) /\
    set_memory s2 (memory s) = s /\
    LoadROM (Some long) s1 = Ok s1.
Proof.
  intros Hwf Hle Hlen.
  pose proof (wf_inv s Hwf) as (_ & _ & Hml & _).
  destruct (LoadROM_writes long s Hml Hlen)
    as (s1 & E1 & Hl1 & Hr1 & Hi1 & Ho1).
  assert (Hlen' : Z.of_nat (length short) <= 4096 - START_ADDRESS) by lia.
  destruct (LoadROM_writes short s1 Hl1 Hlen')
    as (s2 & E2 & Hl2 & Hr2 & Hi2 & Ho2).
  exists s1, s2. split; [exact E1 |]. split; [exact E2 |].
  split; [| split; [| split; [| split]]].
  - intros i b Hb. rewrite Hi2 by (apply lookup_lt_Some in Hb; lia).
    now rewrite nth_lookup, Hb.
  - intros i b Hi Hb. rewrite Ho2 by lia.
    rewrite Hi1 by (apply lookup_lt_Some in Hb; lia).
    now rewrite nth_lookup, Hb.
  - intros a Ha. rewrite Ho2 by lia. apply Ho1. lia.
  - rewrite <- Hr1 at 2. rewrite <- Hr2. reflexivity.
  - destruct (LoadROM_writes long s1 Hl1 Hlen)
      as (s3 & E3 & Hl3 & Hr3 & Hi3 & Ho3).
    rewrite E3. f_equal. apply set_memory_eq; [exact Hr3 |].
    apply (list_eq_same_length _ _ 4096%nat); [assumption | assumption |].
    intros a x y Ha Hx Hy.
    apply list_lookup_total_correct in Hx, Hy. subst x y.
    destruct (Nat.lt_ge_cases a 512) as [Hlo|Hhi]; [apply Ho3; lia |].
    destruct (Nat.lt_ge_cases a (512 + length long)) as [Hin|Hout];
      [| apply Ho3; lia].
    replace a with (512 + (a - 512))%nat by lia.
    rewrite Hi3, Hi1 by lia. reflexivity.
Qed.

(** A four-byte image, then a two-byte one: addresses 0x200 and 0x201 hold
    the second image, 0x202 and 0x203 still hold bytes 2 and 3 of the first. *)
Lemma LoadROM_reload_keeps_stale_tail_witness :
  exists s1 s2 : Chip8,
    LoadROM (Some image_long) Chip8_new = Ok s1 /\
    LoadROM (Some image_short) s1 = Ok s2 /\
    memory s2 !!! 0x200%nat = 0xA2 /\
    memory s2 !!! 0x201%nat = 0xF0 /\
    memory s2 !!! 0x202%nat = 0x33 /\
    memory s2 !!! 0x203%nat = 0x44 /\
    memory s2 !!! 0x204%nat = 0.
Proof.
  assert (Hwf : wf Chip8_new) by (vm_compute; reflexivity).
  assert (Hle : (length image_short <= length image_long)%nat)
    by (vm_compute; lia).
  assert (Hlen : Z.of_nat (length image_long) <= 4096 - START_ADDRESS)
    by (vm_compute; discriminate).
  destruct (LoadROM_reload_keeps_stale_tail image_long image_short Chip8_new
              Hwf Hle Hlen)
    as (s1 & s2 & E1 & E2 & Hs & Hl & Ho & _).
  exists s1, s2. split; [exact E1 |]. split; [exact E2 |].
  split; [| split; [| split; [| split]]].
  - apply (Hs 0%nat xa2). reflexivity.
  - apply (Hs 1%nat xf0). reflexivity.
  - apply (Hl 2%nat x33); [vm_compute; lia | reflexivity].
  - apply (Hl 3%nat x44); [vm_compute; lia | reflexivity].
  - rewrite (Ho 516%nat) by (right; vm_compute; lia). vm_compute. reflexivity.
Defined.

(** ** Power-on *)

Lemma Chip8_new_memory (a : nat) :
  (a < 4096)%nat ->
  memory Chip8_new !!! a
  = if (80 <=? a)%nat && (a <? 160)%nat then fontset !!! (a - 80)%nat else 0.
Proof.
  intros Ha.
  assert (H : forallb
                (fun a : nat =>
                   memory Chip8_new !!! a
                   =? (if (80 <=? a)%nat && (a <? 160)%nat
                       then fontset !!! (a - 80)%nat else 0))
                (seq 0 4096) = true) by (vm_compute; reflexivity).
  rewrite forallb_forall in H. apply Z.eqb_eq, H, in_seq. lia.
Qed.

(** X17: the constructor followed by the load of any image of at most
    4096 - 0x200 bytes gives a well-formed machine with pc = 0x200, an empty
    stack, every register, timer, key and display cell zero, the 80 glyph
    bytes at 0x50..0x9F, the image at 0x200, and zero everywhere else in
    memory. *)
Theorem power_on_then_load (buffer : list byte) :
  Z.of_nat (length buffer) <= 4096 - START_ADDRESS ->
  exists s' : Chip8,
    LoadROM (Some buffer) Chip8_new = Ok s' /\
    wf s' /\
    (pc s' = START_ADDRESS /\ sp s' = 0 /\ index s' = 0 /\
     delayTimer s' = 0 /\ soundTimer s' = 0) /\
    (registers s' = zeros 16 /\ stack s' = zeros 16 /\
     keypad s' = zeros 16 /\ video s' = zeros 2048) /\
    (forall i : nat,
        (i < 80)%nat -> memory s' !!! (80 + i)%nat = fontset !!! i) /\
    (forall (i : nat) (b : byte),
        buffer !! i = Some b -> memory s' !!! (512 + i)%nat = byte_value b) /\
    (forall a : nat,
        (a < 80 \/ 160 <= a < 512 \/ 512 + length buffer <= a < 4096)%nat ->
        memory s' !!! a = 0).
Proof.
  intros Hlen.
  assert (Hwf : wf Chip8_new) by (vm_compute; reflexivity).
  pose proof (wf_inv _ Hwf) as (_ & _ & Hml & _).
  destruct (LoadROM_writes buffer Chip8_new Hml Hlen)
    as (s' & E & Hl' & Hrest & Himg & Hout).
  exists s'. split; [exact E |].
  split; [exact (wf_LoadROM _ _ _ Hwf E) |].
  split; [| split; [| split; [| split]]].
  - pose proof (f_equal pc Hrest) as H1. pose proof (f_equal sp Hrest) as H2.
    pose proof (f_equal index Hrest) as H3.
    pose proof (f_equal delayTimer Hrest) as H4.
    pose proof (f_equal soundTimer Hrest) as H5.
    cbn [pc sp index delayTimer soundTimer set_memory] in H1, H2, H3, H4, H5.
    rewrite H1, H2, H3, H4, H5. repeat split.
  - pose proof (f_equal registers Hrest) as H1.
    pose proof (f_equal stack Hrest) as H2.
    pose proof (f_equal keypad Hrest) as H3.
    pose proof (f_equal video Hrest) as H4.
    cbn [registers stack keypad video set_memory] in H1, H2, H3, H4.
    rewrite H1, H2, H3, H4. repeat split.
  - intros i Hi. rewrite Hout by lia. rewrite Chip8_new_memory by lia.
    destruct (Nat.leb_spec 80 (80 + i)) as [_|H]; [| lia].
    destruct (Nat.ltb_spec (80 + i) 160) as [_|H]; [| lia].
    cbn [andb]. f_equal. lia.
  - intros i b Hb. rewrite Himg by (apply lookup_lt_Some in Hb; lia).
    now rewrite nth_lookup, Hb.
  - intros a Ha. rewrite Hout by lia. rewrite Chip8_new_memory by lia.
    destruct (Nat.leb_spec 80 a) as [H1|_]; [| reflexivity].
    destruct (Nat.ltb_spec a 160) as [H2|_]; [lia | reflexivity].
Qed.

(** With the two-byte image A2 F0: glyph byte 0 (0xF0) at 0x50, the image at
    0x200 and 0x201, zero at 0x202 and at 0x1FF. *)
Lemma power_on_then_load_witness :
  exists s' : Chip8,
    LoadROM (Some image_short) Chip8_new = Ok s' /\
    wf s' /\ pc s' = 0x200 /\
    memory s' !!! 0x50%nat = 0xF0 /\
    memory s' !!! 0x200%nat = 0xA2 /\
    memory s' !!! 0x201%nat = 0xF0 /\
    memory s' !!! 0x202%nat = 0 /\
    memory s' !!! 0x1FF%nat = 0.
Proof.
  assert (Hlen : Z.of_nat (length image_short) <= 4096 - START_ADDRESS)
    by (vm_compute; discriminate).
  destruct (power_on_then_load image_short Hlen)
    as (s' & E & Hwf & (Hpc & _) & _ & Hfont & Himg & Hzero).
  exists s'. split; [exact E |]. split; [exact Hwf |]. split; [exact Hpc |].
  split; [| split; [| split; [| split]]].
  - apply (Hfont 0%nat). lia.
  - apply (Himg 0%nat xa2). reflexivity.
  - apply (Himg 1%nat xf0). reflexivity.
  - apply (Hzero 514%nat). right. right. vm_compute. lia.
  - apply (Hzero 511%nat). right. left. lia.
Defined.

(** The constructed state for any value of the uninitialised [opcode]
    member: it is well-formed, differs from [Chip8_new] in that member alone,
    and a handler or a load sees no difference once the instruction word has
    been stored. *)
Lemma Chip8_power_on_any_opcode (opcode0 : Z) :
  0 <= opcode0 < 65536 ->
  wf (Chip8_power_on opcode0) /\
  opcode (Chip8_power_on opcode0) = opcode0 /\
  (forall w, set_opcode (Chip8_power_on opcode0) w = set_opcode Chip8_new w) /\
  (forall buffer s',
      LoadROM (Some buffer) Chip8_new = Ok s' ->
      LoadROM (Some buffer) (Chip8_power_on opcode0) = Ok (set_opcode s' opcode0)).
Proof.
  intros Hw. split; [| split; [reflexivity | split; [reflexivity |]]].
  - apply wf_set_opcode; [vm_compute; reflexivity | assumption].
  - intros buffer.
    assert (G : forall (n : nat) (i : Z) (s s' : Chip8),
               for_range i n
                 (fun i s1 =>
                    write_memory s1 (START_ADDRESS + i)
                      (byte_value (nth (Z.to_nat i) buffer "000"%byte))) s
               = Ok s' ->
               for_range i n
                 (fun i s1 =>
                    write_memory s1 (START_ADDRESS + i)
                      (byte_value (nth (Z.to_nat i) buffer "000"%byte)))
                 (set_opcode s opcode0)
               = Ok (set_opcode s' opcode0)).
    { induction n as [|n IH]; intros i s s' E; simpl in E |- *.
      - now injection E as <-.
      - unfold write_memory in E |- *. cbn [memory set_opcode] in *.
        destruct (in_bounds (memory s) (START_ADDRESS + i)); simpl in E |- *;
          [| discriminate].
        exact (IH _ _ _ E). }
    intros s' E. exact (G _ _ _ _ E).
Qed.

(** ** Glyph address (Fx29) *)

(** X18: with the glyph table where the constructor puts it, Fx29 sets index
    to 0x50 + 5 * Vx, without wrap-around for any register value; for a digit
    Vx <= 15 the five bytes at index are the five rows of that digit's glyph,
    and for a larger Vx index points at or beyond 0xA0, past the table. *)
Theorem OP_Fx29_points_at_glyph (s : Chip8) :
  wf s ->
  (forall i : nat, (i < 80)%nat -> memory s !!! (80 + i)%nat = fontset !!! i) ->
  let d := reg s (opVx s) in
  let s' := OP_Fx29 s in
  index s' = FONTSET_START_ADDRESS + 5 * d /\
  set_index s' (index s) = s /\
  (d <= 15 ->
   forall r, 0 <= r < 5 ->
     memory s' !!! Z.to_nat (index s' + r) = fontset !!! Z.to_nat (5 * d + r)) /\
  (16 <= d -> 0xA0 <= index s').
Proof.
  intros Hwf Hfont d s'.
  pose proof (reg_range s _ Hwf (opVx_range s)) as Hd. fold d in Hd.
  assert (Hi : index s' = FONTSET_START_ADDRESS + 5 * d).
  { unfold s', OP_Fx29, FONTSET_START_ADDRESS. fold d. cbn [index set_index].
    apply u16_small. lia. }
  split; [exact Hi |]. split; [| split].
  - unfold s', OP_Fx29. now destruct s.
  - intros Hle r Hr. rewrite Hi. unfold FONTSET_START_ADDRESS.
    replace (Z.to_nat (80 + 5 * d + r))
      with (80 + Z.to_nat (5 * d + r))%nat by lia.
    unfold s', OP_Fx29. cbn [memory set_index]. apply Hfont. lia.
  - intros Hge. rewrite Hi. unfold FONTSET_START_ADDRESS. lia.
Qed.

(** FA29 with VA = 0xA at power-on: index becomes 0x82 and the five bytes
    there are the glyph of A. *)
Lemma OP_Fx29_points_at_glyph_witness :
  index (OP_Fx29 state_FA29) = 0x82 /\
  forall r, 0 <= r < 5 ->
    memory (OP_Fx29 state_FA29) !!! Z.to_nat (index (OP_Fx29 state_FA29) + r)
    = [0xF0; 0x90; 0xF0; 0x90; 0x90] !!! Z.to_nat r.
Proof.
  assert (Hwf : wf state_FA29) by (vm_compute; reflexivity).
  assert (Hfont : forall i : nat, (i < 80)%nat ->
                    memory state_FA29 !!! (80 + i)%nat = fontset !!! i).
  { intros i Hi. change (memory state_FA29) with (memory Chip8_new).
    rewrite Chip8_new_memory by lia.
    destruct (Nat.leb_spec 80 (80 + i)) as [_|H]; [| lia].
    destruct (Nat.ltb_spec (80 + i) 160) as [_|H]; [| lia].
    cbn [andb]. f_equal. lia. }
  destruct (OP_Fx29_points_at_glyph state_FA29 Hwf Hfont) as (Hi & _ & Hg & _).
  split; [exact Hi |].
  intros r Hr. rewrite Hg; [| vm_compute; discriminate | exact Hr].
  assert (r = 0 \/ r = 1 \/ r = 2 \/ r = 3 \/ r = 4) as H by lia.
  repeat (destruct H as [-> | H]); [.. | subst r]; reflexivity.
Defined.

(** ** Clear display (00E0) *)

(** X19: 00E0 turns every one of the 2048 cells off and changes nothing else;
    the sprite drawn next, if it lies in memory and in the buffer, reports no
    collision. *)
Theorem OP_00E0_clears_display (s : Chip8) :
  wf s ->
  video (OP_00E0 s) = zeros 2048 /\
  set_video (OP_00E0 s) (video s) = s /\
  forall w : Z,
    0 <= w < 65536 ->
    let c := set_opcode (OP_00E0 s) w in
    index c + draw_height c <= 4096 ->
    fits_video c = true ->
    exists s' : Chip8, OP_Dxyn c = Ok s' /\ reg s' 0xF = 0.
Proof.
  intros Hwf.
  pose proof (wf_inv s Hwf) as (_ & _ & _ & _ & _ & _ & _ & Hvl & _).
  assert (Hv : video (OP_00E0 s) = zeros 2048).
  { unfold OP_00E0. cbn [video set_video]. now rewrite Hvl. }
  split; [exact Hv |]. split; [unfold OP_00E0; now destruct s |].
  intros w Hw c Hidx Hfit.
  assert (Hwfc : wf c)
    by (apply wf_set_opcode; [now apply wf_OP_00E0 | assumption]).
  destruct (OP_Dxyn_on_clear_display c Hwfc Hv Hidx Hfit) as (s' & E & Hf & _).
  now exists s'.
Qed.

(** A screen with cell 0 on: after 00E0, D005 with I at glyph 0 draws without
    collision. *)
Lemma OP_00E0_clears_display_witness :
  video (OP_00E0 state_00E0_lit) = zeros 2048 /\
  exists s' : Chip8,
    OP_Dxyn (set_opcode (OP_00E0 state_00E0_lit) 0xD005) = Ok s' /\
    reg s' 0xF = 0.
Proof.
  assert (Hwf : wf state_00E0_lit) by (vm_compute; reflexivity).
  destruct (OP_00E0_clears_display state_00E0_lit Hwf) as (Hv & _ & Hd).
  split; [exact Hv |].
  apply (Hd 0xD005); [lia | vm_compute; discriminate | vm_compute; reflexivity].
Defined.

(** ** Register dump and load: the complete effect *)

Lemma set_registers_same s : set_registers s (registers s) = s.
Proof. now destruct s. Qed.

Lemma OP_Fx55_dump (s : Chip8) :
  length (memory s) = 4096%nat ->
  0 <= index s ->
  index s + opVx s < 4096 ->
  exists s' : Chip8,
    OP_Fx55 s = Ok s' /\
    length (memory s') = 4096%nat /\
    set_memory s' (memory s) = s /\
    (forall k, 0 <= k <= opVx s ->
               memory s' !!! Z.to_nat (index s + k) = reg s k) /\
    (forall a : nat,
        (Z.of_nat a < index s \/ index s + opVx s < Z.of_nat a) ->
        memory s' !!! a = memory s !!! a).
Proof.
  intros Hlen Hi Hidx.
  pose proof (opVx_range s) as Hx.
  unfold OP_Fx55.
  destruct (for_range_invariant
              (fun i s1 => write_memory s1 (index s1 + i) (reg s1 i))
              (fun j t => length (memory t) = 4096%nat /\
                          set_memory t (memory s) = s /\
                          (forall k, 0 <= k < j ->
                                     memory t !!! Z.to_nat (index s + k) = reg s k) /\
                          (forall a : nat,
                              (Z.of_nat a < index s \/ index s + j <= Z.of_nat a) ->
                              memory t !!! a = memory s !!! a))
              (Z.to_nat (opVx s + 1)) 0 s) as (s' & E & Hl' & Hrest & Hmem & Hout).
  - split; [assumption |]. split; [apply set_memory_same |].
    split; [intros k Hk; lia | reflexivity].
  - intros j t Hj (Htl & Hts & Htm & Hto).
    assert (Hti : index t = index s) by (rewrite <- Hts; reflexivity).
    assert (Htr : registers t = registers s) by (rewrite <- Hts; reflexivity).
    unfold write_memory. rewrite Hti, in_bounds_true by lia.
    eexists. split; [reflexivity |]. simpl.
    split; [rewrite length_insert; assumption |].
    split; [rewrite set_memory_set_memory; assumption |].
    split.
    + intros k Hk. destruct (Z.eq_dec k j) as [->|Hne].
      * rewrite list_lookup_total_insert_eq by lia.
        unfold reg. now rewrite Htr.
      * rewrite list_lookup_total_insert_ne by lia. apply Htm. lia.
    + intros a Ha. rewrite list_lookup_total_insert_ne by lia. apply Hto. lia.
  - exists s'. split; [exact E |]. split; [exact Hl' |].
    split; [exact Hrest |]. split.
    + intros k Hk. apply Hmem. lia.
    + intros a Ha. apply Hout. lia.
Qed.

Lemma OP_Fx65_load (s : Chip8) :
  length (registers s) = 16%nat ->
  length (memory s) = 4096%nat ->
  0 <= index s ->
  index s + opVx s < 4096 ->
  exists s' : Chip8,
    OP_Fx65 s = Ok s' /\
    length (registers s') = 16%nat /\
    set_registers s' (registers s) = s /\
    (forall k, 0 <= k <= opVx s ->
               reg s' k = memory s !!! Z.to_nat (index s + k)) /\
    (forall k, opVx s < k -> reg s' k = reg s k).
Proof.
  intros Hrl Hlen Hi Hidx.
  pose proof (opVx_range s) as Hx.
  unfold OP_Fx65.
  destruct (for_range_invariant
              (fun i s1 => do v <- read Memory (memory s1) (index s1 + i);
                           Ok (set_reg s1 i v))
              (fun j t => length (registers t) = 16%nat /\
                          set_registers t (registers s) = s /\
                          (forall k, 0 <= k < j ->
                                     reg t k = memory s !!! Z.to_nat (index s + k)) /\
                          (forall k, j <= k -> reg t k = reg s k))
              (Z.to_nat (opVx s + 1)) 0 s) as (s' & E & Hl' & Hrest & Hregs & Hout).
  - split; [assumption |]. split; [apply set_registers_same |].
    split; [intros k Hk; lia | reflexivity].
  - intros j t Hj (Htl & Hts & Htr & Hto).
    assert (Hti : index t = index s) by (rewrite <- Hts; reflexivity).
    assert (Htm : memory t = memory s) by (rewrite <- Hts; reflexivity).
    unfold read. rewrite Hti, Htm, in_bounds_true by lia. simpl.
    eexists. split; [reflexivity |]. simpl.
    split; [rewrite length_insert; assumption |].
    split; [exact Hts |].
    split.
    + intros k Hk. destruct (Z.eq_dec k j) as [->|Hne].
      * apply reg_set_reg_eq; [assumption | lia].
      * rewrite reg_set_reg_ne by lia. apply Htr. lia.
    + intros k Hk. rewrite reg_set_reg_ne by lia. apply Hto. lia.
  - exists s'. split; [exact E |]. split; [exact Hl' |].
    split; [exact Hrest |]. split.
    + intros k Hk. apply Hregs. lia.
    + intros k Hk. apply Hout. lia.
Qed.

(** X20: Fx55 followed by Fx65 is a save and restore.  The dump changes
    memory[index .. index + x] only; whatever happens to the registers
    afterwards, a load with the same x and index, from memory as the dump
    left it, completes, gives V0..Vx their values at the time of the dump,
    and changes neither a register above Vx nor anything else. *)
Theorem dump_then_load_restores_registers (s : Chip8) :
  wf s ->
  index s + opVx s < 4096 ->
  exists s1 : Chip8,
    OP_Fx55 s = Ok s1 /\
    set_memory s1 (memory s) = s /\
    (forall a : nat,
        (Z.of_nat a < index s \/ index s + opVx s < Z.of_nat a) ->
        memory s1 !!! a = memory s !!! a) /\
    forall t : Chip8,
      length (registers t) = 16%nat ->
      memory t = memory s1 -> index t = index s -> opVx t = opVx s ->
      exists s2 : Chip8,
        OP_Fx65 t = Ok s2 /\
        set_registers s2 (registers t) = t /\
        (forall k, 0 <= k <= opVx s -> reg s2 k = reg s k) /\
        (forall k, opVx s < k -> reg s2 k = reg t k).
Proof.
  intros Hwf Hidx.
  pose proof (wf_inv s Hwf) as (_ & _ & Hml & _ & _ & _ & _ & _ & Hi & _).
  destruct (OP_Fx55_dump s Hml ltac:(lia) Hidx)
    as (s1 & E1 & Hl1 & Hr1 & Hm1 & Ho1).
  exists s1. split; [exact E1 |]. split; [exact Hr1 |]. split; [exact Ho1 |].
  intros t Htl Htm Hti Htx.
  destruct (OP_Fx65_load t Htl) as (s2 & E2 & Hl2 & Hr2 & Hg2 & Ho2).
  - now rewrite Htm.
  - lia.
  - lia.
  - exists s2. split; [exact E2 |]. split; [exact Hr2 |]. split.
    + intros k Hk. rewrite Hg2 by lia. rewrite Htm, Hti. now apply Hm1.
    + intros k Hk. apply Ho2. lia.
Qed.

(** F155 with (V0, V1, V2) = (11, 22, 33) and I = 0x400, then both registers
    overwritten with 99 and F165: V0 and V1 are 11 and 22 again, V2 is still
    33 and memory[0x402] was never written. *)
Lemma dump_then_load_restores_registers_witness :
  exists s1 s2 : Chip8,
    OP_Fx55 state_F155 = Ok s1 /\
    OP_Fx65 (set_opcode (set_reg (set_reg s1 0 99) 1 99) 0xF165) = Ok s2 /\
    reg s2 0 = 11 /\ reg s2 1 = 22 /\ reg s2 2 = 33 /\
    memory s1 !!! 0x402%nat = 0.
Proof.
  assert (Hwf : wf state_F155) by (vm_compute; reflexivity).
  assert (Hidx : index state_F155 + opVx state_F155 < 4096)
    by (vm_compute; reflexivity).
  destruct (dump_then_load_restores_registers state_F155 Hwf Hidx)
    as (s1 & E1 & Hr1 & Ho1 & Hload).
  assert (Hrl : length (registers s1) = 16%nat)
    by (rewrite <- Hr1 in Hwf; apply wf_inv in Hwf; tauto).
  destruct (Hload (set_opcode (set_reg (set_reg s1 0 99) 1 99) 0xF165))
    as (s2 & E2 & _ & Hg & Ho).
  - cbn [registers set_opcode set_reg set_registers].
    now rewrite !length_insert.
  - reflexivity.
  - rewrite <- Hr1. reflexivity.
  - reflexivity.
  - exists s1, s2. split; [exact E1 |]. split; [exact E2 |].
    split; [| split; [| split]].
    + apply (Hg 0). vm_compute. split; discriminate.
    + apply (Hg 1). vm_compute. split; discriminate.
    + rewrite (Ho 2) by (vm_compute; reflexivity).
      unfold reg. cbn [registers set_opcode set_reg set_registers].
      rewrite !list_lookup_total_insert_ne by lia.
      replace (registers s1) with (registers state_F155)
        by (rewrite <- Hr1; reflexivity).
      vm_compute. reflexivity.
    + rewrite (Ho1 1026%nat) by (right; vm_compute; reflexivity).
      vm_compute. reflexivity.
Defined.

(** ** BCD store, read back *)

Lemma OP_Fx33_writes (s : Chip8) :
  wf s ->
  index s + 2 < 4096 ->
  let v := reg s (opVx s) in
  OP_Fx33 s
  = Ok (set_memory s
          (<[Z.to_nat (index s) := (v / 100) mod 10]>
             (<[Z.to_nat (index s + 1) := (v / 10) mod 10]>
                (<[Z.to_nat (index s + 2) := v mod 10]> (memory s))))).
Proof.
  intros Hwf Hidx v.
  pose proof (reg_range s _ Hwf (opVx_range s)) as Hv. fold v in Hv.
  pose proof (wf_inv s Hwf) as (_ & _ & Hlen & _ & _ & _ & _ & _ & Hi & _).
  assert (H0 : u8 (v mod 10) = v mod 10)
    by (apply u8_small; pose proof (Z.mod_pos_bound v 10); lia).
  assert (H1 : u8 (v / 10) = v / 10).
  { apply u8_small.
    pose proof (Z.div_pos v 10). pose proof (Z.div_le_upper_bound v 10 26). lia. }
  assert (H2 : u8 (v / 10 mod 10) = v / 10 mod 10)
    by (apply u8_small; pose proof (Z.mod_pos_bound (v / 10) 10); lia).
  assert (H3 : u8 (v / 10 / 10) = v / 100).
  { rewrite Z.div_div by lia. change (10 * 10) with 100.
    apply u8_small.
    pose proof (Z.div_pos v 100). pose proof (Z.div_le_upper_bound v 100 3). lia. }
  assert (H4 : u8 (v / 100 mod 10) = v / 100 mod 10)
    by (apply u8_small; pose proof (Z.mod_pos_bound (v / 100) 10); lia).
  unfold OP_Fx33, write_memory. fold v.
  rewrite in_bounds_true by lia. simpl.
  rewrite in_bounds_true by (rewrite length_insert; lia). simpl.
  rewrite in_bounds_true by (rewrite !length_insert; lia).
  rewrite H0, H1, H2, H3, H4. reflexivity.
Qed.

(** X21: Fx33 followed by F265 (with index unchanged in between) leaves the
    three decimal digits of the old Vx in V0, V1, V2: each is at most 9 and
    100 * V0 + 10 * V1 + V2 is the old Vx.  Fx33 itself changes the three
    bytes at index and nothing else. *)
Theorem bcd_then_load_gives_digits (s : Chip8) :
  wf s ->
  index s + 2 < 4096 ->
  exists s1 s2 : Chip8,
    OP_Fx33 s = Ok s1 /\
    set_memory s1 (memory s) = s /\
    (forall a : nat,
        (Z.of_nat a < index s \/ index s + 2 < Z.of_nat a) ->
        memory s1 !!! a = memory s !!! a) /\
    OP_Fx65 (set_opcode s1 0xF265) = Ok s2 /\
    (0 <= reg s2 0 <= 9 /\ 0 <= reg s2 1 <= 9 /\ 0 <= reg s2 2 <= 9) /\
    100 * reg s2 0 + 10 * reg s2 1 + reg s2 2 = reg s (opVx s).
Proof.
  intros Hwf Hidx.
  pose proof (reg_range s _ Hwf (opVx_range s)) as Hv.
  pose proof (wf_inv s Hwf) as (Hrl & _ & Hml & _ & _ & _ & _ & _ & Hi & _).
  pose proof (OP_Fx33_writes s Hwf Hidx) as E1. cbv zeta in E1.
  set (v := reg s (opVx s)) in *.
  set (m1 := <[Z.to_nat (index s) := _]> _) in E1.
  assert (Hm0 : m1 !!! Z.to_nat (index s + 0) = v / 100 mod 10).
  { unfold m1. rewrite Z.add_0_r.
    apply list_lookup_total_insert_eq. rewrite !length_insert. lia. }
  assert (Hm1 : m1 !!! Z.to_nat (index s + 1) = v / 10 mod 10).
  { unfold m1. rewrite list_lookup_total_insert_ne by lia.
    apply list_lookup_total_insert_eq. rewrite !length_insert. lia. }
  assert (Hm2 : m1 !!! Z.to_nat (index s + 2) = v mod 10).
  { unfold m1. rewrite !list_lookup_total_insert_ne by lia.
    apply list_lookup_total_insert_eq. lia. }
  destruct (OP_Fx65_load (set_opcode (set_memory s m1) 0xF265))
    as (s2 & E2 & _ & _ & Hg & _).
  - exact Hrl.
  - cbn [memory set_opcode set_memory]. unfold m1.
    now rewrite !length_insert.
  - cbn [index set_opcode set_memory]. lia.
  - change (opVx (set_opcode (set_memory s m1) 0xF265)) with 2.
    cbn [index set_opcode set_memory]. lia.
  - change (opVx (set_opcode (set_memory s m1) 0xF265)) with 2 in Hg.
    cbn [index memory set_opcode set_memory] in Hg.
    exists (set_memory s m1), s2. split; [exact E1 |].
    split; [now destruct s |]. split; [| split; [exact E2 |]].
    + intros a Ha. cbn [memory set_memory]. unfold m1.
      rewrite !list_lookup_total_insert_ne by lia. reflexivity.
    + rewrite (Hg 0), (Hg 1), (Hg 2) by lia. rewrite Hm0, Hm1, Hm2.
      pose proof (Z.mod_pos_bound (v / 100) 10).
      pose proof (Z.mod_pos_bound (v / 10) 10).
      pose proof (Z.mod_pos_bound v 10).
      split; [lia |].
      rewrite (Z.mod_small (v / 100) 10)
        by (pose proof (Z.div_pos v 100);
            pose proof (Z.div_le_upper_bound v 100 3); lia).
      replace (v / 100) with (v / 10 / 10)
        by (rewrite Z.div_div by lia; reflexivity).
      pose proof (Z.div_mod v 10). pose proof (Z.div_mod (v / 10) 10). lia.
Qed.

(** V7 = 199 and I = 0x300: after F733 and F265, (V0, V1, V2) = (1, 9, 9). *)
Lemma bcd_then_load_gives_digits_witness :
  exists s1 s2 : Chip8,
    OP_Fx33 state_F733 = Ok s1 /\
    OP_Fx65 (set_opcode s1 0xF265) = Ok s2 /\
    100 * reg s2 0 + 10 * reg s2 1 + reg s2 2 = 199.
Proof.
  assert (Hwf : wf state_F733) by (vm_compute; reflexivity).
  assert (Hidx : index state_F733 + 2 < 4096) by (vm_compute; reflexivity).
  destruct (bcd_then_load_gives_digits state_F733 Hwf Hidx)
    as (s1 & s2 & E1 & _ & _ & E2 & _ & Hsum).
  exists s1, s2. split; [exact E1 |]. split; [exact E2 |]. exact Hsum.
Defined.

(** ** Draw sprite: drawing twice on any display *)

Lemma lxor_ones32_twice (v : Z) : Z.lxor (Z.lxor v 0xFFFFFFFF) 0xFFFFFFFF = v.
Proof. now rewrite Z.lxor_assoc, Z.lxor_nilpotent, Z.lxor_0_r. Qed.

Lemma lxor_ones32_on (v : Z) : (Z.lxor v 0xFFFFFFFF =? 0xFFFFFFFF) = (v =? 0).
Proof.
  destruct (Z.eqb_spec v 0) as [->|Hne].
  - reflexivity.
  - apply Z.eqb_neq. intros H. apply Hne.
    rewrite <- (lxor_ones32_twice v), H. reflexivity.
Qed.

(** Two states with the same eleven members are the same state. *)
Lemma Chip8_eq (s t : Chip8) :
  registers s = registers t -> memory s = memory t -> index s = index t ->
  pc s = pc t -> stack s = stack t -> sp s = sp t ->
  delayTimer s = delayTimer t -> soundTimer s = soundTimer t ->
  keypad s = keypad t -> video s = video t -> opcode s = opcode t ->
  s = t.
Proof. destruct s, t; simpl; intros; subst; reflexivity. Qed.

(** The members [draw_frame] does not mention: a draw leaves the stack, the
    stack pointer, both timers and the keypad as they are. *)
Lemma OP_Dxyn_rest (s s' : Chip8) :
  OP_Dxyn s = Ok s' ->
  stack s' = stack s /\ sp s' = sp s /\ delayTimer s' = delayTimer s /\
  soundTimer s' = soundTimer s /\ keypad s' = keypad s.
Proof.
  intros E. unfold OP_Dxyn in E.
  eapply (for_range_preserves
            (fun t => stack t = stack s /\ sp t = sp s /\
                      delayTimer t = delayTimer s /\
                      soundTimer t = soundTimer s /\ keypad t = keypad s));
    [| | exact E].
  - intros j t t' Ht Ed. unfold draw_row in Ed.
    destruct (read Memory _ _) as [b|arr k]; cbn [bind] in Ed; [| discriminate].
    eapply (for_range_preserves
              (fun u => stack u = stack s /\ sp u = sp s /\
                        delayTimer u = delayTimer s /\
                        soundTimer u = soundTimer s /\ keypad u = keypad s));
      [| exact Ht | exact Ed].
    intros j' u u' Hu Ep. unfold draw_pixel in Ep.
    destruct (u8 (Z.land b (Z.shiftr 128 j')) =? 0); [now injection Ep as <- |].
    destruct (read Video _ _) as [px|arr k]; cbn [bind] in Ep; [| discriminate].
    unfold write_video in Ep.
    destruct (in_bounds _ _); [| discriminate].
    injection Ep as <-. destruct (px =? 4294967295); exact Hu.
  - repeat split.
Qed.

(** X22: drawing is its own inverse on any display contents.  With the
    position registers other than V15, the sprite rows in memory and its
    cells in the buffer, two draws of the same instruction complete and give
    back the display buffer exactly; the state after them is the state
    before them with V15 replaced, every other member and register
    unchanged.  V15 after the first draw is 1 exactly when some cell of the
    sprite was fully on before, and after the second exactly when some cell
    of the sprite was 0 before. *)
Theorem OP_Dxyn_twice_restores_any_display (s : Chip8) :
  wf s ->
  index s + draw_height s <= 4096 ->
  fits_video s = true ->
  opVx s <> 0xF -> opVy s <> 0xF ->
  exists s1 s2 : Chip8,
    OP_Dxyn s = Ok s1 /\
    OP_Dxyn s1 = Ok s2 /\
    video s2 = video s /\
    draw_frame s s2 /\
    reg s1 0xF
    = (if existsb (fun c => video s !!! Z.to_nat c =? 0xFFFFFFFF) (sprite_cells s)
       then 1 else 0) /\
    reg s2 0xF
    = (if existsb (fun c => video s !!! Z.to_nat c =? 0) (sprite_cells s)
       then 1 else 0) /\
    s2 = set_reg s 0xF (reg s2 0xF).
Proof.
  intros Hwf Hidx Hfit Hx Hy.
  pose proof (opVx_range s) as Rx. pose proof (opVy_range s) as Ry.
  pose proof (wf_inv s Hwf) as (Hrl & _ & Hml & _ & _ & _ & _ & Hvl & Hi & _).
  assert (Hb : forall c, c ∈ sprite_cells s -> 0 <= c < 2048).
  { intros c Hc. pose proof (fits_video_bounds s c Hfit Hc). lia. }
  destruct (OP_Dxyn_spec s Hrl Hml ltac:(lia) Hidx) as (s1 & E1 & Hv1 & Hf1 & Hfr1).
  { intros c Hc. apply Hb in Hc. lia. }
  pose proof Hfr1 as (Hm1 & Hi1 & _ & _ & Hrl1 & Hvl1 & Hr1).
  destruct (sprite_cells_same s s1 Hfr1) as [Hcells Hh];
    [apply Hr1; lia | apply Hr1; lia |].
  destruct (OP_Dxyn_spec s1) as (s2 & E2 & Hv2 & Hf2 & Hfr2).
  { congruence. }
  { congruence. }
  { rewrite Hi1. lia. }
  { rewrite Hi1, Hh. exact Hidx. }
  { rewrite Hcells, Hvl1. intros c Hc. apply Hb in Hc. lia. }
  assert (Hvid : video s2 = video s).
  { pose proof Hfr2 as (_ & _ & _ & _ & _ & Hvl2 & _).
    apply (list_eq_same_length _ _ 2048%nat); [assumption | congruence |].
    intros i x y Hlt Hx2 Hy2.
    apply list_lookup_total_correct in Hx2, Hy2. subst x y.
    specialize (Hv2 (Z.of_nat i) ltac:(lia)).
    specialize (Hv1 (Z.of_nat i) ltac:(lia)).
    rewrite Nat2Z.id in Hv1, Hv2. rewrite Hcells in Hv2.
    rewrite Hv2, Hv1.
    destruct (decide (Z.of_nat i ∈ sprite_cells s));
      [apply lxor_ones32_twice | reflexivity]. }
  assert (Hfr : draw_frame s s2) by (eapply draw_frame_trans; eassumption).
  exists s1, s2. split; [exact E1 |]. split; [exact E2 |].
  split; [exact Hvid |]. split; [exact Hfr |]. split; [exact Hf1 |]. split.
  - rewrite Hf2, Hcells.
    rewrite (existsb_agree _ (fun c => video s !!! Z.to_nat c =? 0));
      [reflexivity |].
    intros c Hc. pose proof (Hb c Hc).
    rewrite Hv1 by lia.
    destruct (decide (c ∈ sprite_cells s)); [| contradiction].
    apply lxor_ones32_on.
  - destruct (OP_Dxyn_rest s s1 E1) as (Hst1 & Hsp1 & Hdt1 & Hsn1 & Hk1).
    destruct (OP_Dxyn_rest s1 s2 E2) as (Hst2 & Hsp2 & Hdt2 & Hsn2 & Hk2).
    destruct Hfr as (Hm & Hix & Ho & Hp & Hrl2 & _ & Hr).
    apply Chip8_eq; cbn [registers memory index pc stack sp delayTimer
                         soundTimer keypad video opcode set_reg set_registers];
      try congruence.
    apply (list_eq_same_length _ _ 16%nat);
      [rewrite length_insert; assumption | congruence |].
    intros i x y Hlt Hx2 Hy2.
    apply list_lookup_total_correct in Hx2, Hy2. subst x y.
    change (Z.to_nat 15) with 15%nat.
    destruct (Nat.eq_dec i 15%nat) as [->|Hne].
    + rewrite list_lookup_total_insert_eq by (rewrite Hrl; lia). reflexivity.
    + rewrite list_lookup_total_insert_ne by lia.
      specialize (Hr (Z.of_nat i) ltac:(lia) ltac:(lia)).
      unfold reg in Hr. now rewrite Nat2Z.id in Hr.
Qed.

(** The first glyph drawn twice at (10, 5) over a display whose cell 330 is
    on: both draws report a collision, the display is as before, and the
    state differs from the start in V15 alone. *)
Lemma OP_Dxyn_twice_restores_any_display_witness :
  exists s1 s2 : Chip8,
    OP_Dxyn state_D015_lit = Ok s1 /\
    OP_Dxyn s1 = Ok s2 /\
    video s2 = video state_D015_lit /\
    reg s1 0xF = 1 /\ reg s2 0xF = 1 /\
    s2 = set_reg state_D015_lit 0xF 1.
Proof.
  assert (Hwf : wf state_D015_lit) by (vm_compute; reflexivity).
  assert (Hidx : index state_D015_lit + draw_height state_D015_lit <= 4096)
    by (vm_compute; discriminate).
  assert (Hfit : fits_video state_D015_lit = true) by (vm_compute; reflexivity).
  assert (Hx : opVx state_D015_lit <> 0xF) by (vm_compute; discriminate).
  assert (Hy : opVy state_D015_lit <> 0xF) by (vm_compute; discriminate).
  destruct (OP_Dxyn_twice_restores_any_display state_D015_lit Hwf Hidx Hfit Hx Hy)
    as (s1 & s2 & E1 & E2 & Hv & _ & Hf1 & Hf2 & Hs2).
  assert (H2 : reg s2 0xF = 1) by (rewrite Hf2; vm_compute; reflexivity).
  exists s1, s2. split; [exact E1 |]. split; [exact E2 |]. split; [exact Hv |].
  split; [| split].
  - rewrite Hf1. vm_compute. reflexivity.
  - exact H2.
  - rewrite <- H2. exact Hs2.
Defined.

(** ** Where the memory loops stop *)

Lemma for_range_fails {St : Type} (body : Z -> St -> outcome St)
    (Inv : St -> Prop) (arr : array) (k : Z) (n m : nat) :
  forall (i : Z) (s : St),
    Inv s ->
    (forall j t, i <= j < i + Z.of_nat n -> Inv t ->
                 exists t', body j t = Ok t' /\ Inv t') ->
    (forall t, Inv t -> body (i + Z.of_nat n) t = OutOfBounds arr k) ->
    for_range i (n + S m) body s = OutOfBounds arr k.
Proof.
  induction n as [|n IH]; intros i s Hinv Hstep Hfail; simpl.
  - replace i with (i + Z.of_nat 0) at 1 by lia.
    rewrite Hfail by assumption. reflexivity.
  - destruct (Hstep i s ltac:(lia) Hinv) as (t & Et & Ht).
    rewrite Et. simpl. apply IH; [assumption | |].
    + intros j t' Hj. apply Hstep. lia.
    + intros t' Ht'.
      replace (i + 1 + Z.of_nat n) with (i + Z.of_nat (S n)) by lia.
      now apply Hfail.
Qed.

Lemma in_bounds_false_above (l : list Z) (i : Z) :
  Z.of_nat (length l) <= i -> in_bounds l i = false.
Proof. intros H. unfold in_bounds. apply andb_false_intro2. lia. Qed.

Lemma OP_Fx55_past_end (s : Chip8) :
  length (memory s) = 4096%nat -> 0 <= index s ->
  4096 <= index s + opVx s ->
  OP_Fx55 s = OutOfBounds Memory (Z.max 4096 (index s)).
Proof.
  intros Hml Hi Hbig. pose proof (opVx_range s) as Hx.
  unfold OP_Fx55.
  replace (Z.to_nat (opVx s + 1))
    with (Z.to_nat (4096 - index s)
          + S (Z.to_nat (opVx s - Z.max 0 (4096 - index s))))%nat by lia.
  apply (for_range_fails _
           (fun t => index t = index s /\ length (memory t) = 4096%nat)).
  - split; [reflexivity | assumption].
  - intros j t Hj (Hti & Htl). unfold write_memory.
    rewrite Hti, in_bounds_true by lia.
    eexists. split; [reflexivity |]. simpl.
    split; [assumption | now rewrite length_insert].
  - intros t (Hti & Htl). unfold write_memory.
    rewrite in_bounds_false_above by lia. f_equal. lia.
Qed.

Lemma OP_Fx65_past_end (s : Chip8) :
  length (memory s) = 4096%nat -> 0 <= index s ->
  4096 <= index s + opVx s ->
  OP_Fx65 s = OutOfBounds Memory (Z.max 4096 (index s)).
Proof.
  intros Hml Hi Hbig. pose proof (opVx_range s) as Hx.
  unfold OP_Fx65.
  replace (Z.to_nat (opVx s + 1))
    with (Z.to_nat (4096 - index s)
          + S (Z.to_nat (opVx s - Z.max 0 (4096 - index s))))%nat by lia.
  apply (for_range_fails _
           (fun t => index t = index s /\ length (memory t) = 4096%nat)).
  - split; [reflexivity | assumption].
  - intros j t Hj (Hti & Htl). unfold read.
    rewrite Hti, in_bounds_true by lia. simpl.
    eexists. split; [reflexivity |]. simpl. split; assumption.
  - intros t (Hti & Htl). unfold read.
    rewrite in_bounds_false_above by lia. simpl. f_equal. lia.
Qed.

Lemma LoadROM_past_end (buffer : list byte) (s : Chip8) :
  length (memory s) = 4096%nat ->
  4096 - START_ADDRESS < Z.of_nat (length buffer) ->
  LoadROM (Some buffer) s = OutOfBounds Memory 4096.
Proof.
  intros Hml Hbig. unfold LoadROM. unfold START_ADDRESS in *.
  replace (length buffer)
    with (Z.to_nat 3584 + S (length buffer - Z.to_nat 3585))%nat at 1 by lia.
  apply (for_range_fails _ (fun t => length (memory t) = 4096%nat)).
  - assumption.
  - intros j t Hj Htl. unfold write_memory.
    rewrite in_bounds_true by lia.
    eexists. split; [reflexivity |]. simpl. now rewrite length_insert.
  - intros t Htl. unfold write_memory.
    rewrite in_bounds_false_above by lia. f_equal.
Qed.

(** X23: the handlers that walk memory complete exactly when every byte they
    address lies below 4096: Fx33 when index + 2 does, Fx55 and Fx65 when
    index + x does, LoadROM when the image has at most 4096 - 0x200 bytes.
    Otherwise Fx33 stops at its first store, the one to index + 2; the two
    register loops and LoadROM stop at address 4096 (or at index, if index
    is already beyond it), after the bytes below it have been transferred. *)
Theorem memory_handlers_complete_iff_in_range (s : Chip8) :
  wf s ->
  (((exists s' : Chip8, OP_Fx33 s = Ok s') <-> index s + 2 < 4096) /\
   (4096 <= index s + 2 -> OP_Fx33 s = OutOfBounds Memory (index s + 2))) /\
  (((exists s' : Chip8, OP_Fx55 s = Ok s') <-> index s + opVx s < 4096) /\
   ((exists s' : Chip8, OP_Fx65 s = Ok s') <-> index s + opVx s < 4096) /\
   (4096 <= index s + opVx s ->
    OP_Fx55 s = OutOfBounds Memory (Z.max 4096 (index s)) /\
    OP_Fx65 s = OutOfBounds Memory (Z.max 4096 (index s)))) /\
  (forall buffer : list byte,
      ((exists s' : Chip8, LoadROM (Some buffer) s = Ok s')
       <-> Z.of_nat (length buffer) <= 4096 - START_ADDRESS) /\
      (4096 - START_ADDRESS < Z.of_nat (length buffer) ->
       LoadROM (Some buffer) s = OutOfBounds Memory 4096)).
Proof.
  intros Hwf.
  pose proof (wf_inv s Hwf) as (Hrl & _ & Hml & _ & _ & _ & _ & _ & Hi & _).
  assert (F33 : 4096 <= index s + 2 ->
                OP_Fx33 s = OutOfBounds Memory (index s + 2)).
  { intros H. unfold OP_Fx33, write_memory.
    rewrite in_bounds_false_above by lia. reflexivity. }
  split; [| split].
  - split; [| exact F33]. split.
    + intros (s' & E).
      destruct (Z.lt_ge_cases (index s + 2) 4096) as [Hlt|Hge]; [assumption |].
      rewrite F33 in E by assumption. discriminate.
    + intros H. eexists. now apply OP_Fx33_writes.
  - split; [| split].
    + split.
      * intros (s' & E).
        destruct (Z.lt_ge_cases (index s + opVx s) 4096) as [Hlt|Hge];
          [assumption |].
        rewrite OP_Fx55_past_end in E by (assumption || lia). discriminate.
      * intros H. destruct (OP_Fx55_dump s Hml ltac:(lia) H) as (s' & E & _).
        now exists s'.
    + split.
      * intros (s' & E).
        destruct (Z.lt_ge_cases (index s + opVx s) 4096) as [Hlt|Hge];
          [assumption |].
        rewrite OP_Fx65_past_end in E by (assumption || lia). discriminate.
      * intros H.
        destruct (OP_Fx65_load s Hrl Hml ltac:(lia) H) as (s' & E & _).
        now exists s'.
    + intros H. split;
        [apply OP_Fx55_past_end | apply OP_Fx65_past_end]; (assumption || lia).
  - intros buffer. split; [| now apply LoadROM_past_end].
    split.
    + intros (s' & E).
      destruct (Z.le_gt_cases (Z.of_nat (length buffer)) (4096 - START_ADDRESS))
        as [Hle|Hgt]; [assumption |].
      rewrite LoadROM_past_end in E by (assumption || lia). discriminate.
    + intros H. destruct (LoadROM_writes buffer s Hml H) as (s' & E & _).
      now exists s'.
Qed.

(** F255 with I = 0xFFE: V2 would go to address 4096, so the dump and the
    load both stop there; Fx33 at the same index stops at once. *)
Lemma memory_handlers_complete_iff_in_range_witness :
  OP_Fx55 state_F255_end = OutOfBounds Memory 4096 /\
  OP_Fx65 state_F255_end = OutOfBounds Memory 4096 /\
  OP_Fx33 state_F255_end = OutOfBounds Memory 4096.
Proof.
  assert (Hwf : wf state_F255_end) by (vm_compute; reflexivity).
  destruct (memory_handlers_complete_iff_in_range state_F255_end Hwf)
    as ((_ & H33) & (_ & _ & H55) & _).
  destruct H55 as (H1 & H2); [vm_compute; discriminate |].
  split; [exact H1 |]. split; [exact H2 |].
  apply H33. vm_compute. discriminate.
Defined.
